(** * SimplePrognoz: the data-preparation pipeline of [neuralprophet]

    A shallow embedding of [neuralprophet/df_utils.py] and
    [neuralprophet/time_dataset.py]: validation of a raw series table,
    estimation and application of scale parameters, the train/validation
    split, Fourier seasonality features and the sliding-window tabularizer.

    Conventions of the embedding.
    - A Python [int] is a [Z]; [range], slices and [int()] follow Python,
      negative arguments included.
    - A [float64] is a real number, or one of the IEEE special values
      (infinities, NaN).  Arithmetic on finite values is exact: rounding,
      overflow and signed zeros are not represented.  The one place
      where an integer is read off a float, the product in [split_df], is
      computed in double precision: there the rounding is kept.
    - A [datetime64[ns]] value is its count of nanoseconds since
      1970-01-01, or NaT ([None]); a [Timedelta] likewise.
    - A pandas table is an index, an index name and named, typed columns.
    - A raised exception is the left injection of a sum. *)

From Stdlib Require Import Reals ZArith String DecimalString Bool Lia Lra.
From Stdlib Require Import List Permutation Sorted.
Import ListNotations.

Local Open Scope string_scope.
Local Open Scope Z_scope.

(** ** Python *)

Module Py.

(** The exceptions the two source files can raise.  [Unsupported] is not a
    Python exception: it marks an operation on a dtype that lies outside
    the fragment of pandas and numpy represented here. *)
Inductive exn : Type :=
| ValueError (msg : string)
| KeyError (key : string)
| AttributeError (name : string)
| TypeError (msg : string)
| AssertionError
| NotImplementedError
| OverflowError
| Unsupported (what : string).

Definition result (A : Type) : Type := (exn + A)%type.

Definition ret {A : Type} (a : A) : result A := inr a.

Definition raise {A : Type} (e : exn) : result A := inl e.

Definition bind {A B : Type} (c : result A) (k : A -> result B) : result B :=
  match c with
  | inl e => inl e
  | inr a => k a
  end.

(** [assert c] *)
Definition assert (c : bool) : result unit :=
  if c then ret tt else raise AssertionError.

(** [range(n)]: empty when [n <= 0]. *)
Definition range (n : Z) : list Z := map Z.of_nat (seq 0 (Z.to_nat n)).

(** A slice bound [i] resolved against a sequence of length [len]:
    a negative bound counts from the end, and both are clipped. *)
Definition slice_bound (len i : Z) : nat :=
  Z.to_nat (if i <? 0 then Z.max (i + len) 0 else Z.min i len).

(** [x[a:b]] *)
Definition slice {A : Type} (x : list A) (a b : Z) : list A :=
  let len := Z.of_nat (length x) in
  let lo := slice_bound len a in
  let hi := slice_bound len b in
  firstn (hi - lo) (skipn lo x).

(** [x[:b]] *)
Definition slice_to {A : Type} (x : list A) (b : Z) : list A :=
  firstn (slice_bound (Z.of_nat (length x)) b) x.

(** [x[a:]] *)
Definition slice_from {A : Type} (x : list A) (a : Z) : list A :=
  skipn (slice_bound (Z.of_nat (length x)) a) x.

(** An [OrderedDict]: [d[k] = v] replaces the value of a present key in
    place and appends an absent one. *)
Fixpoint od_set {V : Type} (d : list (string * V)) (k : string) (v : V)
  : list (string * V) :=
  match d with
  | [] => [(k, v)]
  | (k', v') :: d' =>
      if String.eqb k k' then (k, v) :: d' else (k', v') :: od_set d' k v
  end.

Fixpoint od_get {V : Type} (d : list (string * V)) (k : string) : option V :=
  match d with
  | [] => None
  | (k', v) :: d' => if String.eqb k k' then Some v else od_get d' k
  end.

End Py.

Export Py.

Declare Scope result_scope.
Delimit Scope result_scope with result.
Notation "x <- c ;; k" := (bind c (fun x => k))
  (at level 61, c at next level, right associativity) : result_scope.
Notation "c ;;; k" := (bind c (fun _ => k))
  (at level 61, right associativity) : result_scope.
Local Open Scope result_scope.

(** ** numpy *)

Module Np.

(** A [float64]: finite, an infinity ([neg = true] for the negative one)
    or NaN. *)
Inductive float64 : Type :=
| Fin (r : R)
| Inf (neg : bool)
| NaN.

Definition of_int (z : Z) : float64 := Fin (IZR z).

Definition Rneg (r : R) : bool := if Rlt_dec r 0 then true else false.

Definition Rzero (r : R) : bool := if Req_dec_T r 0 then true else false.

Definition fneg (a : float64) : float64 :=
  match a with
  | Fin r => Fin (- r)
  | Inf s => Inf (negb s)
  | NaN => NaN
  end.

Definition fadd (a b : float64) : float64 :=
  match a, b with
  | NaN, _ | _, NaN => NaN
  | Fin x, Fin y => Fin (x + y)
  | Inf s, Fin _ | Fin _, Inf s => Inf s
  | Inf s, Inf s' => if Bool.eqb s s' then Inf s else NaN
  end.

Definition fsub (a b : float64) : float64 := fadd a (fneg b).

Definition fmul (a b : float64) : float64 :=
  match a, b with
  | NaN, _ | _, NaN => NaN
  | Fin x, Fin y => Fin (x * y)
  | Inf s, Fin y | Fin y, Inf s =>
      if Rzero y then NaN else Inf (xorb s (Rneg y))
  | Inf s, Inf s' => Inf (xorb s s')
  end.

(** numpy division: a finite non-zero value over zero is an infinity and
    [0/0] is NaN; no exception is raised. *)
Definition fdiv (a b : float64) : float64 :=
  match a, b with
  | NaN, _ | _, NaN => NaN
  | Fin x, Fin y =>
      if Rzero y then (if Rzero x then NaN else Inf (Rneg x))
      else Fin (x / y)
  | Fin _, Inf _ => Fin 0
  | Inf s, Fin y => Inf (xorb s (Rneg y))
  | Inf _, Inf _ => NaN
  end.

Definition fabs (a : float64) : float64 :=
  match a with
  | Fin r => Fin (Rabs r)
  | Inf _ => Inf false
  | NaN => NaN
  end.

Definition fsqrt (a : float64) : float64 :=
  match a with
  | Fin r => if Rneg r then NaN else Fin (sqrt r)
  | Inf false => Inf false
  | Inf true => NaN
  | NaN => NaN
  end.

Definition fsin (a : float64) : float64 :=
  match a with
  | Fin r => Fin (sin r)
  | _ => NaN
  end.

Definition fcos (a : float64) : float64 :=
  match a with
  | Fin r => Fin (cos r)
  | _ => NaN
  end.

Definition isnan (a : float64) : bool :=
  match a with NaN => true | _ => false end.

Definition isinf (a : float64) : bool :=
  match a with Inf _ => true | _ => false end.

(** [int(x)]: truncation towards zero; NaN and the infinities raise. *)
Definition trunc (r : R) : Z :=
  if Rneg r then - Int_part (- r) else Int_part r.

Definition int (a : float64) : result Z :=
  match a with
  | Fin r => ret (trunc r)
  | Inf _ => raise OverflowError
  | NaN => raise (ValueError "cannot convert float NaN to integer")
  end.

(** Rounding to double precision: [round fl x] is the [float64] that the
    real [x] is rounded to.  The routine is the machine's; it is taken by
    what IEEE 754 guarantees of it. *)
Record Float64 : Type := mkFloat64 {
  round : R -> float64
}.

(** The order of [float64] values; NaN compares with nothing. *)
Definition fle (a b : float64) : Prop :=
  match a, b with
  | NaN, _ | _, NaN => False
  | Inf true, _ => True
  | _, Inf false => True
  | Fin x, Fin y => (x <= y)%R
  | _, _ => False
  end.

(** What rounding to nearest guarantees: it keeps the order, it leaves
    the integers up to [2^53] in magnitude as they are, and from [2^1024]
    on in magnitude the result is an infinity. *)
Definition float64_correct (fl : Float64) : Prop :=
  (forall x y, (x <= y)%R -> fle (round fl x) (round fl y)) /\
  (forall z, Z.abs z <= 2 ^ 53 -> round fl (IZR z) = Fin (IZR z)) /\
  (forall x, (2 ^ 1024 <= Rabs x)%R -> round fl x = Inf (Rneg x)).

(** An [int] operand of a float operation is converted to [float64]
    first: correctly rounded, and [OverflowError] if it is too large. *)
Definition float_of_int (fl : Float64) (z : Z) : result float64 :=
  match round fl (IZR z) with
  | Inf _ => raise OverflowError
  | v => ret v
  end.

(** The product of two [float64] in double precision: the exact product
    of finite values, rounded; it overflows to an infinity and raises
    nothing. *)
Definition fmul64 (fl : Float64) (a b : float64) : float64 :=
  match a, b with
  | Fin x, Fin y => round fl (x * y)
  | _, _ => fmul a b
  end.

(** [np.sum] over a one-dimensional array. *)
Definition sum (x : list float64) : float64 := fold_left fadd x (Fin 0).

(** [np.mean]: the sum over the count; NaN on an empty array. *)
Definition mean (x : list float64) : float64 :=
  fdiv (sum x) (Fin (INR (length x))).

(** [np.std] with its default [ddof=0]:
    [sqrt(mean(abs(x - x.mean())**2))]. *)
Definition std (x : list float64) : float64 :=
  let m := mean x in
  fsqrt (mean (map (fun v => let d := fabs (fsub v m) in fmul d d) x)).

(** [np.expand_dims(x, 1)] on an array whose leading axis is the list. *)
Definition expand_dims {A : Type} (x : list A) : list (list A) :=
  map (fun v => [v]) x.

(** [np.column_stack] of one-dimensional arrays of one length: row [r] of
    the result holds element [r] of every column.  An empty list of
    arrays raises. *)
Definition column_stack (cols : list (list float64))
  : result (list (list float64)) :=
  match cols with
  | [] => raise (ValueError "need at least one array to concatenate")
  | c :: _ =>
      ret (map (fun r => map (fun col => nth r col NaN) cols)
               (seq 0 (length c)))
  end.

(** [np.empty_like(a)] for a two-dimensional [a]: the shape of [a] with
    whatever the memory holds, given here by [uninit]. *)
Definition empty_like {A : Type} (uninit : nat -> nat -> float64)
  (a : list (list A)) : list (list float64) :=
  map (fun i => map (fun j => uninit i j) (seq 0 (length (nth i a []))))
      (seq 0 (length a)).

End Np.

Export Np.

(** ** pandas *)

Module Pd.

(** A [Timestamp] or a [Timedelta]: nanoseconds, [None] for NaT. *)
Definition nanos : Type := option Z.

(** [a - b] on timestamps (or timedeltas). *)
Definition ts_sub (a b : nanos) : nanos :=
  match a, b with
  | Some x, Some y => Some (x - y)
  | _, _ => None
  end.

(** [Timedelta / Timedelta]: a float. *)
Definition td_div (a b : nanos) : float64 :=
  match a, b with
  | Some x, Some y => fdiv (of_int x) (of_int y)
  | _, _ => NaN
  end.

(** [Timedelta.total_seconds()] *)
Definition total_seconds (a : nanos) : float64 :=
  match a with
  | Some x => Fin (IZR x / 1000000000)
  | None => NaN
  end.

(** The order [sort_values] puts timestamps in: ascending, NaT last. *)
Definition key_leb (a b : nanos) : bool :=
  match a, b with
  | Some x, Some y => x <=? y
  | _, None => true
  | None, Some _ => false
  end.

(** An element of a column of dtype [object]. *)
Inductive pyobj : Type :=
| PyNone
| PyStr (s : string)
| PyInt (z : Z)
| PyFloat (f : float64).

(** A column with its dtype: [int64], [float64], [datetime64[ns]] (with
    the column's timezone, if any) or [object]. *)
Inductive column : Type :=
| ColInt (l : list Z)
| ColFloat (l : list float64)
| ColDatetime (tz : option string) (l : list nanos)
| ColObject (l : list pyobj).

Record DataFrame : Type := mkDataFrame {
  index : list Z;
  index_name : option string;
  columns : list (string * column)
}.

(** What pandas does on single elements and its sorting routine are not
    part of the repository; the model takes them as given.
    - [numeric_of_obj o]: [pd.to_numeric] on one object ([None] when it
      raises);
    - [datetime_of_obj o]: [pd.to_datetime] on one object ([None] when it
      raises), as a timezone and a timestamp;
    - [argsort ks]: the positions of [ks] in sorted order. *)
Record Library : Type := mkLibrary {
  numeric_of_obj : pyobj -> option float64;
  datetime_of_obj : pyobj -> option (option string * nanos);
  argsort : list nanos -> list nat
}.

(** What a sorting routine guarantees: [argsort ks] is a rearrangement of
    the positions of [ks] and reads [ks] in ascending order.  Nothing is
    said about the order of equal keys ([kind='quicksort']). *)
Definition argsort_correct (f : list nanos -> list nat) : Prop :=
  forall ks,
    Permutation (f ks) (seq 0 (length ks)) /\
    Sorted (fun a b => key_leb a b = true) (map (fun i => nth i ks None) (f ks)).

(** Sorting routines to run the model on: insertion from the right, where
    [before k k'] decides whether the key [k] goes in front of [k'].  With
    [key_leb] equal keys stay in their original order; with the strict
    order they come out reversed.  Both are sorting routines. *)
Fixpoint insert_key (before : nanos -> nanos -> bool) (k : nanos) (i : nat)
  (l : list (nanos * nat)) : list (nanos * nat) :=
  match l with
  | [] => [(k, i)]
  | (k', i') :: l' =>
      if before k k' then (k, i) :: l else (k', i') :: insert_key before k i l'
  end.

(** What [before] must be for insertion to sort: it only puts a key in
    front of a key that is not less, and only behind one that is not
    greater. *)
Definition respects_order (before : nanos -> nanos -> bool) : Prop :=
  forall k k',
    (before k k' = true -> key_leb k k' = true) /\
    (before k k' = false -> key_leb k' k = true).

Definition insertion_argsort_by (before : nanos -> nanos -> bool)
  (ks : list nanos) : list nat :=
  map snd
    (fold_right (fun p acc => insert_key before (fst p) (snd p) acc) []
       (combine ks (seq 0 (length ks)))).

Definition insertion_argsort : list nanos -> list nat :=
  insertion_argsort_by key_leb.

Definition reversing_argsort : list nanos -> list nat :=
  insertion_argsort_by (fun k k' => negb (key_leb k' k)).

Definition col_length (c : column) : nat :=
  match c with
  | ColInt l => length l
  | ColFloat l => length l
  | ColDatetime _ l => length l
  | ColObject l => length l
  end.

(** Every column is as long as the index. *)
Definition wf (df : DataFrame) : Prop :=
  Forall (fun nc => col_length (snd nc) = length (index df)) (columns df).

(** [len(df)] *)
Definition len (df : DataFrame) : Z := Z.of_nat (length (index df)).

(** [name in df] *)
Definition contains (df : DataFrame) (name : string) : bool :=
  match od_get (columns df) name with
  | Some _ => true
  | None => false
  end.

(** [df[name]], [df.loc[:, name]] *)
Definition getitem (df : DataFrame) (name : string) : result column :=
  match od_get (columns df) name with
  | Some c => ret c
  | None => raise (KeyError name)
  end.

(** [df[name] = c], [df.loc[:, name] = c]: the column is replaced, dtype
    included, or appended. *)
Definition setitem (df : DataFrame) (name : string) (c : column) : DataFrame :=
  mkDataFrame (index df) (index_name df) (od_set (columns df) name c).

Definition obj_isnull (o : pyobj) : bool :=
  match o with
  | PyNone => true
  | PyFloat f => isnan f
  | _ => false
  end.

Definition is_none {A : Type} (o : option A) : bool :=
  match o with
  | None => true
  | Some _ => false
  end.

(** [Series.isnull()] *)
Definition isnull (c : column) : list bool :=
  match c with
  | ColInt l => map (fun _ => false) l
  | ColFloat l => map isnan l
  | ColDatetime _ l => map is_none l
  | ColObject l => map obj_isnull l
  end.

(** [Series.notnull()] *)
Definition notnull (c : column) : list bool := map negb (isnull c).

(** [.any()] *)
Definition any (m : list bool) : bool := existsb (fun b => b) m.

(** [np.isinf(Series.values)] *)
Definition col_isinf (c : column) : list bool :=
  match c with
  | ColInt l => map (fun _ => false) l
  | ColFloat l => map isinf l
  | ColDatetime _ l => map (fun _ => false) l
  | ColObject l =>
      map (fun o => match o with PyFloat f => isinf f | _ => false end) l
  end.

(** [x[mask]] for a boolean mask. *)
Definition filter_mask {A : Type} (x : list A) (mask : list bool) : list A :=
  map fst (filter snd (combine x mask)).

Definition col_map (f : forall A : Type, list A -> list A) (c : column)
  : column :=
  match c with
  | ColInt l => ColInt (f _ l)
  | ColFloat l => ColFloat (f _ l)
  | ColDatetime tz l => ColDatetime tz (f _ l)
  | ColObject l => ColObject (f _ l)
  end.

(** [df[mask]]: the rows where the mask holds, labels kept. *)
Definition mask_rows (df : DataFrame) (mask : list bool) : DataFrame :=
  mkDataFrame (filter_mask (index df) mask) (index_name df)
    (map (fun nc => (fst nc, col_map (fun A l => filter_mask l mask) (snd nc)))
       (columns df)).

(** [Series.values] as a float array. *)
Definition float_values (c : column) : result (list float64) :=
  match c with
  | ColFloat l => ret l
  | ColInt l => ret (map of_int l)
  | ColDatetime _ _ => raise (Unsupported "float values of a datetime column")
  | ColObject _ => raise (Unsupported "float values of an object column")
  end.

(** [Series.astype(str)] on an [int64] column. *)
Definition str_of_int (z : Z) : string := NilZero.string_of_int (Z.to_int z).

Definition astype_str (l : list Z) : column :=
  ColObject (map (fun z => PyStr (str_of_int z)) l).

(** All of [l] converted by [f], or nothing if one element fails. *)
Fixpoint traverse {A B : Type} (f : A -> option B) (l : list A)
  : option (list B) :=
  match l with
  | [] => Some []
  | a :: l' =>
      match f a, traverse f l' with
      | Some b, Some bs => Some (b :: bs)
      | _, _ => None
      end
  end.

Definition iNaT : Z := - 2 ^ 63.

(** [pd.to_numeric]: numeric columns come back as they are, a datetime
    column as its nanosecond counts, an [object] column element by
    element (its integers are kept by their float value). *)
Definition to_numeric (lib : Library) (c : column) : result column :=
  match c with
  | ColInt _ | ColFloat _ => ret c
  | ColDatetime _ l =>
      ret (ColInt (map (fun o => match o with Some z => z | None => iNaT end) l))
  | ColObject l =>
      match traverse (numeric_of_obj lib) l with
      | Some fs => ret (ColFloat fs)
      | None => raise (ValueError "Unable to parse string")
      end
  end.

Definition tz_eqb (a b : option string) : bool :=
  match a, b with
  | None, None => true
  | Some x, Some y => String.eqb x y
  | _, _ => false
  end.

(** The timezone of a converted column: that of its timestamps, which
    must agree; NaT carries none. *)
Definition common_tz (l : list (option string * nanos))
  : result (option string) :=
  match map fst (filter (fun p => negb (is_none (snd p))) l) with
  | [] => ret None
  | z :: zs =>
      if forallb (tz_eqb z) zs then ret z
      else raise (ValueError "mixed timezones")
  end.

Definition datetime_of_objects (lib : Library) (l : list pyobj)
  : result column :=
  match traverse (datetime_of_obj lib) l with
  | Some ps => tz <- common_tz ps ;; ret (ColDatetime tz (map snd ps))
  | None => raise (ValueError "Unknown string format")
  end.

(** [pd.to_datetime]: a datetime column comes back as it is, integers are
    nanoseconds since the epoch, anything else is converted element by
    element. *)
Definition to_datetime (lib : Library) (c : column) : result column :=
  match c with
  | ColDatetime _ _ => ret c
  | ColInt l => ret (ColDatetime None (map Some l))
  | ColFloat l => datetime_of_objects lib (map PyFloat l)
  | ColObject l => datetime_of_objects lib l
  end.

(** [Series.dt.tz] *)
Definition dt_tz (c : column) : result (option string) :=
  match c with
  | ColDatetime tz _ => ret tz
  | _ => raise (AttributeError "Can only use .dt accessor with datetimelike values")
  end.

(** [x[order]]: the elements of [x] at the positions [order]. *)
Definition take {A : Type} (d : A) (x : list A) (order : list nat) : list A :=
  map (fun i => nth i x d) order.

Definition col_take (c : column) (order : list nat) : column :=
  match c with
  | ColInt l => ColInt (take 0 l order)
  | ColFloat l => ColFloat (take NaN l order)
  | ColDatetime tz l => ColDatetime tz (take None l order)
  | ColObject l => ColObject (take PyNone l order)
  end.

(** [df.sort_values(col)] for a datetime (or integer) column [col]: a new
    table whose rows, labels included, follow the sorted order of [col]. *)
Definition sort_values (lib : Library) (df : DataFrame) (col : string)
  : result DataFrame :=
  c <- getitem df col ;;
  keys <- match c with
          | ColDatetime _ l => ret l
          | ColInt l => ret (map Some l)
          | _ => raise (Unsupported "sort_values on a float or object column")
          end ;;
  let order := argsort lib keys in
  ret (mkDataFrame (take 0 (index df) order) (index_name df)
         (map (fun nc => (fst nc, col_take (snd nc) order)) (columns df))).

(** [df.reset_index(drop=True)]: a new table labelled [0 .. len-1]. *)
Definition reset_index (df : DataFrame) : DataFrame :=
  mkDataFrame (range (len df)) None (columns df).

(** [df.iloc[:k]] *)
Definition iloc_to (df : DataFrame) (k : Z) : DataFrame :=
  mkDataFrame (slice_to (index df) k) (index_name df)
    (map (fun nc => (fst nc, col_map (fun A l => slice_to l k) (snd nc)))
       (columns df)).

(** [df.iloc[k:]] *)
Definition iloc_from (df : DataFrame) (k : Z) : DataFrame :=
  mkDataFrame (slice_from (index df) k) (index_name df)
    (map (fun nc => (fst nc, col_map (fun A l => slice_from l k) (snd nc)))
       (columns df)).

(** [Series.min()] and [Series.max()] of a datetime column: NaT is
    skipped; NaT if nothing is left. *)
Definition ts_min (l : list nanos) : nanos :=
  fold_left (fun acc o =>
               match acc, o with
               | Some a, Some x => Some (Z.min a x)
               | None, _ => o
               | _, None => acc
               end) l None.

Definition ts_max (l : list nanos) : nanos :=
  fold_left (fun acc o =>
               match acc, o with
               | Some a, Some x => Some (Z.max a x)
               | None, _ => o
               | _, None => acc
               end) l None.

Definition datetimes (c : column) : result (list nanos) :=
  match c with
  | ColDatetime _ l => ret l
  | _ => raise (Unsupported "timestamp arithmetic on a column that is not datetime64")
  end.

(** The timestamps of a column that a timestamp without timezone is
    subtracted from: a column with a timezone raises. *)
Definition naive_datetimes (c : column) : result (list nanos) :=
  match c with
  | ColDatetime None l => ret l
  | ColDatetime (Some _) _ =>
      raise (TypeError "Cannot subtract tz-naive and tz-aware datetime-like objects")
  | _ => raise (Unsupported "timestamp arithmetic on a column that is not datetime64")
  end.

(** The dtypes [pd.to_numeric] returns. *)
Definition is_numeric (c : column) : bool :=
  match c with
  | ColInt _ | ColFloat _ => true
  | _ => false
  end.

End Pd.

Export Pd.

(** ** Code that updates the table it is given

    [check_dataframe] assigns to columns of its argument.  The table
    object the caller passed is the state of a small state-and-exception
    monad: a computation maps the object's content to its content
    afterwards and to a value or a raised exception. *)

Module Mut.

Definition Mut (A : Type) : Type := DataFrame -> DataFrame * result A.

Definition mret {A : Type} (a : A) : Mut A := fun s => (s, inr a).

Definition mraise {A : Type} (e : exn) : Mut A := fun s => (s, inl e).

Definition mbind {A B : Type} (c : Mut A) (k : A -> Mut B) : Mut B :=
  fun s =>
    match c s with
    | (s', inl e) => (s', inl e)
    | (s', inr a) => k a s'
    end.

(** A computation that cannot touch the object. *)
Definition lift {A : Type} (r : result A) : Mut A := fun s => (s, r).

(** The object's present content. *)
Definition this : Mut DataFrame := fun s => (s, inr s).

(** [df.loc[:, name] = c] *)
Definition assign (name : string) (c : column) : Mut unit :=
  fun s => (setitem s name c, inr tt).

(** [df.index.name = n] *)
Definition set_index_name (n : option string) : Mut unit :=
  fun s => (mkDataFrame (index s) n (columns s), inr tt).

(** [if c: body] *)
Definition when (c : bool) (body : Mut unit) : Mut unit :=
  if c then body else mret tt.

End Mut.

Export Mut.

Declare Scope mut_scope.
Delimit Scope mut_scope with mut.
Notation "x <- c ;; k" := (mbind c (fun x => k))
  (at level 61, c at next level, right associativity) : mut_scope.
Notation "c ;;; k" := (mbind c (fun _ => k))
  (at level 61, right associativity) : mut_scope.

(** ** [neuralprophet/df_utils.py] *)

Module DfUtils.

(** The [AttrDict] of scaling values: [t_start] and [t_scale] are always
    set, [y_shift] and [y_scale] only for a table with a column [y]. *)
Record data_params : Type := mkParams {
  t_start : nanos;
  t_scale : nanos;
  y_shift : option float64;
  y_scale : option float64
}.

(** Reading an attribute of the [AttrDict]. *)
Definition attr {A : Type} (name : string) (v : option A) : result A :=
  match v with
  | Some a => ret a
  | None => raise (AttributeError name)
  end.

(** The two branches of [init_data_params] differ by [.iloc[:split_idx]]
    on each column read; [rows] is that restriction (the identity in the
    default branch). *)
Definition scale_params (df : DataFrame) (normalize_y : bool)
  (rows : forall A : Type, list A -> list A) : result data_params :=
  ds <- (c <- getitem df "ds" ;; datetimes c) ;;
  let t_start := ts_min (rows _ ds) in
  let t_scale := ts_sub (ts_max (rows _ ds)) t_start in
  if contains df "y" then
    y_shift <- (if normalize_y
                then c <- getitem df "y" ;; v <- float_values c ;;
                     ret (mean (rows _ v))
                else ret (Fin 0)) ;;
    y_scale <- (if normalize_y
                then c <- getitem df "y" ;; v <- float_values c ;;
                     ret (std (rows _ v))
                else ret (Fin 1)) ;;
    ret (mkParams t_start t_scale (Some y_shift) (Some y_scale))
  else ret (mkParams t_start t_scale None None).

Definition init_data_params (df : DataFrame) (normalize_y : bool)
  (split_idx : option Z) : result data_params :=
  match split_idx with
  | None => scale_params df normalize_y (fun A l => l)
  | Some k => scale_params df normalize_y (fun A l => slice_to l k)
  end.

(** [normalize]: adds the columns [t] and, for a table with [y],
    [y_scaled] to the table it is given, and returns that table. *)
Definition normalize (df : DataFrame) (p : data_params) : result DataFrame :=
  ds <- (c <- getitem df "ds" ;; datetimes c) ;;
  let df := setitem df "t"
              (ColFloat (map (fun d => td_div (ts_sub d (t_start p)) (t_scale p)) ds)) in
  if contains df "y" then
    c <- getitem df "y" ;;
    shift <- attr "y_shift" (y_shift p) ;;
    y <- float_values c ;;
    scale <- attr "y_scale" (y_scale p) ;;
    ret (setitem df "y_scaled"
           (ColFloat (map (fun v => fdiv (fsub v shift) scale) y)))
  else ret df.

Definition is_int64 (c : column) : bool :=
  match c with
  | ColInt _ => true
  | _ => false
  end.

Definition int64_values (c : column) : list Z :=
  match c with
  | ColInt l => l
  | _ => []
  end.

(** [check_dataframe]: the checks and coercions, run on the caller's
    table, then a sorted and re-indexed table, which is a new object. *)
Definition check_dataframe (lib : Library) : Mut DataFrame :=
  (df <- this ;;
   when (len df =? 0) (mraise (ValueError "Dataframe has no rows.")) ;;;
   when (negb (contains df "ds") || negb (contains df "y"))
     (mraise (ValueError "Dataframe must have columns ds and y with the dates and values respectively.")) ;;;
   (* check y column: soft *)
   y <- lift (getitem df "y") ;;
   let history := mask_rows df (notnull y) in
   when (len history <? 2)
     (mraise (ValueError "Dataframe has less than 2 non-NaN rows.")) ;;;
   (* check y column: hard *)
   when (any (isnull y))
     (mraise (ValueError "Dataframe contains NaN values in y.")) ;;;
   y <- lift (to_numeric lib y) ;;
   assign "y" y ;;;
   when (any (col_isinf y)) (mraise (ValueError "Found infinity in column y.")) ;;;
   (* check ds column *)
   ds <- lift (getitem df "ds") ;;
   when (any (isnull ds)) (mraise (ValueError "Found NaN in column ds.")) ;;;
   when (is_int64 ds) (assign "ds" (astype_str (int64_values ds))) ;;;
   df <- this ;;
   ds <- lift (c <- getitem df "ds" ;; to_datetime lib c)%result ;;
   assign "ds" ds ;;;
   tz <- lift (dt_tz ds) ;;
   when (negb (is_none tz))
     (mraise (ValueError "Column ds has timezone specified, which is not supported. Remove timezone.")) ;;;
   when (any (isnull ds)) (mraise (ValueError "Found NaN in column ds.")) ;;;
   df <- this ;;
   when (match index_name df with
         | Some n => String.eqb n "ds"
         | None => false
         end)
     (set_index_name None) ;;;
   df <- this ;;
   df <- lift (sort_values lib df "ds") ;;
   let df := reset_index df in
   mret df)%mut.

(** [split_df]; [df.copy(deep=True)] is the table's content itself.  In
    [n_samples * valid_p] the count is an [int] and the fraction a float:
    the count is converted, the product is taken in double precision and
    [int()] truncates it. *)
Definition split_df (fl : Float64) (df : DataFrame) (n_lags n_forecasts : Z)
  (valid_p : float64) (inputs_overbleed : bool)
  : result (DataFrame * DataFrame) :=
  let n_samples := len df - n_lags + 1 - n_forecasts in
  k <- (x <- float_of_int fl n_samples ;; int (fmul64 fl x valid_p)) ;;
  let n_train := n_samples - k in
  let split_idx_train := n_train + n_lags in
  let split_idx_val :=
    if inputs_overbleed then split_idx_train - n_lags else split_idx_train in
  let df_train := reset_index (iloc_to df split_idx_train) in
  let df_val := reset_index (iloc_from df split_idx_val) in
  ret (df_train, df_val).

End DfUtils.

Export DfUtils.

(** ** [neuralprophet/time_dataset.py] *)

Module TimeDataset.

(** One entry of [season_config.periods]: the keys the code reads. *)
Record period_cfg : Type := mkPeriod {
  period : float64;
  resolution : Z
}.

Record season_config : Type := mkSeason {
  periods : list (string * period_cfg);
  type : string
}.

(** [datetime(1970, 1, 1)] *)
Definition epoch : nanos := Some 0.

(** [fourier_series]: the columns are built for [i] in
    [range(series_order)] and, within each [i], for [sin] then [cos]. *)
Definition fourier_series (dates : column) (period : float64)
  (series_order : Z) : result (list (list float64)) :=
  ds <- naive_datetimes dates ;;
  (* convert to days since epoch *)
  let t := map (fun d => fdiv (total_seconds (ts_sub d epoch))
                           (fmul (of_int 3600) (Fin 24))) ds in
  let features :=
    flat_map
      (fun i =>
         map (fun fn =>
                map (fun tv =>
                       fn (fdiv (fmul (fmul (fmul (Fin 2) (of_int (i + 1))) (Fin PI)) tv)
                             period)) t)
           [fsin; fcos])
      (range series_order) in
  column_stack features.

(** The loop of [seasonal_features_from_dates] over
    [season_config.periods.items()]. *)
Fixpoint seasonal_features_loop (dates : column) (season_type : string)
  (items : list (string * period_cfg))
  (seasonalities : list (string * list (list float64)))
  : result (list (string * list (list float64))) :=
  match items with
  | [] => ret seasonalities
  | (name, p) :: rest =>
      if resolution p >? 0 then
        features <- (if String.eqb season_type "fourier"
                     then fourier_series dates (period p) (resolution p)
                     else raise NotImplementedError) ;;
        seasonal_features_loop dates season_type rest
          (od_set seasonalities name features)
      else seasonal_features_loop dates season_type rest seasonalities
  end.

(** [seasonal_features_from_dates]; its assertion that [dates] is
    one-dimensional holds of every column. *)
Definition seasonal_features_from_dates (dates : column)
  (cfg : season_config) : result (list (string * list (list float64))) :=
  seasonal_features_loop dates (type cfg) (periods cfg) [].

(** The [OrderedDict] of model inputs: [time] is always set, [lags] and
    [seasonalities] only when the code sets them. *)
Record inputs : Type := mkInputs {
  time : list (list float64);
  lags : option (list (list float64));
  seasonalities : option (list (string * list (list (list float64))))
}.

(** The local function of [tabularize_univariate_datetime], with the
    variables it closes over. *)
Definition _stride_time_features_for_forecasts {A : Type}
  (n_lags n_forecasts n_samples : Z) (x : list A) : list (list A) :=
  map (fun i => slice x (n_lags + i) (n_lags + i + n_forecasts))
    (range n_samples).

(** [tabularize_univariate_datetime]; [uninit] is what [np.empty_like]
    finds in memory. *)
Definition tabularize_univariate_datetime (uninit : nat -> nat -> float64)
  (df : DataFrame) (season_config : option season_config)
  (n_lags n_forecasts : Z) (predict_mode : bool)
  : result (inputs * list (list float64)) :=
  let n_samples := len df - n_lags + 1 - n_forecasts in
  series <- (c <- getitem df "y_scaled" ;; float_values c) ;;
  (* time is the time at each forecast step *)
  t <- (c <- getitem df "t" ;; float_values c) ;;
  time <- (if n_lags =? 0
           then assert (n_forecasts =? 1) ;;; ret (expand_dims t)
           else ret (_stride_time_features_for_forecasts
                       n_lags n_forecasts n_samples t)) ;;
  let lags :=
    if n_lags >? 0
    then Some (map (fun i => slice series i (i + n_lags)) (range n_samples))
    else None in
  seasonalities <-
    match season_config with
    | Some cfg =>
        ds <- getitem df "ds" ;;
        seasonalities <- seasonal_features_from_dates ds cfg ;;
        ret (Some (map (fun nf =>
                          (fst nf,
                           if n_lags =? 0 then expand_dims (snd nf)
                           else _stride_time_features_for_forecasts
                                  n_lags n_forecasts n_samples (snd nf)))
                     seasonalities))
    | None => ret None
    end ;;
  let targets :=
    if predict_mode then empty_like uninit time
    else map (fun i => slice series (i + n_lags) (i + n_lags + n_forecasts))
           (range n_samples) in
  ret (mkInputs time lags seasonalities, targets).

(** What [fourier_series] passes to [sin] and [cos] for [i] in
    [range(series_order)] at the timestamp [d]:
    [2.0 * (i + 1) * np.pi * t / period]. *)
Definition code_angle (period : float64) (i : Z) (d : nanos) : float64 :=
  fdiv (fmul (fmul (fmul (Fin 2) (of_int (i + 1))) (Fin PI))
          (fdiv (total_seconds (ts_sub d epoch)) (fmul (of_int 3600) (Fin 24))))
    period.

End TimeDataset.

Export TimeDataset.

(** ** The specification's vocabulary *)

Module Spec.

(** The run of [x] at positions [[a, a + n)]. *)
Definition window {A : Type} (x : list A) (a n : nat) : list A :=
  firstn n (skipn a x).

(** [W] holds [count] windows of [x], each of [width] elements: window
    [i] is the run of [x] at positions [[off + i, off + i + width)]. *)
Definition strided {A : Type} (x : list A) (off width count : nat)
  (W : list (list A)) : Prop :=
  length W = count /\
  forall i, (i < count)%nat ->
    nth i W [] = window x (off + i) width /\ length (nth i W []) = width.

(** The seasonality features the tabularizer starts from: none without a
    configuration, else what [seasonal_features_from_dates] returns on the
    column [ds]. *)
Definition season_features (df : DataFrame) (sc : option season_config)
  (feats : list (string * list (list float64))) : Prop :=
  match sc with
  | None => feats = []
  | Some cfg =>
      exists ds, getitem df "ds" = ret ds /\
                 seasonal_features_from_dates ds cfg = ret feats
  end.

(** The tabularized seasonalities [S] hold, under each name of [feats],
    the windows of that feature matrix. *)
Definition season_strided (sc : option season_config)
  (feats : list (string * list (list float64))) (off width count : nat)
  (S : option (list (string * list (list (list float64))))) : Prop :=
  match sc with
  | None => S = None
  | Some _ =>
      exists W, S = Some W /\
        Forall2 (fun f w => fst w = fst f /\
                            strided (snd f) off width count (snd w)) feats W
  end.

(** Timestamps in ascending order, and in strictly ascending order. *)
Definition nondecreasing (l : list Z) : Prop := Sorted Z.le l.

Definition strictly_increasing (l : list Z) : Prop := Sorted Z.lt l.

(** The value column of [df] holds no missing value. *)
Definition no_missing_value (df : DataFrame) : Prop :=
  forall y, getitem df "y" = ret y -> any (isnull y) = false.

(** A validated table, with its timestamps [ds] and its values [ys]:
    timestamps in ascending order, none missing, without timezone; values
    finite, none missing; at least two rows. *)
Definition validated (df : DataFrame) (ds : list Z) (ys : list R) : Prop :=
  wf df /\
  getitem df "ds" = ret (ColDatetime None (map Some ds)) /\
  (exists y, getitem df "y" = ret y /\ float_values y = ret (map Fin ys)) /\
  nondecreasing ds /\
  (2 <= length ds)%nat.

(** Elapsed days since 1970-01-01 of a timestamp, given by its count of
    nanoseconds. *)
Definition t_days (ns : Z) : R := (IZR ns / 1000000000 / (3600 * 24))%R.

(** The angle [2 pi k t_days / period_length] of harmonic [k]. *)
Definition harmonic_angle (k : Z) (ns : Z) (period_length : R) : R :=
  (2 * PI * IZR k * t_days ns / period_length)%R.

(** The sum of a list of reals. *)
Definition Rsum (l : list R) : R := fold_right Rplus 0%R l.

End Spec.

Export Spec.

(** ** Tables and a library to run the model on *)

Module Samples.

(** One day, in nanoseconds. *)
Definition day : Z := 86400000000000.

(** A stand-in for pandas' conversions, defined on what the examples
    use: numbers convert to themselves, the string nan is read as NaN and
    no other string as a number, and three dates are read in their ISO and
    compact spellings. *)
Definition sample_numeric (o : pyobj) : option float64 :=
  match o with
  | PyNone => Some NaN
  | PyStr s => if String.eqb s "nan" then Some NaN else None
  | PyInt z => Some (of_int z)
  | PyFloat f => Some f
  end.

Definition sample_datetime (o : pyobj) : option (option string * nanos) :=
  match o with
  | PyNone => Some (None, None)
  | PyStr s =>
      if (String.eqb s "1970-01-01" || String.eqb s "19700101")%bool
      then Some (None, Some 0)
      else if (String.eqb s "1970-01-02" || String.eqb s "19700102")%bool
      then Some (None, Some day)
      else if (String.eqb s "1970-01-03" || String.eqb s "19700103")%bool
      then Some (None, Some (2 * day))
      else None
  | PyInt z => Some (None, Some z)
  | PyFloat _ => None
  end.

Definition sample_library : Library :=
  mkLibrary sample_numeric sample_datetime insertion_argsort.

(** The same conversions with the routine that reverses equal keys. *)
Definition reversing_library : Library :=
  mkLibrary sample_numeric sample_datetime reversing_argsort.

(** No memory content in particular. *)
Definition zeros (i j : nat) : float64 := Fin 0.

(** A normalized table of [n] rows: day [i] carries the value [i], and
    the normalized columns are those of [normalize] for the scale
    parameters [t_start = 0], [t_scale = n - 1] days, [y_shift = 0],
    [y_scale = 1]. *)
Definition normalized_table (n : nat) : DataFrame :=
  let rows := seq 0 n in
  mkDataFrame (map Z.of_nat rows) None
    [("ds", ColDatetime None (map (fun i => Some (Z.of_nat i * day)) rows));
     ("y", ColFloat (map (fun i => Fin (INR i)) rows));
     ("t", ColFloat (map (fun i => Fin (INR i / INR (n - 1))) rows));
     ("y_scaled", ColFloat (map (fun i => Fin (INR i)) rows))].

(** The same table before normalization, and without [y_scaled]. *)
Definition raw_table (n : nat) : DataFrame :=
  let rows := seq 0 n in
  mkDataFrame (map Z.of_nat rows) None
    [("ds", ColDatetime None (map (fun i => Some (Z.of_nat i * day)) rows));
     ("y", ColFloat (map (fun i => Fin (INR i)) rows))].

Definition future_table (n : nat) : DataFrame :=
  let rows := seq 0 n in
  mkDataFrame (map Z.of_nat rows) None
    [("ds", ColDatetime None (map (fun i => Some (Z.of_nat i * day)) rows));
     ("t", ColFloat (map (fun i => Fin (INR i / INR (n - 1))) rows))].

(** The first [n] days of 1970, at midnight. *)
Definition days (n : nat) : list Z := map (fun i => Z.of_nat i * day) (seq 0 n).

(** A raw table whose dates are integers, latest first. *)
Definition int_dates_table : DataFrame :=
  mkDataFrame [0; 1] None
    [("ds", ColInt [19700102; 19700101]); ("y", ColFloat [Fin 1; Fin 2])].

(** A raw table with one timestamp twice. *)
Definition ties_table : DataFrame :=
  mkDataFrame [0; 1] None
    [("ds", ColDatetime None [Some 0; Some 0]); ("y", ColFloat [Fin 1; Fin 2])].

(** A raw table whose values are objects, one of them the string nan. *)
Definition nan_string_table : DataFrame :=
  mkDataFrame [0; 1; 2] None
    [("ds", ColDatetime None [Some 0; Some day; Some (2 * day)]);
     ("y", ColObject [PyStr "nan"; PyInt 1; PyInt 2])].

(** A stand-in for the rounding to run the examples on: within the range
    of [float64] it returns the real itself.  The examples take a quarter
    of a small count, a product that double precision holds exactly. *)
Definition sample_round (x : R) : float64 :=
  if Rlt_dec (Rabs x) (2 ^ 1024) then Fin x else Inf (Rneg x).

Definition sample_float64 : Float64 := mkFloat64 sample_round.

(** Weekly seasonality of order 3. *)
Definition weekly : season_config :=
  mkSeason [("weekly", mkPeriod (Fin 7) 3)] "fourier".

End Samples.

Export Samples.

(** ** [neuralprophet/df_utils.py]: [make_future_df] *)

Module Future.

(** What [pd.date_range(start, periods, freq)] guarantees when it
    succeeds, for a frequency [freq] that moves forward in time:
    [periods] timestamps in strictly ascending order, none before
    [start].  The routine itself is pandas' and is taken as given. *)
Definition date_range_forward (f : Z -> Z -> string -> result (list Z))
  (freq : string) : Prop :=
  forall start periods l,
    f start periods freq = ret l ->
    length l = Z.to_nat periods /\
    strictly_increasing l /\
    Forall (fun d => start <= d) l.

(** [Series.sort_values()] on a datetime column. *)
Definition sort_series (lib : Library) (l : list nanos) : list nanos :=
  take None l (argsort lib l).

(** [make_future_df]: [check_dataframe] runs on a deep copy, so the
    caller's table is not the one it updates; what the copy becomes is
    dropped. *)
Definition make_future_df (lib : Library)
  (date_range : Z -> Z -> string -> result (list Z))
  (df : DataFrame) (periods : Z) (freq : string) : result DataFrame :=
  df <- snd (check_dataframe lib df) ;;
  history_dates <- (c <- getitem df "ds" ;; c <- to_datetime lib c ;;
                    l <- datetimes c ;; ret (sort_series lib l)) ;;
  (* Note: Identical to OG Prophet: *)
  match ts_max history_dates with
  | None => raise (ValueError "Neither start nor end can be NaT")
  | Some last_date =>
      future_dates <- date_range last_date (periods + 1) freq ;;
      (* Drop start if equals last_date *)
      let future_dates := filter (fun d => last_date <? d) future_dates in
      (* Return correct number of periods *)
      let future_dates := slice_to future_dates periods in
      let future_df :=
        mkDataFrame (range (Z.of_nat (length future_dates))) None
          [("ds", ColDatetime None (map Some future_dates))] in
      let future_df :=
        setitem future_df "y" (ColObject (map (fun _ => PyNone) future_dates)) in
      ret (reset_index future_df)
  end.

End Future.

Export Future.

(** ** [neuralprophet/time_dataset.py]: the class [TimeDataset] *)

Module Dataset.

(** Indexing a tensor past its first axis. *)
Inductive index_error : Type :=
| IndexError (index size : Z).

(** [data[index]] on a tensor whose first axis is the list: an index
    from [-size] to [size - 1], a negative one counting from the end. *)
Definition tensor_index {A : Type} (data : list A) (index : Z)
  : index_error + A :=
  let size := Z.of_nat (length data) in
  match nth_error data (Z.to_nat (if index <? 0 then index + size else index)) with
  | Some a =>
      if (index <? - size) || (size <=? index) then inl (IndexError index size)
      else inr a
  | None => inl (IndexError index size)
  end.

Definition ibind {A B : Type} (c : index_error + A) (k : A -> index_error + B)
  : index_error + B :=
  match c with
  | inl e => inl e
  | inr a => k a
  end.

(** The rows of [a] have one length.  [np.array] of rows that differ in
    length is an array of Python objects, not of numbers. *)
Definition rectangular {A : Type} (a : list (list A)) : bool :=
  match a with
  | [] => true
  | r :: rest => forallb (fun r' => (length r' =? length r)%nat) rest
  end.

(** [torch.from_numpy(data).type(torch.float)] on an array of two axes:
    every number is rounded to single precision, here by [float32]; an
    array of objects raises. *)
Definition from_numpy (float32 : float64 -> float64)
  (data : list (list float64)) : result (list (list float64)) :=
  if rectangular data then ret (map (map float32) data)
  else raise (TypeError "can't convert np.ndarray of type numpy.object_.").

(** The same on an array of three axes. *)
Definition from_numpy_3d (float32 : float64 -> float64)
  (data : list (list (list float64))) : result (list (list (list float64))) :=
  if rectangular data && rectangular (concat data)
  then ret (map (map (map float32)) data)
  else raise (TypeError "can't convert np.ndarray of type numpy.object_.").

(** The fields of the object. *)
Record TimeDataset : Type := mkTimeDataset {
  self_length : Z;
  self_inputs : inputs;
  self_targets : list (list float64)
}.

(** The inner loop of [init_after_tabularized] over the named
    seasonalities; the names of a dictionary's items are distinct, so
    each assignment adds an entry. *)
Fixpoint seasonalities_tensors (float32 : float64 -> float64)
  (items : list (string * list (list (list float64))))
  : result (list (string * list (list (list float64)))) :=
  match items with
  | [] => ret []
  | (name, period_features) :: rest =>
      x <- from_numpy_3d float32 period_features ;;
      xs <- seasonalities_tensors float32 rest ;;
      ret ((name, x) :: xs)
  end.

(** [init_after_tabularized]: the keys are visited in the order they
    were set, [time], [lags], [seasonalities], and the targets last. *)
Definition init_after_tabularized (float32 : float64 -> float64)
  (inputs : inputs) (targets : list (list float64)) : result TimeDataset :=
  let self_length := Z.of_nat (length (time inputs)) in
  time' <- from_numpy float32 (time inputs) ;;
  lags' <- match lags inputs with
           | Some data => x <- from_numpy float32 data ;; ret (Some x)
           | None => ret None
           end ;;
  seasonalities' <- match seasonalities inputs with
                    | Some d => x <- seasonalities_tensors float32 d ;; ret (Some x)
                    | None => ret None
                    end ;;
  targets' <- from_numpy float32 targets ;;
  ret (mkTimeDataset self_length (mkInputs time' lags' seasonalities') targets').

(** [TimeDataset(df, season_config, n_lags, n_forecasts, predict_mode)] *)
Definition __init__ (float32 : float64 -> float64)
  (uninit : nat -> nat -> float64) (df : DataFrame)
  (season_config : option season_config) (n_lags n_forecasts : Z)
  (predict_mode : bool) : result TimeDataset :=
  it <- tabularize_univariate_datetime uninit df season_config
          n_lags n_forecasts predict_mode ;;
  init_after_tabularized float32 (fst it) (snd it).

(** One sample: the cross-section of every input array. *)
Record sample : Type := mkSample {
  sample_time : list float64;
  sample_lags : option (list float64);
  sample_seasonalities : option (list (string * list (list float64)))
}.

(** The inner loop of [__getitem__] over the named seasonalities. *)
Fixpoint seasonalities_index
  (d : list (string * list (list (list float64)))) (index : Z)
  : index_error + list (string * list (list float64)) :=
  match d with
  | [] => inr []
  | (name, period_features) :: rest =>
      ibind (tensor_index period_features index) (fun x =>
      ibind (seasonalities_index rest index) (fun xs =>
      inr ((name, x) :: xs)))
  end.

(** [dataset[index]]: the keys are visited in the order they were set,
    [time], [lags], [seasonalities], and the targets last. *)
Definition __getitem__ (self : TimeDataset) (index : Z)
  : index_error + (sample * list float64) :=
  ibind (tensor_index (time (self_inputs self)) index) (fun t =>
  ibind (match lags (self_inputs self) with
         | Some data => ibind (tensor_index data index) (fun x => inr (Some x))
         | None => inr None
         end) (fun l =>
  ibind (match seasonalities (self_inputs self) with
         | Some d => ibind (seasonalities_index d index) (fun x => inr (Some x))
         | None => inr None
         end) (fun s =>
  ibind (tensor_index (self_targets self) index) (fun targets =>
  inr (mkSample t l s, targets))))).

(** [len(dataset)] *)
Definition __len__ (self : TimeDataset) : Z := self_length self.

End Dataset.

Export Dataset.

(** ** More to run the model on *)

Module MoreSamples.

(** A stand-in for [pd.date_range] on the daily and the hourly frequency. *)
Definition sample_date_range (start periods : Z) (freq : string)
  : result (list Z) :=
  if periods <? 0
  then raise (ValueError "Number of samples must be non-negative.")
  else if String.eqb freq "D"
  then ret (map (fun i => start + i * day) (range periods))
  else if String.eqb freq "H"
  then ret (map (fun i => start + i * (day / 24)) (range periods))
  else raise (ValueError "Invalid frequency").

End MoreSamples.

Export MoreSamples.

(** ** More vocabulary *)

Module MoreSpec.

(** The table [s] has the row labels of [df] and, under every name but
    [y] and [ds], the column [df] has. *)
Definition same_rows (df s : DataFrame) : Prop :=
  index s = index df /\
  forall name, name <> "y" -> name <> "ds" ->
               od_get (columns s) name = od_get (columns df) name.

(** A computation on the caller's table keeps [P]: whatever it returns
    or raises, [P] holds of the table afterwards if it held before. *)
Definition keeps {A : Type} (P : DataFrame -> Prop) (m : Mut A) : Prop :=
  forall s, P s -> P (fst (m s)).

(** The names of the periods the featurizer computes features for. *)
Definition active_names (items : list (string * period_cfg)) : list string :=
  map fst (filter (fun np => resolution (snd np) >? 0) items).

(** The first axis of every array of the dataset has [n] entries. *)
Definition first_axis (self : TimeDataset) (n : nat) : Prop :=
  length (time (self_inputs self)) = n /\
  (forall lg, lags (self_inputs self) = Some lg -> length lg = n) /\
  (forall S, seasonalities (self_inputs self) = Some S ->
             Forall (fun nw => length (snd nw) = n) S) /\
  length (self_targets self) = n.

End MoreSpec.

Export MoreSpec.

(** * Properties *)

Arguments fadd : simpl never.
Arguments fsub : simpl never.
Arguments fmul : simpl never.
Arguments fdiv : simpl never.
Arguments fsqrt : simpl never.
Arguments fsin : simpl never.
Arguments fcos : simpl never.
Arguments fourier_series : simpl never.
Arguments seasonal_features_from_dates : simpl never.

(** ** Ranges, slices and windows *)

Lemma range_length (n : Z) : length (range n) = Z.to_nat n.
Proof. unfold range. now rewrite length_map, length_seq. Qed.

Lemma range_nonpos (n : Z) : n <= 0 -> range n = [].
Proof.
  intros H. unfold range.
  replace (Z.to_nat n) with 0%nat by lia. reflexivity.
Qed.

Lemma nth_map_range {A : Type} (f : Z -> A) (n : Z) (i : nat) (d : A) :
  (i < Z.to_nat n)%nat -> nth i (map f (range n)) d = f (Z.of_nat i).
Proof.
  intros H. unfold range. rewrite map_map.
  rewrite (nth_indep _ d (f (Z.of_nat 0))) by (now rewrite length_map, length_seq).
  rewrite (map_nth (fun k => f (Z.of_nat k)) (seq 0 (Z.to_nat n)) 0%nat i).
  now rewrite seq_nth.
Qed.

Lemma slice_window {A : Type} (x : list A) (a b : Z) :
  0 <= a -> a <= b ->
  slice x a b = window x (Z.to_nat a) (Z.to_nat (b - a)).
Proof.
  intros Ha Hab. unfold slice, slice_bound, window.
  destruct (Z.ltb_spec a 0) as [?|_]; [lia|].
  destruct (Z.ltb_spec b 0) as [?|_]; [lia|].
  set (n := Z.of_nat (length x)).
  destruct (Z.le_gt_cases b n) as [Hb|Hb].
  - rewrite !Z.min_l by lia.
    f_equal. lia.
  - destruct (Z.le_gt_cases a n) as [Han|Han].
    + rewrite (Z.min_l a) by lia. rewrite (Z.min_r b) by lia.
      rewrite !firstn_all2; trivial; rewrite length_skipn; subst n; lia.
    + rewrite !Z.min_r by lia.
      replace (Z.to_nat n - Z.to_nat n)%nat with 0%nat by lia.
      rewrite (skipn_all2 x (n := Z.to_nat a)) by (subst n; lia).
      now rewrite firstn_nil.
Qed.

Lemma window_length {A : Type} (x : list A) (a n : nat) :
  (a + n <= length x)%nat -> length (window x a n) = n.
Proof.
  intros H. unfold window. rewrite length_firstn, length_skipn. lia.
Qed.

Lemma window_nth {A : Type} (x : list A) (a n j : nat) (d : A) :
  (j < n)%nat -> nth j (window x a n) d = nth (a + j) x d.
Proof.
  intros H. unfold window.
  rewrite nth_firstn. destruct (Nat.ltb_spec j n); [|lia].
  now rewrite nth_skipn.
Qed.

Lemma strided_slices {A : Type} (f : Z -> list A) (x : list A)
  (off width count : Z) :
  (forall i, 0 <= i -> f i = slice x (off + i) (off + i + width)) ->
  0 <= off -> 0 <= width ->
  (1 <= count -> off + count - 1 + width <= Z.of_nat (length x)) ->
  strided x (Z.to_nat off) (Z.to_nat width) (Z.to_nat count)
    (map f (range count)).
Proof.
  intros Hf Hoff Hw Hfit. split.
  - now rewrite length_map, range_length.
  - intros i Hi.
    rewrite nth_map_range by exact Hi.
    rewrite Hf by lia.
    rewrite slice_window by lia.
    replace (Z.to_nat (off + Z.of_nat i)) with (Z.to_nat off + i)%nat by lia.
    replace (off + Z.of_nat i + width - (off + Z.of_nat i)) with width by lia.
    split; [reflexivity|].
    apply window_length. lia.
Qed.

Lemma strided_empty {A : Type} (f : Z -> list A) (count : Z) :
  count < 1 -> map f (range count) = [].
Proof. intros H. now rewrite range_nonpos by lia. Qed.

(** ** Tables *)

Lemma wf_getitem (df : DataFrame) (name : string) (c : column) :
  wf df -> getitem df name = ret c -> col_length c = length (index df).
Proof.
  unfold wf, getitem. intros Hwf.
  induction (columns df) as [|[k v] cs IH]; simpl; [discriminate|].
  inversion Hwf as [|? ? Hv Hcs]; subst.
  destruct (String.eqb name k).
  - intros [= <-]. exact Hv.
  - auto.
Qed.

Lemma wf_float_length (df : DataFrame) (name : string) (l : list float64) :
  wf df -> getitem df name = ret (ColFloat l) ->
  Z.of_nat (length l) = len df.
Proof.
  intros Hwf Hget. unfold len.
  now rewrite <- (wf_getitem df name _ Hwf Hget).
Qed.

Lemma od_set_Forall {V : Type} (P : string * V -> Prop)
  (d : list (string * V)) (k : string) (v : V) :
  Forall P d -> P (k, v) -> Forall P (od_set d k v).
Proof.
  intros Hd Hkv. induction Hd as [|[k' v'] d' Hx Hd' IH]; simpl.
  - now constructor.
  - destruct (String.eqb k k'); constructor; auto.
Qed.

(** ** Seasonality features: the number of rows *)

Lemma column_stack_rows (c : list float64) (cols : list (list float64)) :
  column_stack (c :: cols) =
  ret (map (fun r => map (fun col => nth r col NaN) (c :: cols))
         (seq 0 (length c))).
Proof. reflexivity. Qed.

Lemma fourier_series_rows (dates : column) (p : float64) (order : Z)
  (M : list (list float64)) :
  fourier_series dates p order = ret M -> length M = col_length dates.
Proof.
  unfold fourier_series.
  destruct dates as [l|l|[tz|] l|l]; simpl; try discriminate.
  destruct (range order) as [|i rest]; simpl; [discriminate|].
  intros [= <-]. now rewrite length_map, length_seq, !length_map.
Qed.

Lemma seasonal_features_loop_rows (dates : column) (ty : string)
  (items : list (string * period_cfg))
  (acc feats : list (string * list (list float64))) :
  Forall (fun nf => length (snd nf) = col_length dates) acc ->
  seasonal_features_loop dates ty items acc = ret feats ->
  Forall (fun nf => length (snd nf) = col_length dates) feats.
Proof.
  revert acc. induction items as [|[name p] rest IH]; intros acc Hacc; simpl.
  - now intros [= <-].
  - destruct (resolution p >? 0); [|now apply IH].
    destruct (String.eqb ty "fourier"); simpl; [|discriminate].
    destruct (fourier_series dates (period p) (resolution p)) as [e|M] eqn:HM;
      simpl; [discriminate|].
    apply IH. apply od_set_Forall; trivial.
    simpl. now apply fourier_series_rows in HM.
Qed.

Lemma season_features_rows (df : DataFrame) (sc : option season_config)
  (feats : list (string * list (list float64))) :
  wf df -> season_features df sc feats ->
  Forall (fun nf => Z.of_nat (length (snd nf)) = len df) feats.
Proof.
  intros Hwf. destruct sc as [cfg|]; simpl.
  - intros (ds & Hds & Hfeats).
    apply seasonal_features_loop_rows in Hfeats; [|constructor].
    apply (wf_getitem _ _ _ Hwf) in Hds.
    unfold len. rewrite <- Hds.
    eapply Forall_impl; [|exact Hfeats]. simpl. intros nf ->. reflexivity.
  - intros ->. constructor.
Qed.

(** ** The tabularizer, evaluated *)

Lemma Zgtb_true (n : Z) : 0 < n -> (n >? 0) = true.
Proof. intros H. apply Z.gtb_lt. lia. Qed.

Lemma Zeqb_false_pos (n : Z) : 0 < n -> (n =? 0) = false.
Proof. intros H. apply Z.eqb_neq. lia. Qed.

(** With lags, the tabularizer raises nothing of its own: its result is
    made of the strided columns. *)
Lemma tabularize_lagged (uninit : nat -> nat -> float64) (df : DataFrame)
  (sc : option season_config) (feats : list (string * list (list float64)))
  (n_lags n_forecasts : Z) (predict_mode : bool) (series t : list float64) :
  getitem df "y_scaled" = ret (ColFloat series) ->
  getitem df "t" = ret (ColFloat t) ->
  season_features df sc feats ->
  0 < n_lags ->
  let n_samples := len df - n_lags + 1 - n_forecasts in
  let time := _stride_time_features_for_forecasts n_lags n_forecasts n_samples t in
  tabularize_univariate_datetime uninit df sc n_lags n_forecasts predict_mode =
  ret (mkInputs time
         (Some (map (fun i => slice series i (i + n_lags)) (range n_samples)))
         (match sc with
          | Some _ =>
              Some (map (fun nf =>
                           (fst nf,
                            _stride_time_features_for_forecasts
                              n_lags n_forecasts n_samples (snd nf))) feats)
          | None => None
          end),
       if predict_mode then empty_like uninit time
       else map (fun i => slice series (i + n_lags) (i + n_lags + n_forecasts))
              (range n_samples)).
Proof.
  intros Hy Ht Hs Hpos n_samples time.
  unfold tabularize_univariate_datetime.
  rewrite Hy, Ht. simpl.
  rewrite (Zeqb_false_pos n_lags Hpos), (Zgtb_true n_lags Hpos). simpl.
  destruct sc as [cfg|]; simpl in Hs |- *.
  - destruct Hs as (ds & Hds & Hfeats). rewrite Hds. simpl.
    rewrite Hfeats. reflexivity.
  - reflexivity.
Qed.

(** Without lags and for one forecast step, every row is a sample. *)
Lemma tabularize_unlagged (uninit : nat -> nat -> float64) (df : DataFrame)
  (sc : option season_config) (feats : list (string * list (list float64)))
  (predict_mode : bool) (series t : list float64) :
  getitem df "y_scaled" = ret (ColFloat series) ->
  getitem df "t" = ret (ColFloat t) ->
  season_features df sc feats ->
  tabularize_univariate_datetime uninit df sc 0 1 predict_mode =
  ret (mkInputs (expand_dims t) None
         (match sc with
          | Some _ => Some (map (fun nf => (fst nf, expand_dims (snd nf))) feats)
          | None => None
          end),
       if predict_mode then empty_like uninit (expand_dims t)
       else map (fun i => slice series (i + 0) (i + 0 + 1)) (range (len df - 0 + 1 - 1))).
Proof.
  intros Hy Ht Hs.
  unfold tabularize_univariate_datetime.
  rewrite Hy, Ht. simpl.
  destruct sc as [cfg|]; simpl in Hs |- *.
  - destruct Hs as (ds & Hds & Hfeats). rewrite Hds. simpl.
    rewrite Hfeats. reflexivity.
  - reflexivity.
Qed.

Lemma empty_like_length {A : Type} (uninit : nat -> nat -> float64)
  (a : list (list A)) : length (empty_like uninit a) = length a.
Proof. unfold empty_like. now rewrite length_map, length_seq. Qed.

Lemma empty_like_nth {A : Type} (uninit : nat -> nat -> float64)
  (a : list (list A)) (i : nat) :
  (i < length a)%nat ->
  nth i (empty_like uninit a) [] =
  map (fun j => uninit i j) (seq 0 (length (nth i a []))).
Proof.
  intros H. unfold empty_like.
  rewrite (nth_indep _ [] ((fun i => map (fun j => uninit i j)
                                       (seq 0 (length (nth i a [])))) 0%nat))
    by (now rewrite length_map, length_seq).
  rewrite (map_nth (fun i => map (fun j => uninit i j)
                               (seq 0 (length (nth i a []))))).
  now rewrite seq_nth.
Qed.

Lemma season_strided_map (sc : option season_config)
  (feats : list (string * list (list float64))) (n_lags n_forecasts count : Z) :
  0 <= n_lags -> 0 <= n_forecasts ->
  Forall (fun nf => 1 <= count ->
                    n_lags + count - 1 + n_forecasts <= Z.of_nat (length (snd nf)))
    feats ->
  season_strided sc feats (Z.to_nat n_lags) (Z.to_nat n_forecasts) (Z.to_nat count)
    (match sc with
     | Some _ =>
         Some (map (fun nf =>
                      (fst nf,
                       _stride_time_features_for_forecasts
                         n_lags n_forecasts count (snd nf))) feats)
     | None => None
     end).
Proof.
  intros Hl Hf Hfeats. destruct sc as [cfg|]; simpl; [|reflexivity].
  eexists. split; [reflexivity|].
  induction Hfeats as [|[name M] rest HM Hrest IH]; simpl; constructor; trivial.
  split; [reflexivity|]. simpl.
  apply strided_slices; trivial.
Qed.

(** C1.  On a normalized table with [n_lags > 0], [n_forecasts >= 1] and
    [n_samples = len(table) - n_lags + 1 - n_forecasts >= 1], the
    tabularizer returns [n_samples] samples: the time slice of sample [i]
    is the run of [t] at positions [[n_lags + i, n_lags + i + n_forecasts)],
    and so is each seasonality slice in its feature matrix; the lag vector
    is the run of [y_scaled] at [[i, i + n_lags)]; the target vector (when
    targets are built) is the run of [y_scaled] at
    [[i + n_lags, i + n_lags + n_forecasts)]; and every returned array has
    [n_samples] entries along its first axis. *)
Theorem tabularize_windows (uninit : nat -> nat -> float64) (df : DataFrame)
  (sc : option season_config) (feats : list (string * list (list float64)))
  (n_lags n_forecasts : Z) (predict_mode : bool) (series t : list float64) :
  wf df ->
  getitem df "y_scaled" = ret (ColFloat series) ->
  getitem df "t" = ret (ColFloat t) ->
  season_features df sc feats ->
  0 < n_lags -> 1 <= n_forecasts ->
  1 <= len df - n_lags + 1 - n_forecasts ->
  let n_samples := Z.to_nat (len df - n_lags + 1 - n_forecasts) in
  let L := Z.to_nat n_lags in
  let F := Z.to_nat n_forecasts in
  exists inp targets,
    tabularize_univariate_datetime uninit df sc n_lags n_forecasts predict_mode
    = ret (inp, targets) /\
    strided t L F n_samples (time inp) /\
    (exists lg, lags inp = Some lg /\ strided series 0 L n_samples lg) /\
    season_strided sc feats L F n_samples (seasonalities inp) /\
    length targets = n_samples /\
    (predict_mode = false -> strided series L F n_samples targets).
Proof.
  intros Hwf Hy Ht Hs Hl Hf Hn n_samples L F.
  pose proof (wf_float_length _ _ _ Hwf Hy) as Hly.
  pose proof (wf_float_length _ _ _ Hwf Ht) as Hlt.
  pose proof (season_features_rows _ _ _ Hwf Hs) as Hrows.
  eexists _, _. split.
  { exact (tabularize_lagged uninit df sc feats n_lags n_forecasts predict_mode
             series t Hy Ht Hs Hl). }
  simpl.
  assert (Htime : strided t L F n_samples
                    (_stride_time_features_for_forecasts n_lags n_forecasts
                       (len df - n_lags + 1 - n_forecasts) t)).
  { apply strided_slices; trivial; lia. }
  split; [exact Htime|].
  split.
  { eexists. split; [reflexivity|].
    change 0%nat with (Z.to_nat 0).
    apply strided_slices; try lia.
    intros i Hi. reflexivity. }
  split.
  { apply season_strided_map; try lia.
    eapply Forall_impl; [|exact Hrows]. simpl. intros nf -> _. lia. }
  split.
  { destruct predict_mode.
    - rewrite empty_like_length. apply Htime.
    - now rewrite length_map, range_length. }
  intros ->.
  apply strided_slices; trivial; try lia.
  intros j Hj. f_equal; lia.
Qed.

(** The example of the specification: three lags and one forecast step
    on a table of ten rows give seven samples; here with the weekly
    seasonality. *)
Lemma tabularize_windows_witness :
  let df := normalized_table 10 in
  let feats := match seasonal_features_from_dates
                       (ColDatetime None (map Some (days 10))) weekly with
               | inr f => f
               | inl _ => []
               end in
  let series := map (fun i => Fin (INR i)) (seq 0 10) in
  let t := map (fun i => Fin (INR i / INR 9)) (seq 0 10) in
  exists inp targets,
    tabularize_univariate_datetime zeros df (Some weekly) 3 1 false
    = ret (inp, targets) /\
    strided t 3 1 7 (time inp) /\
    (exists lg, lags inp = Some lg /\ strided series 0 3 7 lg) /\
    season_strided (Some weekly) feats 3 1 7 (seasonalities inp) /\
    length targets = 7%nat /\
    (false = false -> strided series 3 1 7 targets).
Proof.
  apply (tabularize_windows zeros (normalized_table 10) (Some weekly)
           (match seasonal_features_from_dates
                    (ColDatetime None (map Some (days 10))) weekly with
            | inr f => f
            | inl _ => []
            end)
           3 1 false
           (map (fun i => Fin (INR i)) (seq 0 10))
           (map (fun i => Fin (INR i / INR 9)) (seq 0 10))).
  - repeat constructor.
  - reflexivity.
  - reflexivity.
  - eexists. split; reflexivity.
  - lia.
  - lia.
  - unfold len. simpl. lia.
Defined.

Lemma expand_dims_length {A : Type} (x : list A) :
  length (expand_dims x) = length x.
Proof. unfold expand_dims. apply length_map. Qed.

Lemma expand_dims_nth {A : Type} (x : list A) (i : nat) (d : A) :
  (i < length x)%nat -> nth i (expand_dims x) [] = [nth i x d].
Proof.
  intros H. unfold expand_dims.
  rewrite (nth_indep _ [] [d]) by (now rewrite length_map).
  apply (map_nth (fun v => [v])).
Qed.

Lemma unit_slices_nth {A : Type} (x : list A) (n : Z) (i : nat) (d : A) :
  (i < length x)%nat -> (i < Z.to_nat n)%nat ->
  nth i (map (fun i => slice x (i + 0) (i + 0 + 1)) (range n)) [] = [nth i x d].
Proof.
  intros Hx Hn. rewrite nth_map_range by exact Hn.
  rewrite slice_window by lia.
  replace (Z.to_nat (Z.of_nat i + 0)) with i by lia.
  replace (Z.to_nat (Z.of_nat i + 0 + 1 - (Z.of_nat i + 0))) with 1%nat by lia.
  pose proof (window_length x i 1 ltac:(lia)) as Hlen.
  pose proof (window_nth x i 1 0 d ltac:(lia)) as Hnth.
  rewrite Nat.add_0_r in Hnth.
  destruct (window x i 1) as [|a [|b rest]]; simpl in *; try discriminate.
  now subst.
Qed.

(** ** A window configuration that does not fit the table *)

(** C2, at the specification's own example: five lags and five forecast steps on
    a table of six rows give [n_samples = -3]; the tabularizer raises
    nothing and returns arrays without a sample. *)
Lemma tabularize_short_table_returns :
  len (normalized_table 6) - 5 + 1 - 5 = -3 /\
  tabularize_univariate_datetime zeros (normalized_table 6) None 5 5 false
  = ret (mkInputs [] (Some []) None, []).
Proof. split; reflexivity. Qed.

(** C2, as the code has it.  There is no check of [n_samples]: when
    [n_samples < 1] (and the one assertion of the code, [n_forecasts == 1]
    for [n_lags == 0], holds) the tabularizer returns a result whose time,
    lag, seasonality and target arrays hold no sample. *)
Theorem tabularize_no_sample (uninit : nat -> nat -> float64) (df : DataFrame)
  (sc : option season_config) (feats : list (string * list (list float64)))
  (n_lags n_forecasts : Z) (predict_mode : bool) (series t : list float64) :
  wf df ->
  getitem df "y_scaled" = ret (ColFloat series) ->
  getitem df "t" = ret (ColFloat t) ->
  season_features df sc feats ->
  0 <= n_lags ->
  (n_lags = 0 -> n_forecasts = 1) ->
  len df - n_lags + 1 - n_forecasts < 1 ->
  tabularize_univariate_datetime uninit df sc n_lags n_forecasts predict_mode
  = ret (mkInputs []
           (if n_lags >? 0 then Some [] else None)
           (match sc with
            | Some _ => Some (map (fun nf => (fst nf, [])) feats)
            | None => None
            end),
         []).
Proof.
  intros Hwf Hy Ht Hs Hl H0 Hn.
  destruct (Z.eq_dec n_lags 0) as [->|Hpos].
  - rewrite (H0 eq_refl) in *.
    rewrite (tabularize_unlagged uninit df sc feats predict_mode series t Hy Ht Hs).
    pose proof (wf_float_length _ _ _ Hwf Ht) as Hlt.
    pose proof (season_features_rows _ _ _ Hwf Hs) as Hrows.
    assert (Hlen : len df = 0) by (unfold len in *; lia).
    assert (t = []) as -> by (destruct t; [reflexivity|simpl in Hlt; lia]).
    rewrite Hlen. simpl.
    replace (map (fun nf => (fst nf, expand_dims (snd nf))) feats)
      with (map (fun nf : string * list (list float64) =>
                   (fst nf, @nil (list (list float64)))) feats).
    + now destruct predict_mode, sc.
    + apply map_ext_in. intros nf Hin.
      rewrite Forall_forall in Hrows. specialize (Hrows nf Hin).
      destruct (snd nf); [reflexivity|simpl in Hrows; lia].
  - rewrite (tabularize_lagged uninit df sc feats n_lags n_forecasts
               predict_mode series t Hy Ht Hs) by lia.
    rewrite (Zgtb_true n_lags) by lia.
    unfold _stride_time_features_for_forecasts.
    rewrite !range_nonpos by lia. simpl.
    now destruct predict_mode.
Qed.

(** Five lags and five forecast steps on six rows, in predict mode. *)
Lemma tabularize_no_sample_witness :
  tabularize_univariate_datetime zeros (normalized_table 6) None 5 5 true
  = ret (mkInputs [] (if 5 >? 0 then Some [] else None) None, []).
Proof.
  apply (tabularize_no_sample zeros (normalized_table 6) None [] 5 5 true
           (map (fun i => Fin (INR i)) (seq 0 6))
           (map (fun i => Fin (INR i / INR 5)) (seq 0 6))).
  - repeat constructor.
  - reflexivity.
  - reflexivity.
  - reflexivity.
  - lia.
  - lia.
  - unfold len. simpl. lia.
Defined.

(** ** No lags *)

(** C6.  With [n_lags = 0] the tabularizer fails (the assertion of the
    code) whenever [n_forecasts <> 1]; with [n_forecasts = 1] it returns
    one sample per row of the table, the time feature of sample [i] being
    row [i]'s own [t] (and, when targets are built, its target row [i]'s
    own [y_scaled]). *)
Theorem tabularize_without_lags (uninit : nat -> nat -> float64)
  (df : DataFrame) (sc : option season_config)
  (feats : list (string * list (list float64)))
  (n_forecasts : Z) (predict_mode : bool) (series t : list float64) :
  wf df ->
  getitem df "y_scaled" = ret (ColFloat series) ->
  getitem df "t" = ret (ColFloat t) ->
  season_features df sc feats ->
  (n_forecasts <> 1 ->
   tabularize_univariate_datetime uninit df sc 0 n_forecasts predict_mode
   = raise AssertionError) /\
  (n_forecasts = 1 ->
   exists inp targets,
     tabularize_univariate_datetime uninit df sc 0 n_forecasts predict_mode
     = ret (inp, targets) /\
     len df - 0 + 1 - n_forecasts = len df /\
     length (time inp) = length (index df) /\
     length targets = length (index df) /\
     lags inp = None /\
     forall i, (i < length (index df))%nat ->
       nth i (time inp) [] = [nth i t NaN] /\
       (predict_mode = false -> nth i targets [] = [nth i series NaN])).
Proof.
  intros Hwf Hy Ht Hs.
  pose proof (wf_float_length _ _ _ Hwf Hy) as Hly.
  pose proof (wf_float_length _ _ _ Hwf Ht) as Hlt.
  unfold len in Hly, Hlt.
  split.
  - intros Hne. unfold tabularize_univariate_datetime.
    rewrite Hy, Ht. simpl.
    now destruct (Z.eqb_spec n_forecasts 1).
  - intros ->.
    rewrite (tabularize_unlagged uninit df sc feats predict_mode series t Hy Ht Hs).
    eexists _, _. split; [reflexivity|]. simpl.
    split; [lia|].
    split; [rewrite expand_dims_length; lia|].
    split.
    { destruct predict_mode.
      - rewrite empty_like_length, expand_dims_length. lia.
      - rewrite length_map, range_length. unfold len. lia. }
    split; [reflexivity|].
    intros i Hi. split.
    + apply expand_dims_nth. lia.
    + intros ->. apply unit_slices_nth; unfold len; lia.
Qed.

(** Four rows without lags: two forecast steps fail, one gives four samples. *)
Lemma tabularize_without_lags_witness :
  tabularize_univariate_datetime zeros (normalized_table 4) None 0 2 false
  = raise AssertionError /\
  exists inp targets,
    tabularize_univariate_datetime zeros (normalized_table 4) None 0 1 false
    = ret (inp, targets) /\
    len (normalized_table 4) - 0 + 1 - 1 = len (normalized_table 4) /\
    length (time inp) = 4%nat /\
    length targets = 4%nat /\
    lags inp = None /\
    forall i, (i < 4)%nat ->
      nth i (time inp) [] =
      [nth i (map (fun i => Fin (INR i / INR 3)) (seq 0 4)) NaN] /\
      (false = false ->
       nth i targets [] = [nth i (map (fun i => Fin (INR i)) (seq 0 4)) NaN]).
Proof.
  split.
  - apply (tabularize_without_lags zeros (normalized_table 4) None [] 2 false
             (map (fun i => Fin (INR i)) (seq 0 4))
             (map (fun i => Fin (INR i / INR 3)) (seq 0 4))).
    + repeat constructor.
    + reflexivity.
    + reflexivity.
    + reflexivity.
    + lia.
  - apply (tabularize_without_lags zeros (normalized_table 4) None [] 1 false
             (map (fun i => Fin (INR i)) (seq 0 4))
             (map (fun i => Fin (INR i / INR 3)) (seq 0 4))).
    + repeat constructor.
    + reflexivity.
    + reflexivity.
    + reflexivity.
    + reflexivity.
Defined.

(** ** Predict mode *)

(** C10, as stated: a table with [t] and without [y_scaled], in predict
    mode with [n_lags = 0] and [n_forecasts = 1].  The column [y_scaled]
    is read before anything else, so the call fails. *)
Lemma tabularize_predict_needs_y_scaled :
  contains (future_table 3) "t" = true /\
  contains (future_table 3) "y_scaled" = false /\
  tabularize_univariate_datetime zeros (future_table 3) None 0 1 true
  = raise (KeyError "y_scaled").
Proof. repeat split; reflexivity. Qed.

(** C10, as the code has it.  In predict mode the tabularizer still reads
    the column [y_scaled]: without it the call fails with a [KeyError];
    with it (and [n_lags = 0], [n_forecasts = 1]) the call returns
    targets of the shape of the time array, whose contents are whatever
    the memory held. *)
Theorem tabularize_predict_mode (uninit : nat -> nat -> float64)
  (df : DataFrame) (sc : option season_config)
  (feats : list (string * list (list float64))) (t : list float64) :
  getitem df "t" = ret (ColFloat t) ->
  season_features df sc feats ->
  (contains df "y_scaled" = false ->
   tabularize_univariate_datetime uninit df sc 0 1 true
   = raise (KeyError "y_scaled")) /\
  (forall series, getitem df "y_scaled" = ret (ColFloat series) ->
   exists inp targets,
     tabularize_univariate_datetime uninit df sc 0 1 true = ret (inp, targets) /\
     time inp = expand_dims t /\
     length targets = length (time inp) /\
     forall i, (i < length (time inp))%nat ->
       length (nth i targets []) = length (nth i (time inp) []) /\
       nth i targets [] = [uninit i 0%nat]).
Proof.
  intros Ht Hs. split.
  - intros Hc. unfold tabularize_univariate_datetime, getitem at 1.
    unfold contains in Hc.
    destruct (od_get (columns df) "y_scaled"); [discriminate|reflexivity].
  - intros series Hy.
    rewrite (tabularize_unlagged uninit df sc feats true series t Hy Ht Hs).
    eexists _, _. split; [reflexivity|]. simpl.
    split; [reflexivity|].
    split; [apply empty_like_length|].
    intros i Hi.
    rewrite empty_like_nth by exact Hi.
    rewrite expand_dims_length in Hi.
    rewrite (expand_dims_nth t i NaN Hi). simpl.
    split; reflexivity.
Qed.

(** Three rows in predict mode, on memory that holds zeros. *)
Lemma tabularize_predict_mode_witness :
  exists inp targets,
    tabularize_univariate_datetime zeros (normalized_table 3) None 0 1 true
    = ret (inp, targets) /\
    time inp = expand_dims (map (fun i => Fin (INR i / INR 2)) (seq 0 3)) /\
    length targets = length (time inp) /\
    forall i, (i < length (time inp))%nat ->
      length (nth i targets []) = length (nth i (time inp) []) /\
      nth i targets [] = [zeros i 0%nat].
Proof.
  refine (proj2 (tabularize_predict_mode zeros (normalized_table 3) None []
                   (map (fun i => Fin (INR i / INR 2)) (seq 0 3)) _ _)
            (map (fun i => Fin (INR i)) (seq 0 3)) _).
  - reflexivity.
  - reflexivity.
  - reflexivity.
Defined.

(** ** The split *)

Lemma Int_part_unique (r : R) (z : Z) :
  (IZR z <= r < IZR z + 1)%R -> Int_part r = z.
Proof.
  intros [Hlo Hhi]. unfold Int_part.
  assert (H : (z + 1)%Z = up r).
  { apply tech_up; rewrite plus_IZR; simpl; lra. }
  lia.
Qed.

Lemma trunc_nonneg (r : R) : (0 <= r)%R -> trunc r = Int_part r.
Proof.
  intros H. unfold trunc, Rneg.
  destruct (Rlt_dec r 0); [lra|reflexivity].
Qed.

Lemma trunc_neg (r : R) : (r < 0)%R -> trunc r = - Int_part (- r).
Proof.
  intros H. unfold trunc, Rneg.
  destruct (Rlt_dec r 0); [reflexivity|lra].
Qed.

(** The integer part of a fraction of a count lies within the count. *)
Lemma Int_part_fraction (n : Z) (p : R) :
  0 <= n -> (0 <= p <= 1)%R ->
  0 <= Int_part (IZR n * p) <= n.
Proof.
  intros Hn [Hp0 Hp1].
  assert (H0 : (0 <= IZR n)%R) by (now apply IZR_le).
  assert (Hr0 : (0 <= IZR n * p)%R) by (now apply Rmult_le_pos).
  assert (Hr1 : (IZR n * p <= IZR n)%R).
  { rewrite <- (Rmult_1_r (IZR n)) at 2. now apply Rmult_le_compat_l. }
  destruct (base_Int_part (IZR n * p)) as [Hlo Hhi].
  split.
  - assert (H : (IZR (-1) < IZR (Int_part (IZR n * p)))%R) by (simpl; lra).
    apply lt_IZR in H. lia.
  - apply le_IZR. lra.
Qed.

Lemma slice_to_firstn {A : Type} (x : list A) (k : Z) :
  0 <= k -> slice_to x k = firstn (Z.to_nat k) x.
Proof.
  intros Hk. unfold slice_to, slice_bound.
  destruct (Z.ltb_spec k 0) as [?|_]; [lia|].
  destruct (Z.le_gt_cases k (Z.of_nat (length x))).
  - now rewrite Z.min_l by lia.
  - rewrite Z.min_r by lia.
    rewrite !firstn_all2; trivial; lia.
Qed.

Lemma slice_from_skipn {A : Type} (x : list A) (k : Z) :
  0 <= k -> slice_from x k = skipn (Z.to_nat k) x.
Proof.
  intros Hk. unfold slice_from, slice_bound.
  destruct (Z.ltb_spec k 0) as [?|_]; [lia|].
  destruct (Z.le_gt_cases k (Z.of_nat (length x))).
  - now rewrite Z.min_l by lia.
  - rewrite Z.min_r by lia.
    rewrite !skipn_all2; trivial; lia.
Qed.

Lemma iloc_to_rows (df : DataFrame) (k : Z) :
  0 <= k ->
  iloc_to df k =
  mkDataFrame (firstn (Z.to_nat k) (index df)) (index_name df)
    (map (fun nc => (fst nc, col_map (fun A l => firstn (Z.to_nat k) l) (snd nc)))
       (columns df)).
Proof.
  intros Hk. unfold iloc_to. rewrite slice_to_firstn by exact Hk.
  f_equal. apply map_ext. intros [name c]. simpl. f_equal.
  destruct c; simpl; now rewrite slice_to_firstn.
Qed.

Lemma iloc_from_rows (df : DataFrame) (k : Z) :
  0 <= k ->
  iloc_from df k =
  mkDataFrame (skipn (Z.to_nat k) (index df)) (index_name df)
    (map (fun nc => (fst nc, col_map (fun A l => skipn (Z.to_nat k) l) (snd nc)))
       (columns df)).
Proof.
  intros Hk. unfold iloc_from. rewrite slice_from_skipn by exact Hk.
  f_equal. apply map_ext. intros [name c]. simpl. f_equal.
  destruct c; simpl; now rewrite slice_from_skipn.
Qed.

(** ** Double precision *)

Lemma pow2_1024 : (2 ^ 1024)%R = IZR (2 ^ 1024).
Proof. now rewrite pow_IZR. Qed.

Lemma sample_round_small (x : R) :
  (Rabs x <= IZR (2 ^ 53))%R -> sample_round x = Fin x.
Proof.
  intros H. unfold sample_round.
  destruct (Rlt_dec (Rabs x) (2 ^ 1024)) as [_|Hn]; [reflexivity|].
  exfalso. apply Hn. rewrite pow2_1024.
  eapply Rle_lt_trans; [exact H|]. apply IZR_lt. reflexivity.
Qed.

(** The stand-in keeps what is asked of the rounding. *)
Lemma sample_float64_correct : float64_correct sample_float64.
Proof.
  split; [|split].
  - intros x y Hxy. cbn [round sample_float64]. unfold sample_round, Rneg.
    assert (Hpos : (0 < 2 ^ 1024)%R) by (apply pow_lt; lra).
    set (M := (2 ^ 1024)%R) in *.
    destruct (Rlt_dec (Rabs x) M), (Rlt_dec (Rabs y) M),
      (Rlt_dec x 0), (Rlt_dec y 0); cbn [fle]; trivial;
      unfold Rabs in *; destruct (Rcase_abs x), (Rcase_abs y); lra.
  - intros z Hz. cbn [round sample_float64]. apply sample_round_small.
    rewrite <- abs_IZR. now apply IZR_le.
  - intros x Hx. cbn [round sample_float64]. unfold sample_round.
    destruct (Rlt_dec (Rabs x) (2 ^ 1024)); [lra|reflexivity].
Qed.

Lemma Int_part_ge (r : R) (z : Z) : (IZR z <= r)%R -> z <= Int_part r.
Proof.
  intros H. destruct (base_Int_part r) as [_ Hhi].
  assert (H' : (IZR (z - 1) < IZR (Int_part r))%R) by (rewrite minus_IZR; lra).
  apply lt_IZR in H'. lia.
Qed.

Lemma Int_part_le (r : R) (z : Z) : (r <= IZR z)%R -> Int_part r <= z.
Proof.
  intros H. destruct (base_Int_part r) as [Hlo _]. apply le_IZR. lra.
Qed.

(** The product of a count and a fraction in double precision: the count
    converts as it is, and the rounded product lies between the integers
    around the exact one, within the count. *)
Lemma float_product (fl : Float64) (n : Z) (p : R) :
  float64_correct fl -> 0 <= n <= 2 ^ 53 -> (0 <= p <= 1)%R ->
  exists x,
    float_of_int fl n = ret (Fin (IZR n)) /\
    round fl (IZR n * p) = Fin x /\
    (0 <= x)%R /\
    Int_part (IZR n * p) <= Int_part x <= Int_part (IZR n * p) + 1 /\
    0 <= Int_part x <= n.
Proof.
  intros (Hmono & Hexact & _) Hn Hp.
  pose proof (Int_part_fraction n p (proj1 Hn) Hp) as Ha.
  destruct (base_Int_part (IZR n * p)) as [Hlo Hhi].
  set (a := Int_part (IZR n * p)) in *.
  assert (Hxn : (IZR n * p <= IZR n)%R).
  { assert (H0 : (0 <= IZR n)%R) by (apply IZR_le; lia).
    rewrite <- (Rmult_1_r (IZR n)) at 2. apply Rmult_le_compat_l; tauto. }
  assert (Hxb : (IZR n * p <= IZR (Z.min (a + 1) n))%R).
  { destruct (Z.min_spec (a + 1) n) as [[_ ->]|[_ ->]];
      [rewrite plus_IZR; lra|exact Hxn]. }
  pose proof (Hmono _ _ Hlo) as H1. pose proof (Hmono _ _ Hxb) as H2.
  rewrite Hexact in H1 by lia. rewrite Hexact in H2 by lia.
  assert (Hn' : float_of_int fl n = ret (Fin (IZR n))).
  { unfold float_of_int. now rewrite Hexact by lia. }
  destruct (round fl (IZR n * p)) as [x|s|] eqn:Hx.
  - cbn [fle] in H1, H2. exists x.
    split; [exact Hn'|]. split; [reflexivity|].
    assert (H0 : (0 <= IZR a)%R) by (apply IZR_le; lia).
    split; [lra|].
    pose proof (Int_part_ge x a H1). pose proof (Int_part_le x _ H2). lia.
  - destruct s; cbn [fle] in H1, H2; contradiction.
  - cbn [fle] in H1. contradiction.
Qed.

(** C3, at a table too short for its windows: two rows, three lags, one
    forecast step, a quarter held out.  [n_samples = -1] and the product
    [-1 * 0.25] is held exactly, [int()] makes it 0; the training table
    has two rows and the validation table one: three rows in all, where
    the specification counts [len(df) + n_lags = 5]. *)
Lemma split_df_short_table :
  len (raw_table 2) - 3 + 1 - 1 = -1 /\
  exists df_train df_val,
    split_df sample_float64 (raw_table 2) 3 1 (Fin (1 / 4)) true
    = ret (df_train, df_val) /\
    len df_train = 2 /\
    len df_val = 1 /\
    len (raw_table 2) + 3 = 5.
Proof.
  split; [reflexivity|].
  assert (Hn : sample_round (IZR (-1)) = Fin (IZR (-1))).
  { apply sample_round_small. rewrite <- abs_IZR. apply IZR_le. easy. }
  assert (Hx : sample_round (IZR (-1) * (1 / 4)) = Fin (IZR (-1) * (1 / 4))).
  { apply sample_round_small.
    apply Rle_trans with 1%R; [|apply IZR_le; easy].
    unfold Rabs. destruct (Rcase_abs (IZR (-1) * (1 / 4))); lra. }
  assert (Ht : trunc (IZR (-1) * (1 / 4)) = 0).
  { rewrite trunc_neg by lra.
    rewrite (Int_part_unique _ 0); [reflexivity|simpl; lra]. }
  unfold split_df, float_of_int, fmul64, int.
  change (len (raw_table 2) - 3 + 1 - 1) with (-1).
  cbn [round sample_float64]. rewrite Hn. cbn [bind ret].
  rewrite Hx, Ht.
  eexists _, _. split; [reflexivity|].
  repeat split; reflexivity.
Qed.

(** C3, as the code has it.  When the windows fit the table
    ([0 <= n_samples <= 2^53]) and the validation fraction lies in
    [[0, 1]]: [n_train = n_samples - floor(x)], where [x] is the product
    [n_samples * valid_p] in double precision, so that [floor(x)] is the
    integer part of the exact product or one more; the training table is
    rows [[0, n_train + n_lags)] of the source; the validation table
    starts at row [n_train] with [inputs_overbleed] and at row
    [n_train + n_lags] without; both are re-indexed from zero; and the two
    lengths add up to [len(df)], plus [n_lags] with [inputs_overbleed]. *)
Theorem split_df_ranges (fl : Float64) (df : DataFrame)
  (n_lags n_forecasts : Z) (p : R) (inputs_overbleed : bool) :
  float64_correct fl ->
  0 <= n_lags -> 1 <= n_forecasts ->
  0 <= len df - n_lags + 1 - n_forecasts <= 2 ^ 53 ->
  (0 <= p <= 1)%R ->
  let n_samples := len df - n_lags + 1 - n_forecasts in
  exists x df_train df_val,
    round fl (IZR n_samples * p) = Fin x /\
    Int_part (IZR n_samples * p) <= Int_part x
    <= Int_part (IZR n_samples * p) + 1 /\
    let n_train := n_samples - Int_part x in
    let start := if inputs_overbleed then n_train else n_train + n_lags in
    split_df fl df n_lags n_forecasts (Fin p) inputs_overbleed
    = ret (df_train, df_val) /\
    0 <= n_train <= n_samples /\ n_train + n_lags <= len df /\
    columns df_train =
      map (fun nc => (fst nc, col_map (fun A l => firstn (Z.to_nat (n_train + n_lags)) l)
                                (snd nc))) (columns df) /\
    index df_train = range (n_train + n_lags) /\
    columns df_val =
      map (fun nc => (fst nc, col_map (fun A l => skipn (Z.to_nat start) l) (snd nc)))
        (columns df) /\
    index df_val = range (len df - start) /\
    len df_train + len df_val = len df + (if inputs_overbleed then n_lags else 0).
Proof.
  intros Hfl Hl Hf Hn Hp n_samples.
  destruct (float_product fl n_samples p Hfl Hn Hp)
    as (x & Hconv & Hx & Hx0 & Hnear & Hk).
  exists x.
  set (n_train := n_samples - Int_part x).
  set (start := if inputs_overbleed then n_train else n_train + n_lags).
  assert (Ht0 : 0 <= n_train <= n_samples) by (unfold n_train; lia).
  assert (Ht1 : n_train + n_lags <= len df) by (unfold n_train, n_samples in *; lia).
  assert (Hs0 : 0 <= start <= len df)
    by (unfold start, n_samples in *; destruct inputs_overbleed; lia).
  unfold split_df. fold n_samples. rewrite Hconv. cbn [bind ret].
  unfold fmul64, int. rewrite Hx. rewrite trunc_nonneg by exact Hx0.
  cbn [bind ret]. fold n_train.
  replace (if inputs_overbleed then n_train + n_lags - n_lags else n_train + n_lags)
    with start by (unfold start; destruct inputs_overbleed; lia).
  rewrite iloc_to_rows by lia.
  rewrite iloc_from_rows by lia.
  eexists _, _. split; [reflexivity|]. split; [exact Hnear|].
  split; [reflexivity|].
  unfold reset_index, len in *. cbn [index columns].
  rewrite length_firstn, length_skipn.
  repeat split; try lia.
  - f_equal. lia.
  - f_equal. lia.
  - rewrite !range_length.
    destruct inputs_overbleed; unfold start in *; lia.
Qed.

(** Ten rows, three lags, one forecast step, a quarter held out, with
    overlap. *)
Lemma split_df_ranges_witness :
  let n_samples := len (raw_table 10) - 3 + 1 - 1 in
  exists x df_train df_val,
    round sample_float64 (IZR n_samples * (1 / 4)) = Fin x /\
    Int_part (IZR n_samples * (1 / 4)) <= Int_part x
    <= Int_part (IZR n_samples * (1 / 4)) + 1 /\
    let n_train := n_samples - Int_part x in
    let start := n_train in
    split_df sample_float64 (raw_table 10) 3 1 (Fin (1 / 4)) true
    = ret (df_train, df_val) /\
    0 <= n_train <= n_samples /\ n_train + 3 <= len (raw_table 10) /\
    columns df_train =
      map (fun nc => (fst nc, col_map (fun A l => firstn (Z.to_nat (n_train + 3)) l)
                                (snd nc))) (columns (raw_table 10)) /\
    index df_train = range (n_train + 3) /\
    columns df_val =
      map (fun nc => (fst nc, col_map (fun A l => skipn (Z.to_nat start) l) (snd nc)))
        (columns (raw_table 10)) /\
    index df_val = range (len (raw_table 10) - start) /\
    len df_train + len df_val = len (raw_table 10) + 3.
Proof.
  apply (split_df_ranges sample_float64 (raw_table 10) 3 1 (1 / 4) true).
  - exact sample_float64_correct.
  - lia.
  - lia.
  - unfold len. simpl. lia.
  - lra.
Defined.

(** ** Fourier features *)

Lemma fdiv_fin (x y : R) : y <> 0%R -> fdiv (Fin x) (Fin y) = Fin (x / y).
Proof.
  intros H. unfold fdiv, Rzero.
  destruct (Req_dec_T y 0); [contradiction|reflexivity].
Qed.

Lemma od_get_set_same {V : Type} (d : list (string * V)) (k : string) (v : V) :
  od_get (od_set d k v) k = Some v.
Proof.
  induction d as [|[k' v'] d IH]; simpl.
  - now rewrite String.eqb_refl.
  - destruct (String.eqb k k') eqn:E; simpl.
    + now rewrite String.eqb_refl.
    + now rewrite E.
Qed.

Lemma od_get_set_other {V : Type} (d : list (string * V)) (k k' : string) (v : V) :
  k <> k' -> od_get (od_set d k v) k' = od_get d k'.
Proof.
  intros Hne. induction d as [|[k0 v0] d IH]; simpl.
  - destruct (String.eqb_spec k' k); [congruence|reflexivity].
  - destruct (String.eqb_spec k k0) as [->|Hk]; simpl.
    + destruct (String.eqb_spec k' k0); [congruence|reflexivity].
    + destruct (String.eqb_spec k' k0); [reflexivity|exact IH].
Qed.

(** The columns of [fourier_series] come in pairs, one pair per harmonic. *)
Lemma flat_map_pair_length {A B : Type} (g h : A -> B) (l : list A) :
  length (flat_map (fun i => [g i; h i]) l) = (2 * length l)%nat.
Proof. induction l as [|a l IH]; simpl; [reflexivity|rewrite IH; lia]. Qed.

Lemma flat_map_pair_nth {A B : Type} (g h : A -> B) (l : list A) (i : nat)
  (a : A) (d : B) :
  (i < length l)%nat ->
  nth (2 * i) (flat_map (fun i => [g i; h i]) l) d = g (nth i l a) /\
  nth (2 * i + 1) (flat_map (fun i => [g i; h i]) l) d = h (nth i l a).
Proof.
  revert i. induction l as [|x l IH]; intros i Hi; simpl in Hi; [lia|].
  destruct i as [|i].
  - split; reflexivity.
  - replace (2 * S i)%nat with (S (S (2 * i))) by lia.
    replace (S (S (2 * i)) + 1)%nat with (S (S (2 * i + 1))) by lia.
    simpl flat_map. simpl nth. apply IH. lia.
Qed.

Lemma nth_map_seq {B : Type} (F : nat -> B) (n r : nat) (d : B) :
  (r < n)%nat -> nth r (map F (seq 0 n)) d = F r.
Proof.
  intros H.
  rewrite (nth_indep _ d (F 0%nat)) by (now rewrite length_map, length_seq).
  rewrite (map_nth F). now rewrite seq_nth.
Qed.

Lemma nth_nil {A : Type} (r : nat) (d : A) : nth r [] d = d.
Proof. now destruct r. Qed.

Lemma nth_map_nth {B : Type} (cols : list (list B)) (r j : nat) (d : B) :
  nth j (map (fun col => nth r col d) cols) d = nth r (nth j cols []) d.
Proof.
  revert j. induction cols as [|c cols IH]; intros [|j]; simpl; trivial;
    now destruct r.
Qed.

Lemma range_cons (n : Z) : 0 < n -> exists rest, range n = 0 :: rest.
Proof.
  intros H. unfold range.
  destruct (Z.to_nat n) as [|m] eqn:E; [lia|].
  simpl. eauto.
Qed.

Lemma code_angle_harmonic (q : R) (i ns : Z) :
  q <> 0%R ->
  code_angle (Fin q) i (Some ns) = Fin (harmonic_angle (i + 1) ns q).
Proof.
  intros Hq. unfold code_angle, harmonic_angle, t_days.
  unfold total_seconds, ts_sub, epoch, of_int.
  unfold fmul at 4. rewrite fdiv_fin by lra.
  unfold fmul. rewrite fdiv_fin by exact Hq.
  f_equal. rewrite Z.sub_0_r. field. exact Hq.
Qed.

(** [fourier_series] on a datetime column, for a positive order. *)
Lemma fourier_series_eval (l : list nanos) (period : float64) (order : Z) :
  0 < order ->
  fourier_series (ColDatetime None l) period order =
  ret (map (fun r =>
              map (fun col => nth r col NaN)
                (flat_map (fun i => [map (fun d => fsin (code_angle period i d)) l;
                                     map (fun d => fcos (code_angle period i d)) l])
                   (range order)))
         (seq 0 (length l))).
Proof.
  intros Ho. unfold fourier_series. cbn [naive_datetimes bind ret].
  rewrite (flat_map_ext _
             (fun i => [map (fun d => fsin (code_angle period i d)) l;
                        map (fun d => fcos (code_angle period i d)) l])).
  - destruct (range_cons order Ho) as (rest & ->). simpl.
    now rewrite length_map.
  - intros i. cbn [map]. now rewrite !map_map.
Qed.

(** The shape and the entries of the feature matrix. *)
Lemma fourier_series_entries (l : list nanos) (period : float64) (order : Z) :
  0 < order ->
  exists M,
    fourier_series (ColDatetime None l) period order = ret M /\
    length M = length l /\
    forall r, (r < length l)%nat ->
      length (nth r M []) = Z.to_nat (2 * order) /\
      forall k, 1 <= k <= order ->
        nth (Z.to_nat (2 * (k - 1))) (nth r M []) NaN
        = fsin (code_angle period (k - 1) (nth r l None)) /\
        nth (Z.to_nat (2 * (k - 1) + 1)) (nth r M []) NaN
        = fcos (code_angle period (k - 1) (nth r l None)).
Proof.
  intros Ho. eexists. split; [now apply fourier_series_eval|].
  split; [now rewrite length_map, length_seq|].
  intros r Hr. rewrite nth_map_seq by exact Hr.
  split.
  - rewrite length_map, flat_map_pair_length, range_length. lia.
  - intros k Hk.
    set (g := fun i => map (fun d => fsin (code_angle period i d)) l).
    set (h := fun i => map (fun d => fcos (code_angle period i d)) l).
    destruct (flat_map_pair_nth g h (range order) (Z.to_nat (k - 1)) 0 [])
      as [Hs Hc]; [rewrite range_length; lia|].
    assert (Hi : nth (Z.to_nat (k - 1)) (range order) 0 = k - 1).
    { unfold range.
      rewrite (map_nth Z.of_nat (seq 0 (Z.to_nat order)) 0%nat).
      rewrite seq_nth by lia. lia. }
    rewrite Hi in Hs, Hc. unfold g, h in Hs, Hc. cbv beta in Hs, Hc.
    replace (Z.to_nat (2 * (k - 1))) with (2 * Z.to_nat (k - 1))%nat by lia.
    replace (Z.to_nat (2 * (k - 1) + 1)) with (2 * Z.to_nat (k - 1) + 1)%nat by lia.
    split.
    + rewrite nth_map_nth, Hs.
      rewrite (nth_indep _ NaN (fsin (code_angle period (k - 1) None)))
        by (now rewrite length_map).
      apply (map_nth (fun d => fsin (code_angle period (k - 1) d))).
    + rewrite nth_map_nth, Hc.
      rewrite (nth_indep _ NaN (fcos (code_angle period (k - 1) None)))
        by (now rewrite length_map).
      apply (map_nth (fun d => fcos (code_angle period (k - 1) d))).
Qed.

(** On a datetime column and for the fourier type the loop of
    [seasonal_features_from_dates] always succeeds, and leaves alone the
    names it does not visit. *)
Lemma seasonal_features_loop_frame (l : list nanos)
  (items : list (string * period_cfg))
  (acc : list (string * list (list float64))) :
  exists feats,
    seasonal_features_loop (ColDatetime None l) "fourier" items acc = ret feats /\
    forall name, ~ In name (map fst items) -> od_get feats name = od_get acc name.
Proof.
  revert acc. induction items as [|[n p] rest IH]; intros acc; simpl.
  - eauto.
  - destruct (Z.gtb_spec (resolution p) 0) as [Hpos|Hle].
    + destruct (fourier_series_entries l (period p) (resolution p))
        as (M & -> & _); [lia|]. simpl.
      destruct (IH (od_set acc n M)) as (feats & -> & Hframe).
      eexists. split; [reflexivity|].
      intros name Hname. rewrite Hframe by tauto.
      apply od_get_set_other. tauto.
    + destruct (IH acc) as (feats & -> & Hframe).
      eexists. split; [reflexivity|].
      intros name Hname. apply Hframe. tauto.
Qed.

Lemma seasonal_features_loop_get (l : list nanos)
  (items : list (string * period_cfg))
  (acc : list (string * list (list float64)))
  (name : string) (pc : period_cfg) :
  NoDup (map fst items) -> In (name, pc) items -> 0 < resolution pc ->
  exists feats M,
    seasonal_features_loop (ColDatetime None l) "fourier" items acc = ret feats /\
    od_get feats name = Some M /\
    fourier_series (ColDatetime None l) (period pc) (resolution pc) = ret M.
Proof.
  revert acc. induction items as [|[n p] rest IH]; intros acc Hnd Hin Hpos;
    simpl in *; [contradiction|].
  inversion Hnd as [|? ? Hn Hrest]; subst.
  destruct Hin as [[= -> ->]|Hin].
  - destruct (Z.gtb_spec (resolution pc) 0) as [_|?]; [|lia].
    destruct (fourier_series_entries l (period pc) (resolution pc))
      as (M & HM & _); [lia|].
    rewrite HM. simpl.
    destruct (seasonal_features_loop_frame l rest (od_set acc name M))
      as (feats & -> & Hframe).
    exists feats, M. repeat split.
    rewrite Hframe by exact Hn. apply od_get_set_same.
  - destruct (Z.gtb_spec (resolution p) 0) as [Hp|Hp].
    + destruct (fourier_series_entries l (period p) (resolution p))
        as (M & -> & _); [lia|]. simpl.
      now apply IH.
    + now apply IH.
Qed.

(** C5.  For timestamps without timezone, the fourier type and a named
    period of positive resolution (and non-zero length), the featurizer
    returns under that name a matrix with one row per timestamp and
    [2 * resolution] columns; columns
    [2(k-1)] and [2(k-1)+1] hold the sine and the cosine of
    [2 pi k t_days / period_length] for [k = 1 .. resolution], [t_days]
    being the days elapsed since 1970-01-01; so the squares of each pair
    add up to 1. *)
Theorem seasonal_fourier_features (ds : list Z) (cfg : season_config)
  (name : string) (pc : period_cfg) (q : R) :
  type cfg = "fourier" ->
  NoDup (map fst (periods cfg)) ->
  In (name, pc) (periods cfg) ->
  0 < resolution pc ->
  period pc = Fin q -> q <> 0%R ->
  exists feats M,
    seasonal_features_from_dates (ColDatetime None (map Some ds)) cfg = ret feats /\
    od_get feats name = Some M /\
    length M = length ds /\
    forall r, (r < length ds)%nat ->
      length (nth r M []) = Z.to_nat (2 * resolution pc) /\
      forall k, 1 <= k <= resolution pc ->
        let a := harmonic_angle k (nth r ds 0) q in
        nth (Z.to_nat (2 * (k - 1))) (nth r M []) NaN = Fin (sin a) /\
        nth (Z.to_nat (2 * (k - 1) + 1)) (nth r M []) NaN = Fin (cos a) /\
        ((sin a)² + (cos a)² = 1)%R.
Proof.
  intros Hty Hnd Hin Hpos Hq Hq0.
  unfold seasonal_features_from_dates. rewrite Hty.
  destruct (seasonal_features_loop_get (map Some ds) (periods cfg) [] name pc
              Hnd Hin Hpos) as (feats & M & Hloop & Hget & HM).
  exists feats, M. split; [exact Hloop|]. split; [exact Hget|].
  destruct (fourier_series_entries (map Some ds) (period pc) (resolution pc) Hpos)
    as (M' & HM' & Hrows & Hentries).
  rewrite HM in HM'. injection HM' as <-.
  rewrite length_map in Hrows, Hentries.
  split; [exact Hrows|].
  intros r Hr. destruct (Hentries r Hr) as [Hlen Hcols].
  split; [exact Hlen|].
  intros k Hk. destruct (Hcols k Hk) as [Hs Hc].
  assert (Hd : @nth nanos r (map Some ds) None = Some (nth r ds 0)).
  { rewrite (nth_indep _ None (Some 0)) by (now rewrite length_map).
    apply (map_nth Some). }
  rewrite Hd, Hq, code_angle_harmonic in Hs, Hc by exact Hq0.
  replace (k - 1 + 1) with k in Hs, Hc by lia.
  unfold fsin in Hs. unfold fcos in Hc.
  repeat split; trivial.
  apply sin2_cos2.
Qed.

(** The example of the specification: period 7 and resolution 3 over seven
    daily timestamps give a matrix of 7 rows and 6 columns. *)
Lemma seasonal_fourier_features_witness :
  exists feats M,
    seasonal_features_from_dates (ColDatetime None (map Some (days 7))) weekly
    = ret feats /\
    od_get feats "weekly" = Some M /\
    length M = 7%nat /\
    forall r, (r < 7)%nat ->
      length (nth r M []) = 6%nat /\
      forall k, 1 <= k <= 3 ->
        let a := harmonic_angle k (nth r (days 7) 0) 7 in
        nth (Z.to_nat (2 * (k - 1))) (nth r M []) NaN = Fin (sin a) /\
        nth (Z.to_nat (2 * (k - 1) + 1)) (nth r M []) NaN = Fin (cos a) /\
        ((sin a)² + (cos a)² = 1)%R.
Proof.
  apply (seasonal_fourier_features (days 7) weekly "weekly"
           (mkPeriod (Fin 7) 3) 7).
  - reflexivity.
  - repeat constructor. simpl. tauto.
  - simpl. tauto.
  - simpl. lia.
  - reflexivity.
  - lra.
Defined.

(** ** The validator, step by step *)

Arguments to_numeric : simpl never.
Arguments to_datetime : simpl never.
Arguments sort_values : simpl never.
Arguments astype_str : simpl never.

Lemma od_set_set {V : Type} (d : list (string * V)) (k : string) (v v' : V) :
  od_set (od_set d k v) k v' = od_set d k v'.
Proof.
  induction d as [|[k0 v0] d IH]; simpl.
  - now rewrite String.eqb_refl.
  - destruct (String.eqb k k0) eqn:E; simpl.
    + now rewrite String.eqb_refl.
    + now rewrite E, IH.
Qed.

Lemma od_set_same {V : Type} (d : list (string * V)) (k : string) (v : V) :
  od_get d k = Some v -> od_set d k v = d.
Proof.
  induction d as [|[k0 v0] d IH]; simpl; [discriminate|].
  destruct (String.eqb_spec k k0) as [->|Hne].
  - now intros [= ->].
  - intros H. now rewrite IH.
Qed.

Lemma getitem_setitem_same (df : DataFrame) (name : string) (c : column) :
  getitem (setitem df name c) name = ret c.
Proof. unfold getitem, setitem. simpl. now rewrite od_get_set_same. Qed.

Lemma getitem_setitem_other (df : DataFrame) (name name' : string) (c : column) :
  name <> name' -> getitem (setitem df name c) name' = getitem df name'.
Proof.
  intros H. unfold getitem, setitem. simpl. now rewrite od_get_set_other.
Qed.

(** What a successful run of [check_dataframe] went through, and what it
    left in the caller's table. *)
Lemma check_dataframe_accepted (lib : Library) (df df' out : DataFrame) :
  check_dataframe lib df = (df', ret out) ->
  exists y ds y' ds' sorted,
    getitem df "y" = ret y /\
    getitem df "ds" = ret ds /\
    len df <> 0 /\
    2 <= len (mask_rows df (notnull y)) /\
    any (isnull y) = false /\
    to_numeric lib y = ret y' /\
    any (col_isinf y') = false /\
    any (isnull ds) = false /\
    to_datetime lib (if is_int64 ds then astype_str (int64_values ds) else ds)
    = ret ds' /\
    dt_tz ds' = ret None /\
    any (isnull ds') = false /\
    df' = mkDataFrame (index df)
            (match index_name df with
             | Some n => if String.eqb n "ds" then None else Some n
             | None => None
             end)
            (od_set (od_set (columns df) "y" y') "ds" ds') /\
    sort_values lib df' "ds" = ret sorted /\
    out = reset_index sorted.
Proof.
  unfold check_dataframe, mbind, this, when, mraise, mret, lift, assign, set_index_name.
  destruct (len df =? 0) eqn:Hlen; [discriminate|].
  destruct (negb (contains df "ds") || negb (contains df "y"))%bool eqn:Hcols; [discriminate|].
  destruct (getitem df "y") as [e|y] eqn:Hy; [discriminate|].
  destruct (len (mask_rows df (notnull y)) <? 2) eqn:Hhist; [discriminate|].
  destruct (any (isnull y)) eqn:Hnull; [discriminate|].
  destruct (to_numeric lib y) as [e|y'] eqn:Hnum; [discriminate|].
  destruct (any (col_isinf y')) eqn:Hinf; [discriminate|].
  destruct (getitem df "ds") as [e|ds] eqn:Hds; [discriminate|].
  destruct (any (isnull ds)) eqn:Hdsnull; [discriminate|].
  set (s1 := setitem df "y" y').
  assert (Hlen' : len df <> 0) by (now apply Z.eqb_neq).
  assert (Hhist' : 2 <= len (mask_rows df (notnull y))) by (now apply Z.ltb_ge).
  destruct (is_int64 ds) eqn:Hint; cbv beta iota.
  - rewrite getitem_setitem_same. cbn [bind ret].
    destruct (to_datetime lib _) as [e|ds'] eqn:Hdt; [discriminate|].
    destruct (dt_tz ds') as [e|tz] eqn:Htz; [discriminate|].
    destruct tz as [tz|]; cbn [negb is_none]; cbv beta iota; [discriminate|].
    destruct (any (isnull ds')) eqn:Hnull'; [discriminate|].
    match goal with
    | |- context [setitem ?a "ds" ds'] =>
        replace (setitem a "ds" ds')
          with (mkDataFrame (index df) (index_name df)
                  (od_set (od_set (columns df) "y" y') "ds" ds'))
          by (unfold s1, setitem; simpl; f_equal; now rewrite ?od_set_set)
    end.
    cbn [index_name index columns].
    destruct (index_name df) as [n|]; [destruct (String.eqb n "ds")|];
      cbv beta iota;
      match goal with
      | |- context [sort_values lib ?s "ds"] =>
          destruct (sort_values lib s "ds") as [e|sorted] eqn:Hsort
      end; try discriminate;
      intros [= <- <-];
      exists y, ds, y', ds', sorted; rewrite Hint; now repeat split.
  - unfold s1 at 1. rewrite getitem_setitem_other by discriminate.
    rewrite Hds. cbn [bind ret].
    destruct (to_datetime lib _) as [e|ds'] eqn:Hdt; [discriminate|].
    destruct (dt_tz ds') as [e|tz] eqn:Htz; [discriminate|].
    destruct tz as [tz|]; cbn [negb is_none]; cbv beta iota; [discriminate|].
    destruct (any (isnull ds')) eqn:Hnull'; [discriminate|].
    match goal with
    | |- context [setitem ?a "ds" ds'] =>
        replace (setitem a "ds" ds')
          with (mkDataFrame (index df) (index_name df)
                  (od_set (od_set (columns df) "y" y') "ds" ds'))
          by (unfold s1, setitem; simpl; f_equal; now rewrite ?od_set_set)
    end.
    cbn [index_name index columns].
    destruct (index_name df) as [n|]; [destruct (String.eqb n "ds")|];
      cbv beta iota;
      match goal with
      | |- context [sort_values lib ?s "ds"] =>
          destruct (sort_values lib s "ds") as [e|sorted] eqn:Hsort
      end; try discriminate;
      intros [= <- <-];
      exists y, ds, y', ds', sorted; rewrite Hint; now repeat split.
Qed.

Lemma getitem_contains (df : DataFrame) (name : string) (c : column) :
  getitem df name = ret c -> contains df name = true.
Proof.
  unfold getitem, contains. now destruct (od_get (columns df) name).
Qed.

(** The converse: a table that passes every check is accepted. *)
Lemma check_dataframe_run (lib : Library) (df : DataFrame)
  (y ds y' ds' : column) (sorted : DataFrame) :
  getitem df "y" = ret y ->
  getitem df "ds" = ret ds ->
  len df <> 0 ->
  2 <= len (mask_rows df (notnull y)) ->
  any (isnull y) = false ->
  to_numeric lib y = ret y' ->
  any (col_isinf y') = false ->
  any (isnull ds) = false ->
  to_datetime lib (if is_int64 ds then astype_str (int64_values ds) else ds)
  = ret ds' ->
  dt_tz ds' = ret None ->
  any (isnull ds') = false ->
  let df' := mkDataFrame (index df)
               (match index_name df with
                | Some n => if String.eqb n "ds" then None else Some n
                | None => None
                end)
               (od_set (od_set (columns df) "y" y') "ds" ds') in
  sort_values lib df' "ds" = ret sorted ->
  check_dataframe lib df = (df', ret (reset_index sorted)).
Proof.
  intros Hy Hds Hlen Hhist Hnull Hnum Hinf Hdsnull Hdt Htz Hnull' df' Hsort.
  unfold ret in *.
  unfold check_dataframe, mbind, this, when, mraise, mret, lift, assign, set_index_name.
  apply Z.eqb_neq in Hlen. rewrite Hlen.
  rewrite (getitem_contains _ _ _ Hy), (getitem_contains _ _ _ Hds).
  cbn [negb orb]. rewrite Hy. cbv beta iota.
  apply Z.ltb_ge in Hhist. rewrite Hhist, Hnull, Hnum. cbv beta iota.
  rewrite Hinf, Hds. cbv beta iota. rewrite Hdsnull. cbv beta iota.
  set (s1 := setitem df "y" y').
  subst df'. revert Hdt Hsort.
  destruct (is_int64 ds); cbv beta iota; intros Hdt Hsort.
  - rewrite getitem_setitem_same. cbn [bind ret].
    rewrite Hdt, Htz. cbn [negb is_none]. cbv beta iota. rewrite Hnull'.
    replace (setitem (setitem s1 "ds" (astype_str (int64_values ds))) "ds" ds')
      with (mkDataFrame (index df) (index_name df)
              (od_set (od_set (columns df) "y" y') "ds" ds'))
      by (unfold s1, setitem; simpl; f_equal; now rewrite od_set_set).
    cbn [index_name index columns].
    destruct (index_name df) as [n|]; [destruct (String.eqb n "ds")|];
      cbv beta iota; cbn [index index_name columns]; now rewrite Hsort.
  - unfold s1 at 1. rewrite getitem_setitem_other by discriminate.
    rewrite Hds. cbn [bind ret].
    rewrite Hdt, Htz. cbn [negb is_none]. cbv beta iota. rewrite Hnull'.
    replace (setitem s1 "ds" ds')
      with (mkDataFrame (index df) (index_name df)
              (od_set (od_set (columns df) "y" y') "ds" ds'))
      by (unfold s1, setitem; simpl; f_equal; now rewrite od_set_set).
    cbn [index_name index columns].
    destruct (index_name df) as [n|]; [destruct (String.eqb n "ds")|];
      cbv beta iota; cbn [index index_name columns]; now rewrite Hsort.
Qed.

(** ** The validator and the table it is given *)

(** C9, at a table whose dates are integers: after validation the
    caller's table holds timestamps where it held integers. *)
Lemma check_dataframe_changes_input :
  getitem int_dates_table "ds" = ret (ColInt [19700102; 19700101]) /\
  (exists out, snd (check_dataframe sample_library int_dates_table) = ret out) /\
  getitem (fst (check_dataframe sample_library int_dates_table)) "ds"
  = ret (ColDatetime None [Some day; Some 0]) /\
  fst (check_dataframe sample_library int_dates_table) <> int_dates_table.
Proof.
  assert (H : getitem (fst (check_dataframe sample_library int_dates_table)) "ds"
              = ret (ColDatetime None [Some day; Some 0])) by reflexivity.
  split; [reflexivity|].
  split; [eexists; reflexivity|].
  split; [exact H|].
  intros E. rewrite E in H. discriminate H.
Qed.

(** C9, as the code has it.  On a table it accepts, the validator
    assigns the coerced value and timestamp columns to the caller's table
    and clears an index name [ds] on it; the caller's row labels, row
    order and other columns stay as they were, and what is returned is a
    new table: the caller's table sorted by timestamp and re-indexed. *)
Theorem check_dataframe_frame (lib : Library) (df df' out : DataFrame) :
  check_dataframe lib df = (df', ret out) ->
  index df' = index df /\
  (forall name, name <> "y" -> name <> "ds" ->
                od_get (columns df') name = od_get (columns df) name) /\
  (exists y y', getitem df "y" = ret y /\ to_numeric lib y = ret y' /\
                getitem df' "y" = ret y') /\
  (exists ds ds',
      getitem df "ds" = ret ds /\
      to_datetime lib (if is_int64 ds then astype_str (int64_values ds) else ds)
      = ret ds' /\
      getitem df' "ds" = ret ds') /\
  index_name df' = match index_name df with
                   | Some n => if String.eqb n "ds" then None else Some n
                   | None => None
                   end /\
  exists sorted, sort_values lib df' "ds" = ret sorted /\ out = reset_index sorted.
Proof.
  intros H.
  destruct (check_dataframe_accepted lib df df' out H)
    as (y & ds & y' & ds' & sorted & Hy & Hds & _ & _ & _ & Hnum & _ & _ &
        Hdt & _ & _ & -> & Hsort & ->).
  split; [reflexivity|].
  split.
  { intros name Hn1 Hn2. simpl.
    rewrite od_get_set_other by congruence.
    now rewrite od_get_set_other by congruence. }
  split.
  { exists y, y'. repeat split; trivial.
    unfold getitem. simpl.
    rewrite od_get_set_other by discriminate.
    now rewrite od_get_set_same. }
  split.
  { exists ds, ds'. repeat split; trivial.
    unfold getitem. simpl. now rewrite od_get_set_same. }
  split; [reflexivity|].
  now exists sorted.
Qed.

(** The table with integer dates, latest first. *)
Lemma check_dataframe_frame_witness :
  let df := int_dates_table in
  let df' := fst (check_dataframe sample_library df) in
  index df' = index df /\
  (forall name, name <> "y" -> name <> "ds" ->
                od_get (columns df') name = od_get (columns df) name) /\
  (exists y y', getitem df "y" = ret y /\ to_numeric sample_library y = ret y' /\
                getitem df' "y" = ret y') /\
  (exists ds ds',
      getitem df "ds" = ret ds /\
      to_datetime sample_library
        (if is_int64 ds then astype_str (int64_values ds) else ds) = ret ds' /\
      getitem df' "ds" = ret ds') /\
  index_name df' = None /\
  exists sorted,
    sort_values sample_library df' "ds" = ret sorted /\
    reset_index
      (mkDataFrame [1; 0] None
         [("ds", ColDatetime None [Some 0; Some day]);
          ("y", ColFloat [Fin 2; Fin 1])])
    = reset_index sorted.
Proof.
  apply (check_dataframe_frame sample_library int_dates_table
           (fst (check_dataframe sample_library int_dates_table))
           (reset_index
              (mkDataFrame [1; 0] None
                 [("ds", ColDatetime None [Some 0; Some day]);
                  ("y", ColFloat [Fin 2; Fin 1])]))).
  reflexivity.
Defined.

(** ** Columns after coercion *)

Lemma traverse_length {A B : Type} (f : A -> option B) (l : list A)
  (l' : list B) : traverse f l = Some l' -> length l' = length l.
Proof.
  revert l'. induction l as [|a l IH]; simpl; intros l'.
  - now intros [= <-].
  - destruct (f a); [|discriminate].
    destruct (traverse f l); [|discriminate].
    intros [= <-]. simpl. f_equal. now apply IH.
Qed.

Lemma to_numeric_shape (lib : Library) (c c' : column) :
  to_numeric lib c = ret c' ->
  is_numeric c' = true /\ col_length c' = col_length c.
Proof.
  unfold to_numeric.
  destruct c as [l|l|tz l|l]; simpl.
  - now intros [= <-].
  - now intros [= <-].
  - intros [= <-]. simpl. now rewrite length_map.
  - destruct (traverse (numeric_of_obj lib) l) as [fs|] eqn:E; [|discriminate].
    intros [= <-]. simpl. split; [reflexivity|].
    now apply traverse_length in E.
Qed.

Lemma to_numeric_numeric (lib : Library) (c : column) :
  is_numeric c = true -> to_numeric lib c = ret c.
Proof. now destruct c. Qed.

Lemma datetime_of_objects_length (lib : Library) (l : list pyobj) (c : column) :
  datetime_of_objects lib l = ret c -> col_length c = length l.
Proof.
  unfold datetime_of_objects.
  destruct (traverse (datetime_of_obj lib) l) as [ps|] eqn:E; [|discriminate].
  destruct (common_tz ps) as [e|tz]; simpl; [discriminate|].
  intros [= <-]. simpl. rewrite length_map. now apply traverse_length in E.
Qed.

Lemma to_datetime_length (lib : Library) (c c' : column) :
  to_datetime lib c = ret c' -> col_length c' = col_length c.
Proof.
  unfold to_datetime. destruct c as [l|l|tz l|l]; simpl.
  - intros [= <-]. simpl. now rewrite length_map.
  - intros H. apply datetime_of_objects_length in H. now rewrite length_map in H.
  - now intros [= <-].
  - apply datetime_of_objects_length.
Qed.

Lemma astype_str_length (l : list Z) : col_length (astype_str l) = length l.
Proof. unfold astype_str. simpl. now rewrite length_map. Qed.

Lemma no_nat_timestamps (l : list nanos) :
  any (map is_none l) = false -> exists zs, l = map Some zs.
Proof.
  induction l as [|[z|] l IH]; simpl.
  - now exists [].
  - intros H. destruct (IH H) as (zs & ->). now exists (z :: zs).
  - discriminate.
Qed.

(** A column that passed the timezone check and the null check is a
    column of timestamps without timezone. *)
Lemma naive_datetime_column (c : column) :
  dt_tz c = ret None -> any (isnull c) = false ->
  exists zs, c = ColDatetime None (map Some zs).
Proof.
  destruct c as [l|l|tz l|l]; simpl; try discriminate.
  intros [= ->] H. destruct (no_nat_timestamps l H) as (zs & ->).
  now exists zs.
Qed.

Lemma od_get_map {V W : Type} (f : V -> W) (d : list (string * V)) (k : string) :
  od_get (map (fun nc => (fst nc, f (snd nc))) d) k = option_map f (od_get d k).
Proof.
  induction d as [|[k' v] d IH]; simpl; [reflexivity|].
  now destruct (String.eqb k k').
Qed.

(** ** Rows taken in a given order *)

Lemma take_length {A : Type} (d : A) (x : list A) (order : list nat) :
  length (take d x order) = length order.
Proof. apply length_map. Qed.

Lemma col_take_length (c : column) (order : list nat) :
  col_length (col_take c order) = length order.
Proof. destruct c; simpl; apply take_length. Qed.

Lemma map_nth_seq {A : Type} (d : A) (x : list A) :
  map (fun i => nth i x d) (seq 0 (length x)) = x.
Proof.
  induction x as [|a x IH]; simpl; [reflexivity|].
  f_equal. rewrite <- seq_shift, map_map. exact IH.
Qed.

Lemma take_all {A : Type} (d : A) (x : list A) :
  take d x (seq 0 (length x)) = x.
Proof. apply map_nth_seq. Qed.

Lemma take_permutation {A : Type} (d : A) (x : list A) (order : list nat) :
  Permutation order (seq 0 (length x)) -> Permutation (take d x order) x.
Proof.
  intros H. rewrite <- (map_nth_seq d x) at 2.
  unfold take. now apply Permutation_map.
Qed.

Lemma in_range_of_permutation (order : list nat) (n : nat) :
  Permutation order (seq 0 n) -> Forall (fun i => (i < n)%nat) order.
Proof.
  intros H. apply Forall_forall. intros i Hi.
  apply (Permutation_in _ H) in Hi. apply in_seq in Hi. lia.
Qed.

Lemma take_some (zs : list Z) (order : list nat) :
  Forall (fun i => (i < length zs)%nat) order ->
  take None (map Some zs) order = map Some (take 0 zs order).
Proof.
  intros H. unfold take. rewrite map_map.
  apply map_ext_in. intros i Hi.
  rewrite Forall_forall in H. specialize (H i Hi).
  rewrite (nth_indep _ None (Some 0)) by (now rewrite length_map).
  apply (map_nth Some).
Qed.

Lemma take_Forall {A : Type} (P : A -> Prop) (d : A) (x : list A)
  (order : list nat) :
  Forall P x -> P d -> Forall P (take d x order).
Proof.
  intros Hx Hd. unfold take. apply Forall_forall. intros a Ha.
  apply in_map_iff in Ha. destruct Ha as (i & <- & _).
  destruct (Nat.lt_ge_cases i (length x)).
  - rewrite Forall_forall in Hx. apply Hx. now apply nth_In.
  - now rewrite nth_overflow.
Qed.

(** ** Sorted timestamps *)

Lemma sorted_keys_sorted (zs : list Z) :
  Sorted (fun a b => key_leb a b = true) (map Some zs) -> nondecreasing zs.
Proof.
  unfold nondecreasing.
  induction zs as [|a zs IH]; simpl; intros H; [constructor|].
  apply Sorted_inv in H. destruct H as [Hs Hhd].
  constructor; [now apply IH|].
  destruct zs as [|b zs]; simpl in *; constructor.
  apply HdRel_inv in Hhd. simpl in Hhd. now apply Z.leb_le.
Qed.

Lemma nondecreasing_strong (zs : list Z) :
  nondecreasing zs -> StronglySorted Z.le zs.
Proof.
  apply Sorted_StronglySorted. intros a b c. apply Z.le_trans.
Qed.

Lemma strictly_increasing_strong (zs : list Z) :
  strictly_increasing zs -> StronglySorted Z.lt zs.
Proof.
  apply Sorted_StronglySorted. intros a b c. apply Z.lt_trans.
Qed.

(** Without a repeated timestamp, ascending order is strict. *)
Lemma nondecreasing_NoDup (zs : list Z) :
  nondecreasing zs -> NoDup zs -> strictly_increasing zs.
Proof.
  intros Hs Hnd. apply nondecreasing_strong in Hs.
  unfold strictly_increasing. apply StronglySorted_Sorted.
  induction Hs as [|a zs Hs IH Hall]; [constructor|].
  inversion Hnd as [|? ? Hnotin Hnd']; subst.
  constructor; [now apply IH|].
  apply Forall_forall. intros b Hb.
  rewrite Forall_forall in Hall. specialize (Hall b Hb).
  assert (a <> b) by (intros ->; contradiction). lia.
Qed.

Lemma strictly_increasing_NoDup (zs : list Z) :
  strictly_increasing zs -> NoDup zs.
Proof.
  intros Hs. apply strictly_increasing_strong in Hs.
  induction Hs as [|a zs Hs IH Hall]; constructor; trivial.
  intros Hin. rewrite Forall_forall in Hall. specialize (Hall a Hin). lia.
Qed.

Lemma strictly_increasing_nondecreasing (zs : list Z) :
  strictly_increasing zs -> nondecreasing zs.
Proof.
  unfold strictly_increasing, nondecreasing.
  induction 1 as [|a zs Hs IH Hhd]; constructor; trivial.
  destruct Hhd; constructor. lia.
Qed.

(** An ascending list is the only ascending rearrangement of itself. *)
Lemma sorted_permutation_unique (l1 l2 : list Z) :
  StronglySorted Z.le l1 -> StronglySorted Z.le l2 -> Permutation l1 l2 ->
  l1 = l2.
Proof.
  intros H1. revert l2. induction H1 as [|a l1 H1 IH Ha]; intros l2 H2 Hp.
  - now apply Permutation_nil in Hp.
  - destruct H2 as [|b l2 H2 Hb].
    + apply Permutation_sym, Permutation_nil in Hp. discriminate.
    + assert (a = b).
      { assert (Hina : In a (b :: l2))
          by (apply (Permutation_in _ Hp); now left).
        assert (Hinb : In b (a :: l1))
          by (apply (Permutation_in _ (Permutation_sym Hp)); now left).
        rewrite Forall_forall in Ha, Hb.
        destruct Hina as [->|Hina]; [reflexivity|].
        destruct Hinb as [->|Hinb]; [reflexivity|].
        specialize (Ha b Hinb). specialize (Hb a Hina). lia. }
      subst b. f_equal. apply IH; trivial.
      now apply Permutation_cons_inv in Hp.
Qed.

Lemma take_injective {A : Type} (d : A) (x : list A) (o1 o2 : list nat) :
  NoDup x ->
  Forall (fun i => (i < length x)%nat) o1 ->
  Forall (fun i => (i < length x)%nat) o2 ->
  take d x o1 = take d x o2 -> o1 = o2.
Proof.
  intros Hnd H1. revert o2.
  induction H1 as [|i o1 Hi H1 IH]; intros o2 H2 E.
  - destruct o2; [reflexivity|discriminate].
  - destruct H2 as [|j o2 Hj H2]; [discriminate|].
    simpl in E. injection E as Eij E.
    f_equal; [|now apply IH].
    now apply (proj1 (NoDup_nth x d) Hnd).
Qed.

(** On timestamps in strictly ascending order every correct sorting
    routine answers the identity. *)
Lemma argsort_strictly_increasing (f : list nanos -> list nat) (zs : list Z) :
  argsort_correct f -> strictly_increasing zs ->
  f (map Some zs) = seq 0 (length zs).
Proof.
  intros Hf Hs.
  destruct (Hf (map Some zs)) as [Hperm Hsorted].
  rewrite length_map in Hperm.
  pose proof (in_range_of_permutation _ _ Hperm) as Hrange.
  change (Sorted (fun a b => key_leb a b = true)
            (take None (map Some zs) (f (map Some zs)))) in Hsorted.
  rewrite take_some in Hsorted by exact Hrange.
  apply sorted_keys_sorted, nondecreasing_strong in Hsorted.
  assert (E : take 0 zs (f (map Some zs)) = zs).
  { apply sorted_permutation_unique; trivial.
    - now apply nondecreasing_strong, strictly_increasing_nondecreasing.
    - now apply take_permutation. }
  apply (take_injective 0 zs).
  - now apply strictly_increasing_NoDup.
  - exact Hrange.
  - apply Forall_forall. intros i Hi. apply in_seq in Hi. lia.
  - now rewrite take_all.
Qed.

(** ** What the validator returns *)

Lemma filter_mask_length {A : Type} (x : list A) (mask : list bool) :
  (length (filter_mask x mask) <= length x)%nat.
Proof.
  unfold filter_mask. rewrite length_map.
  etransitivity; [apply filter_length_le|].
  rewrite length_combine. lia.
Qed.

Lemma filter_mask_all {A : Type} (x : list A) (mask : list bool) :
  length mask = length x -> existsb negb mask = false ->
  filter_mask x mask = x.
Proof.
  unfold filter_mask. revert mask.
  induction x as [|a x IH]; intros [|b mask]; simpl; try discriminate; trivial.
  intros [= Hlen]. destruct b; simpl; [|discriminate].
  intros H. f_equal. now apply IH.
Qed.

Lemma isnull_length (c : column) : length (isnull c) = col_length c.
Proof. destruct c; simpl; apply length_map. Qed.

Lemma notnull_all (c : column) :
  any (isnull c) = false -> existsb negb (notnull c) = false.
Proof.
  unfold any, notnull. induction (isnull c) as [|b m IH]; simpl; trivial.
  destruct b; simpl; [discriminate|exact IH].
Qed.

Lemma col_take_all (c : column) : col_take c (seq 0 (col_length c)) = c.
Proof. destruct c; simpl; now rewrite take_all. Qed.

Lemma col_take_numeric (c : column) (order : list nat) :
  is_numeric c = true -> is_numeric (col_take c order) = true.
Proof. now destruct c. Qed.

Lemma any_map_false {A : Type} (p : A -> bool) (l : list A) :
  any (map p l) = false <-> Forall (fun a => p a = false) l.
Proof.
  unfold any. induction l as [|a l IH]; simpl.
  - split; trivial.
  - destruct (p a) eqn:E; simpl.
    + split; [discriminate|]. intros H. inversion H; congruence.
    + rewrite IH. split; [now constructor|]. intros H. now inversion H.
Qed.

Lemma col_take_isinf (c : column) (order : list nat) :
  is_numeric c = true -> any (col_isinf c) = false ->
  any (col_isinf (col_take c order)) = false.
Proof.
  destruct c as [l|l|tz l|l]; simpl; try discriminate; intros _.
  - intros _. apply any_map_false, Forall_forall. reflexivity.
  - rewrite !any_map_false. intros H. now apply take_Forall.
Qed.

Lemma setitem_wf (df : DataFrame) (name : string) (c : column) :
  wf df -> col_length c = length (index df) -> wf (setitem df name c).
Proof.
  unfold wf, setitem. simpl. intros H Hc. now apply od_set_Forall.
Qed.

(** The table a successful run returns, in terms of the caller's table
    after the run: the rows of that table in the order the sorting routine
    gives for its timestamps, labelled from zero. *)
Lemma check_dataframe_output (lib : Library) (df df' out : DataFrame) :
  argsort_correct (argsort lib) -> wf df ->
  check_dataframe lib df = (df', ret out) ->
  exists zs y' order,
    Permutation order (seq 0 (length (index df))) /\
    getitem df' "ds" = ret (ColDatetime None (map Some zs)) /\
    length zs = length (index df) /\
    getitem df' "y" = ret y' /\
    is_numeric y' = true /\ any (col_isinf y') = false /\
    (2 <= length (index df))%nat /\
    wf df' /\
    nondecreasing (take 0 zs order) /\
    out = mkDataFrame (range (len df)) None
            (map (fun nc => (fst nc, col_take (snd nc) order)) (columns df')).
Proof.
  intros Hsort Hwf H.
  destruct (check_dataframe_accepted lib df df' out H)
    as (y & ds & y' & ds' & sorted & Hy & Hds & _ & Hhist & _ & Hnum & Hinf & _ &
        Hdt & Htz & Hnull & Hdf' & Hsorted & ->).
  destruct (naive_datetime_column ds' Htz Hnull) as (zs & ->).
  destruct (to_numeric_shape lib y y' Hnum) as [Hnumeric Hylen].
  assert (Hzs : length zs = length (index df)).
  { apply to_datetime_length in Hdt. simpl in Hdt. rewrite length_map in Hdt.
    rewrite Hdt. rewrite <- (wf_getitem df "ds" ds Hwf Hds).
    destruct ds; simpl; trivial. now rewrite length_map. }
  assert (Hgetds : getitem df' "ds" = ret (ColDatetime None (map Some zs))).
  { subst df'. unfold getitem. simpl. now rewrite od_get_set_same. }
  assert (Hgety : getitem df' "y" = ret y').
  { subst df'. unfold getitem. simpl.
    rewrite od_get_set_other by discriminate. now rewrite od_get_set_same. }
  assert (Hwf' : wf df').
  { subst df'. unfold wf. simpl.
    apply od_set_Forall; [apply od_set_Forall; [exact Hwf|]|]; simpl.
    - rewrite Hylen. exact (wf_getitem df "y" y Hwf Hy).
    - now rewrite length_map. }
  unfold sort_values in Hsorted. rewrite Hgetds in Hsorted.
  cbn [bind ret] in Hsorted. injection Hsorted as <-.
  set (order := argsort lib (map Some zs)).
  destruct (Hsort (map Some zs)) as [Hperm Hsortedkeys].
  fold order in Hperm, Hsortedkeys.
  rewrite length_map, Hzs in Hperm.
  exists zs, y', order.
  split; [exact Hperm|]. split; [exact Hgetds|]. split; [exact Hzs|].
  split; [exact Hgety|]. split; [exact Hnumeric|]. split; [exact Hinf|].
  split.
  { pose proof (filter_mask_length (index df) (notnull y)) as Hle.
    unfold len, mask_rows in Hhist. simpl in Hhist. lia. }
  split; [exact Hwf'|].
  split.
  { apply sorted_keys_sorted. rewrite <- take_some.
    - exact Hsortedkeys.
    - rewrite Hzs. now apply in_range_of_permutation. }
  unfold reset_index, len. simpl. rewrite take_length.
  rewrite (Permutation_length Hperm), length_seq.
  subst df'. reflexivity.
Qed.

Lemma getitem_rows_taken (idx : list Z) (nm : option string)
  (cols : list (string * column)) (order : list nat) (name : string) (c : column) :
  od_get cols name = Some c ->
  getitem (mkDataFrame idx nm
             (map (fun nc => (fst nc, col_take (snd nc) order)) cols)) name
  = ret (col_take c order).
Proof.
  intros H. unfold getitem. simpl.
  rewrite (od_get_map (fun c => col_take c order)), H. reflexivity.
Qed.

Lemma getitem_od_get (df : DataFrame) (name : string) (c : column) :
  getitem df name = ret c <-> od_get (columns df) name = Some c.
Proof.
  unfold getitem. destruct (od_get (columns df) name); split;
    intros [= ->] || discriminate; reflexivity.
Qed.

Lemma od_get_In {V : Type} (d : list (string * V)) (k : string) (v : V) :
  od_get d k = Some v -> In (k, v) d.
Proof.
  induction d as [|[k' v'] d IH]; simpl; [discriminate|].
  destruct (String.eqb_spec k k') as [<-|Hne].
  - intros [= ->]. now left.
  - intros H. right. now apply IH.
Qed.

Lemma range_of_nat_length (n : nat) : length (range (Z.of_nat n)) = n.
Proof. rewrite range_length. lia. Qed.

(** A table labelled from zero, whose timestamps are strictly ascending
    and whose columns have the length of the index, is what
    [sort_values] and [reset_index] return for it. *)
Lemma sort_reset_fixed (lib : Library) (n : nat) (cols : list (string * column))
  (zs : list Z) :
  argsort_correct (argsort lib) ->
  Forall (fun nc => col_length (snd nc) = n) cols ->
  od_get cols "ds" = Some (ColDatetime None (map Some zs)) ->
  strictly_increasing zs ->
  let out := mkDataFrame (range (Z.of_nat n)) None cols in
  sort_values lib out "ds" = ret out /\ reset_index out = out.
Proof.
  intros Hsort Hcols Hds Hs out.
  assert (Hzs : length zs = n).
  { rewrite Forall_forall in Hcols.
    pose proof (od_get_In _ _ _ Hds) as Hin.
    specialize (Hcols _ Hin). simpl in Hcols. now rewrite length_map in Hcols. }
  split.
  - unfold sort_values, getitem. subst out. simpl. rewrite Hds. cbn [bind ret].
    rewrite (argsort_strictly_increasing _ zs Hsort Hs), Hzs.
    f_equal. f_equal.
    + rewrite <- (range_of_nat_length n) at 2. apply take_all.
    + rewrite <- (map_id cols) at 2. apply map_ext_in.
      intros [k c] Hin. simpl. f_equal.
      rewrite Forall_forall in Hcols. specialize (Hcols _ Hin). simpl in Hcols.
      rewrite <- Hcols. apply col_take_all.
  - unfold reset_index, len. subst out. simpl.
    now rewrite range_of_nat_length.
Qed.

(** C7, at a table with one timestamp twice: the validator accepts it and
    returns the two equal timestamps side by side, which is ascending
    order but not strictly ascending order. *)
Lemma check_dataframe_keeps_ties :
  exists out,
    snd (check_dataframe sample_library ties_table) = ret out /\
    getitem out "ds" = ret (ColDatetime None (map Some [0; 0])) /\
    nondecreasing [0; 0] /\
    ~ strictly_increasing [0; 0].
Proof.
  eexists. split; [reflexivity|]. split; [reflexivity|].
  split.
  - repeat constructor. lia.
  - intros H. apply Sorted_inv in H. destruct H as [_ H].
    apply HdRel_inv in H. lia.
Qed.

(** C7, as the code has it.  The table the validator returns has its
    timestamps in ascending order (strictly ascending when no timestamp
    occurs twice: the validator keeps repeated timestamps) and a dense
    zero-based row index; and when no timestamp occurs twice and the
    coerced values hold no missing value, validating that table again
    leaves it unchanged and returns it. *)
Theorem check_dataframe_sorted_fixed_point (lib : Library)
  (df df' out : DataFrame) :
  argsort_correct (argsort lib) -> wf df ->
  check_dataframe lib df = (df', ret out) ->
  exists zs,
    getitem out "ds" = ret (ColDatetime None (map Some zs)) /\
    nondecreasing zs /\
    (NoDup zs -> strictly_increasing zs) /\
    index out = range (len out) /\
    len out = len df /\
    (NoDup zs -> no_missing_value out ->
     check_dataframe lib out = (out, ret out)).
Proof.
  intros Hsort Hwf H.
  destruct (check_dataframe_output lib df df' out Hsort Hwf H)
    as (zs & y' & order & Hperm & Hds & Hzs & Hy & Hnumeric & Hinf & Hn & Hwf' &
        Hsorted & ->).
  set (n := length (index df)) in *.
  assert (Hrange : Forall (fun i => (i < length zs)%nat) order)
    by (rewrite Hzs; now apply in_range_of_permutation).
  assert (Horder : length order = n)
    by (now rewrite (Permutation_length Hperm), length_seq).
  set (cols := map (fun nc => (fst nc, col_take (snd nc) order)) (columns df')).
  assert (Hcols : Forall (fun nc => col_length (snd nc) = n) cols).
  { unfold cols. apply Forall_forall. intros nc Hin.
    apply in_map_iff in Hin. destruct Hin as (nc' & <- & _). simpl.
    now rewrite col_take_length. }
  assert (Hods : od_get cols "ds"
                 = Some (ColDatetime None (map Some (take 0 zs order)))).
  { unfold cols. rewrite (od_get_map (fun c => col_take c order)).
    apply getitem_od_get in Hds. rewrite Hds. simpl.
    now rewrite take_some. }
  assert (Hoy : od_get cols "y" = Some (col_take y' order)).
  { unfold cols. rewrite (od_get_map (fun c => col_take c order)).
    apply getitem_od_get in Hy. now rewrite Hy. }
  unfold len at 3. fold n.
  exists (take 0 zs order).
  split; [now apply getitem_od_get|].
  split; [exact Hsorted|].
  split; [now apply nondecreasing_NoDup|].
  split.
  { unfold len. simpl. now rewrite range_of_nat_length. }
  split.
  { unfold len. simpl. now rewrite range_of_nat_length. }
  intros Hnd Hmiss.
  pose proof (nondecreasing_NoDup _ Hsorted Hnd) as Hstrict.
  destruct (sort_reset_fixed lib n cols (take 0 zs order) Hsort Hcols Hods Hstrict)
    as [Hsv Hreset].
  set (out := mkDataFrame (range (Z.of_nat n)) None cols) in *.
  assert (Hynull : any (isnull (col_take y' order)) = false)
    by (apply Hmiss; now apply getitem_od_get).
  pose proof (check_dataframe_run lib out (col_take y' order)
                (ColDatetime None (map Some (take 0 zs order)))
                (col_take y' order)
                (ColDatetime None (map Some (take 0 zs order))) out) as Hrun.
  cbn zeta in Hrun.
  replace (mkDataFrame (index out)
             match index_name out with
             | Some n0 => if (n0 =? "ds")%string then None else Some n0
             | None => None
             end
             (od_set (od_set (columns out) "y" (col_take y' order)) "ds"
                (ColDatetime None (map Some (take 0 zs order)))))
    with out in Hrun.
  2:{ unfold out. simpl. f_equal.
      rewrite (od_set_same cols "y") by exact Hoy.
      now rewrite (od_set_same cols "ds") by exact Hods. }
  rewrite Hreset in Hrun. apply Hrun; clear Hrun.
  - now apply getitem_od_get.
  - now apply getitem_od_get.
  - unfold len, out. simpl. rewrite range_of_nat_length. lia.
  - unfold mask_rows, len, out. simpl.
    rewrite filter_mask_all.
    + rewrite range_of_nat_length. lia.
    + unfold notnull. rewrite length_map, isnull_length, col_take_length.
      now rewrite range_of_nat_length.
    + now apply notnull_all.
  - exact Hynull.
  - apply to_numeric_numeric. now apply col_take_numeric.
  - now apply col_take_isinf.
  - simpl. apply any_map_false, Forall_forall. intros a Ha.
    apply in_map_iff in Ha. now destruct Ha as (z & <- & _).
  - reflexivity.
  - reflexivity.
  - simpl. apply any_map_false, Forall_forall. intros a Ha.
    apply in_map_iff in Ha. now destruct Ha as (z & <- & _).
  - exact Hsv.
Qed.

(** ** The sorting routine of the examples is a sorting routine *)

Lemma key_leb_total (a b : nanos) : key_leb a b = false -> key_leb b a = true.
Proof.
  destruct a as [x|], b as [y|]; simpl; trivial; try discriminate.
  intros H. apply Z.leb_gt in H. apply Z.leb_le. lia.
Qed.

Lemma insert_key_permutation (before : nanos -> nanos -> bool) (k : nanos)
  (i : nat) (l : list (nanos * nat)) :
  Permutation (insert_key before k i l) ((k, i) :: l).
Proof.
  induction l as [|[k' i'] l IH]; simpl; [reflexivity|].
  destruct (before k k'); [reflexivity|].
  rewrite IH. apply perm_swap.
Qed.

Lemma insert_key_sorted (before : nanos -> nanos -> bool) (k : nanos) (i : nat)
  (l : list (nanos * nat)) :
  respects_order before ->
  Sorted (fun a b => key_leb a b = true) (map fst l) ->
  Sorted (fun a b => key_leb a b = true) (map fst (insert_key before k i l)).
Proof.
  intros Hb. induction l as [|[k' i'] l IH]; simpl; intros H.
  - repeat constructor.
  - destruct (Hb k k') as [Hfront Hbehind].
    destruct (before k k') eqn:E; simpl.
    + constructor; [exact H|]. constructor. now apply Hfront.
    + apply Sorted_inv in H. destruct H as [Hs Hhd].
      constructor; [now apply IH|].
      destruct l as [|[k'' i''] l]; simpl in *.
      * constructor. now apply Hbehind.
      * destruct (before k k''); simpl; constructor.
        -- now apply Hbehind.
        -- now apply HdRel_inv in Hhd.
Qed.

Lemma combine_seq_nth (ks : list nanos) (s : nat) (k : nanos) (i : nat) :
  In (k, i) (combine ks (seq s (length ks))) ->
  (s <= i)%nat /\ nth (i - s) ks None = k.
Proof.
  revert s. induction ks as [|a ks IH]; simpl; intros s; [contradiction|].
  intros [[= -> ->]|Hin].
  - rewrite Nat.sub_diag. split; [lia|reflexivity].
  - destruct (IH (S s) Hin) as [Hle Hnth]. split; [lia|].
    replace (i - s)%nat with (S (i - S s)) by lia. exact Hnth.
Qed.

Lemma map_snd_combine_seq {A : Type} (x : list A) (s : nat) :
  map snd (combine x (seq s (length x))) = seq s (length x).
Proof.
  revert s. induction x as [|a x IH]; simpl; intros s; [reflexivity|].
  now rewrite IH.
Qed.

Lemma insertion_pairs_permutation (before : nanos -> nanos -> bool)
  (ps : list (nanos * nat)) :
  Permutation
    (fold_right (fun p acc => insert_key before (fst p) (snd p) acc) [] ps) ps.
Proof.
  induction ps as [|[k i] ps IH]; simpl; [reflexivity|].
  rewrite insert_key_permutation. now constructor.
Qed.

Lemma insertion_pairs_sorted (before : nanos -> nanos -> bool)
  (ps : list (nanos * nat)) :
  respects_order before ->
  Sorted (fun a b => key_leb a b = true)
    (map fst (fold_right (fun p acc => insert_key before (fst p) (snd p) acc)
                [] ps)).
Proof.
  intros Hb. induction ps as [|[k i] ps IH]; simpl; [constructor|].
  now apply insert_key_sorted.
Qed.

Lemma insertion_argsort_by_correct (before : nanos -> nanos -> bool) :
  respects_order before -> argsort_correct (insertion_argsort_by before).
Proof.
  intros Hb ks. unfold insertion_argsort_by.
  set (pairs := combine ks (seq 0 (length ks))).
  pose proof (insertion_pairs_permutation before pairs) as Hperm.
  pose proof (insertion_pairs_sorted before pairs Hb) as Hsorted.
  set (sorted := fold_right (fun p acc => insert_key before (fst p) (snd p) acc)
                   [] pairs) in *.
  split.
  - rewrite <- (map_snd_combine_seq ks 0). fold pairs.
    now apply Permutation_map.
  - replace (map (fun i => nth i ks None) (map snd sorted)) with (map fst sorted);
      [exact Hsorted|].
    rewrite map_map. apply map_ext_in. intros [k i] Hin. simpl.
    apply (Permutation_in _ Hperm) in Hin.
    destruct (combine_seq_nth ks 0 k i Hin) as [_ Hnth].
    now rewrite Nat.sub_0_r in Hnth.
Qed.

Lemma insertion_argsort_correct : argsort_correct insertion_argsort.
Proof.
  apply insertion_argsort_by_correct. intros k k'. split; trivial.
  apply key_leb_total.
Qed.

Lemma reversing_argsort_correct : argsort_correct reversing_argsort.
Proof.
  apply insertion_argsort_by_correct. intros k k'. split.
  - intros H. apply negb_true_iff in H. now apply key_leb_total.
  - intros H. now apply negb_false_iff in H.
Qed.

(** Why the fixed point asks for timestamps without repetition: a sorting
    routine may order equal timestamps as it likes.  With the routine that
    reverses them, a second validation swaps the two rows back. *)
Lemma check_dataframe_ties_reordered :
  exists out out',
    snd (check_dataframe reversing_library ties_table) = ret out /\
    snd (check_dataframe reversing_library out) = ret out' /\
    getitem out "y" = ret (ColFloat [Fin 2; Fin 1]) /\
    getitem out' "y" = ret (ColFloat [Fin 1; Fin 2]).
Proof. eexists _, _. repeat split; reflexivity. Qed.

(** Why the fixed point asks for values without a missing one: the check
    for missing values comes before the numeric coercion, and the
    coercion reads the string nan as NaN.  The table is accepted once and
    rejected the second time. *)
Lemma check_dataframe_nan_from_string :
  exists out,
    snd (check_dataframe sample_library nan_string_table) = ret out /\
    getitem out "y" = ret (ColFloat [NaN; of_int 1; of_int 2]) /\
    snd (check_dataframe sample_library out)
    = raise (ValueError "Dataframe contains NaN values in y.").
Proof. eexists. repeat split; reflexivity. Qed.

(** The table with integer dates, validated with the sorting routine of the
    examples. *)
Lemma check_dataframe_sorted_fixed_point_witness :
  let out := mkDataFrame [0; 1] None
               [("ds", ColDatetime None [Some 0; Some day]);
                ("y", ColFloat [Fin 2; Fin 1])] in
  exists zs,
    getitem out "ds" = ret (ColDatetime None (map Some zs)) /\
    nondecreasing zs /\
    (NoDup zs -> strictly_increasing zs) /\
    index out = range (len out) /\
    len out = len int_dates_table /\
    (NoDup zs -> no_missing_value out ->
     check_dataframe sample_library out = (out, ret out)).
Proof.
  apply (check_dataframe_sorted_fixed_point sample_library int_dates_table
           (fst (check_dataframe sample_library int_dates_table))).
  - exact insertion_argsort_correct.
  - repeat constructor.
  - reflexivity.
Defined.

(** ** Scale parameters *)

Lemma ts_min_from (l : list Z) (a : Z) :
  exists m,
    fold_left (fun acc o =>
                 match acc, o with
                 | Some a, Some x => Some (Z.min a x)
                 | None, _ => o
                 | _, None => acc
                 end) (map Some l) (Some a) = Some m /\
    (m = a \/ In m l) /\ m <= a /\ forall d, In d l -> m <= d.
Proof.
  revert a. induction l as [|x l IH]; intros a; simpl.
  - exists a. split; [reflexivity|]. split; [now left|].
    split; [lia|]. intros d [].
  - destruct (IH (Z.min a x)) as (m & -> & Hin & Hle & Hall).
    exists m. split; [reflexivity|].
    split; [|split].
    + destruct Hin as [->|Hin]; [|tauto].
      destruct (Z.min_spec a x) as [[_ ->]|[_ ->]]; tauto.
    + lia.
    + intros d [<-|Hd]; [lia|auto].
Qed.

Lemma ts_max_from (l : list Z) (a : Z) :
  exists m,
    fold_left (fun acc o =>
                 match acc, o with
                 | Some a, Some x => Some (Z.max a x)
                 | None, _ => o
                 | _, None => acc
                 end) (map Some l) (Some a) = Some m /\
    (m = a \/ In m l) /\ a <= m /\ forall d, In d l -> d <= m.
Proof.
  revert a. induction l as [|x l IH]; intros a; simpl.
  - exists a. split; [reflexivity|]. split; [now left|].
    split; [lia|]. intros d [].
  - destruct (IH (Z.max a x)) as (m & -> & Hin & Hle & Hall).
    exists m. split; [reflexivity|].
    split; [|split].
    + destruct Hin as [->|Hin]; [|tauto].
      destruct (Z.max_spec a x) as [[_ ->]|[_ ->]]; tauto.
    + lia.
    + intros d [<-|Hd]; [lia|auto].
Qed.

(** The minimum of timestamps without NaT is one of them and below all. *)
Lemma ts_min_spec (l : list Z) :
  l <> [] ->
  exists m, ts_min (map Some l) = Some m /\ In m l /\ forall d, In d l -> m <= d.
Proof.
  destruct l as [|a l]; [congruence|]. intros _.
  unfold ts_min. simpl.
  destruct (ts_min_from l a) as (m & -> & Hin & Hle & Hall).
  exists m. split; [reflexivity|]. split.
  - simpl. destruct Hin; auto.
  - intros d [<-|Hd]; auto.
Qed.

Lemma ts_max_spec (l : list Z) :
  l <> [] ->
  exists m, ts_max (map Some l) = Some m /\ In m l /\ forall d, In d l -> d <= m.
Proof.
  destruct l as [|a l]; [congruence|]. intros _.
  unfold ts_max. simpl.
  destruct (ts_max_from l a) as (m & -> & Hin & Hle & Hall).
  exists m. split; [reflexivity|]. split.
  - simpl. destruct Hin; auto.
  - intros d [<-|Hd]; auto.
Qed.

Lemma sum_from (l : list R) (a : R) :
  fold_left fadd (map Fin l) (Fin a) = Fin (a + Rsum l).
Proof.
  revert a. induction l as [|x l IH]; intros a; simpl.
  - f_equal. lra.
  - unfold fadd at 2. rewrite IH. f_equal. lra.
Qed.

Lemma sum_finite (l : list R) : sum (map Fin l) = Fin (Rsum l).
Proof. unfold sum. rewrite sum_from. f_equal. lra. Qed.

Lemma mean_finite (l : list R) :
  l <> [] -> mean (map Fin l) = Fin (Rsum l / INR (length l)).
Proof.
  intros Hl. unfold mean. rewrite sum_finite, length_map.
  apply fdiv_fin. apply not_0_INR. destruct l; [congruence|discriminate].
Qed.

Lemma Rsum_nonneg (l : list R) :
  Forall (fun x => (0 <= x)%R) l -> (0 <= Rsum l)%R.
Proof.
  induction 1 as [|x l Hx Hl IH]; simpl; lra.
Qed.

(** The standard deviation numpy computes: the root of the mean squared
    deviation from the mean. *)
Lemma std_finite (l : list R) :
  l <> [] ->
  let mu := (Rsum l / INR (length l))%R in
  let var := (Rsum (map (fun y => (y - mu) * (y - mu)) l) / INR (length l))%R in
  std (map Fin l) = Fin (sqrt var) /\ (0 <= var)%R.
Proof.
  intros Hl mu var.
  assert (Hn : (0 < INR (length l))%R).
  { apply lt_0_INR. destruct l; [congruence|simpl; lia]. }
  assert (Hvar : (0 <= var)%R).
  { unfold var. apply Rmult_le_pos.
    - apply Rsum_nonneg, Forall_forall. intros x Hx.
      apply in_map_iff in Hx. destruct Hx as (y & <- & _).
      apply Rle_0_sqr.
    - left. now apply Rinv_0_lt_compat. }
  split; [|exact Hvar].
  unfold std. cbv zeta. rewrite (mean_finite l Hl). fold mu.
  rewrite map_map.
  replace (map (fun x => fmul (fabs (fsub (Fin x) (Fin mu)))
                           (fabs (fsub (Fin x) (Fin mu)))) l)
    with (map Fin (map (fun y => (y - mu) * (y - mu))%R l)).
  - rewrite mean_finite by (destruct l; [congruence|discriminate]).
    rewrite length_map. fold var.
    unfold fsqrt, Rneg. destruct (Rlt_dec var 0); [lra|reflexivity].
  - rewrite map_map. apply map_ext. intros y.
    unfold fsub, fneg, fadd, fabs, fmul. f_equal.
    fold (Rminus y mu).
    rewrite <- Rabs_mult. symmetry. apply Rabs_pos_eq. apply Rle_0_sqr.
Qed.

Lemma float_values_length (c : column) (l : list float64) :
  float_values c = ret l -> length l = col_length c.
Proof.
  destruct c; simpl; try discriminate; intros [= <-]; trivial.
  apply length_map.
Qed.

Lemma validated_lengths (df : DataFrame) (ds : list Z) (ys : list R) :
  validated df ds ys -> length ys = length ds /\ ys <> [] /\ ds <> [].
Proof.
  intros (Hwf & Hds & (y & Hy & Hvals) & _ & Hn).
  apply (wf_getitem _ _ _ Hwf) in Hds, Hy. simpl in Hds.
  apply float_values_length in Hvals.
  rewrite !length_map in *.
  assert (length ys = length ds) by congruence.
  repeat split; trivial; intros ->; simpl in *; lia.
Qed.

(** [init_data_params] on a validated table, evaluated. *)
Lemma init_data_params_validated (df : DataFrame) (ds : list Z) (ys : list R)
  (normalize_y : bool) :
  validated df ds ys ->
  exists lo hi,
    init_data_params df normalize_y None
    = ret (mkParams (Some lo) (Some (hi - lo))
             (Some (if normalize_y then mean (map Fin ys) else Fin 0))
             (Some (if normalize_y then std (map Fin ys) else Fin 1))) /\
    In lo ds /\ (forall d, In d ds -> lo <= d) /\
    In hi ds /\ (forall d, In d ds -> d <= hi).
Proof.
  intros Hv. destruct (validated_lengths df ds ys Hv) as (_ & _ & Hne).
  destruct Hv as (_ & Hds & (y & Hy & Hvals) & _ & _).
  destruct (ts_min_spec ds Hne) as (lo & Hmin & Hlo_in & Hlo).
  destruct (ts_max_spec ds Hne) as (hi & Hmax & Hhi_in & Hhi).
  exists lo, hi. split; [|tauto].
  unfold init_data_params, scale_params.
  rewrite Hds. cbn [datetimes bind ret].
  rewrite Hmin, Hmax. rewrite (getitem_contains _ _ _ Hy).
  destruct normalize_y; [|reflexivity].
  rewrite Hy. cbn [bind ret]. rewrite Hvals. reflexivity.
Qed.

(** C8.  On a validated table and without a cut index, [time_origin] is
    the least timestamp and [time_span] the greatest minus the least;
    with normalization [value_shift] is the mean of the values and
    [value_scale] their standard deviation (the non-negative root of the
    mean squared deviation from the mean), without it they are 0 and 1. *)
Theorem init_data_params_estimates (df : DataFrame) (ds : list Z)
  (ys : list R) (normalize_y : bool) :
  validated df ds ys ->
  exists p lo hi shift scale,
    init_data_params df normalize_y None = ret p /\
    t_start p = Some lo /\ In lo ds /\ (forall d, In d ds -> lo <= d) /\
    t_scale p = Some (hi - lo) /\ In hi ds /\ (forall d, In d ds -> d <= hi) /\
    y_shift p = Some (Fin shift) /\ y_scale p = Some (Fin scale) /\
    (normalize_y = true ->
     (shift * INR (length ys) = Rsum ys)%R /\
     (0 <= scale)%R /\
     (scale * scale * INR (length ys)
      = Rsum (map (fun y => (y - shift) * (y - shift)) ys))%R) /\
    (normalize_y = false -> shift = 0%R /\ scale = 1%R).
Proof.
  intros Hv.
  destruct (validated_lengths df ds ys Hv) as (_ & Hys & _).
  destruct (init_data_params_validated df ds ys normalize_y Hv)
    as (lo & hi & Hp & Hlo_in & Hlo & Hhi_in & Hhi).
  assert (Hn : INR (length ys) <> 0%R).
  { apply not_0_INR. destruct ys; [congruence|discriminate]. }
  destruct normalize_y.
  - destruct (std_finite ys Hys) as [Hstd Hvar].
    rewrite (mean_finite ys Hys), Hstd in Hp.
    eexists _, lo, hi, _, _. split; [exact Hp|]. simpl.
    repeat split; trivial; try discriminate.
    + field. exact Hn.
    + apply sqrt_pos.
    + rewrite sqrt_sqrt by exact Hvar. field. exact Hn.
  - eexists _, lo, hi, _, _. split; [exact Hp|]. simpl.
    repeat split; trivial; discriminate.
Qed.

Lemma raw_table_validated :
  validated (raw_table 3) (days 3) (map INR (seq 0 3)).
Proof.
  split; [repeat constructor|].
  split; [reflexivity|].
  split; [eexists; split; reflexivity|].
  split.
  - unfold nondecreasing, days, day. simpl. repeat constructor; lia.
  - simpl. lia.
Qed.

(** Three days carrying the values 0, 1, 2, with normalization. *)
Lemma init_data_params_estimates_witness :
  exists p lo hi shift scale,
    init_data_params (raw_table 3) true None = ret p /\
    t_start p = Some lo /\ In lo (days 3) /\
    (forall d, In d (days 3) -> lo <= d) /\
    t_scale p = Some (hi - lo) /\ In hi (days 3) /\
    (forall d, In d (days 3) -> d <= hi) /\
    y_shift p = Some (Fin shift) /\ y_scale p = Some (Fin scale) /\
    (true = true ->
     (shift * INR (length (map INR (seq 0 3))) = Rsum (map INR (seq 0 3)))%R /\
     (0 <= scale)%R /\
     (scale * scale * INR (length (map INR (seq 0 3)))
      = Rsum (map (fun y => (y - shift) * (y - shift)) (map INR (seq 0 3))))%R) /\
    (true = false -> shift = 0%R /\ scale = 1%R).
Proof.
  apply (init_data_params_estimates (raw_table 3) (days 3) (map INR (seq 0 3)) true).
  exact raw_table_validated.
Defined.

(** ** Normalization and back *)

Lemma contains_setitem_other (df : DataFrame) (name name' : string) (c : column) :
  name <> name' -> contains (setitem df name c) name' = contains df name'.
Proof.
  intros H. unfold contains, setitem. simpl. now rewrite od_get_set_other.
Qed.

(** [normalize] on a validated table, for finite scale parameters. *)
Lemma normalize_validated (df : DataFrame) (ds : list Z) (ys : list R)
  (origin span : Z) (shift scale : float64) :
  validated df ds ys ->
  normalize df (mkParams (Some origin) (Some span) (Some shift) (Some scale))
  = ret (setitem
           (setitem df "t"
              (ColFloat (map (fun d => fdiv (of_int (d - origin)) (of_int span)) ds)))
           "y_scaled"
           (ColFloat (map (fun y => fdiv (fsub (Fin y) shift) scale) ys))).
Proof.
  intros (_ & Hds & (y & Hy & Hvals) & _ & _).
  unfold normalize. rewrite Hds. cbn [datetimes bind ret t_start t_scale].
  rewrite contains_setitem_other by discriminate.
  rewrite (getitem_contains _ _ _ Hy).
  rewrite getitem_setitem_other by discriminate.
  rewrite Hy. cbn [bind ret attr y_shift y_scale]. rewrite Hvals.
  cbn [bind ret]. now rewrite !map_map.
Qed.

Lemma nth_map_default {A B : Type} (f : A -> B) (l : list A) (i : nat)
  (a : A) (b : B) :
  (i < length l)%nat -> nth i (map f l) b = f (nth i l a).
Proof.
  intros H. rewrite (nth_indep _ b (f a)) by (now rewrite length_map).
  apply map_nth.
Qed.

(** C4.  On a validated table, with the scale parameters the estimator
    computes from it and provided [time_span] and [value_scale] are not
    zero, normalization can be undone row by row:
    [t * time_span + time_origin] is the row's timestamp and
    [y_scaled * value_scale + value_shift] the row's value. *)
Theorem normalize_round_trip (df : DataFrame) (ds : list Z) (ys : list R)
  (normalize_y : bool) (p : data_params) :
  validated df ds ys ->
  init_data_params df normalize_y None = ret p ->
  t_scale p <> Some 0 ->
  y_scale p <> Some (Fin 0) ->
  exists df' origin span shift scale t y_scaled,
    normalize df p = ret df' /\
    t_start p = Some origin /\ t_scale p = Some span /\
    y_shift p = Some shift /\ y_scale p = Some scale /\
    getitem df' "t" = ret (ColFloat t) /\
    getitem df' "y_scaled" = ret (ColFloat y_scaled) /\
    length t = length ds /\ length y_scaled = length ys /\
    (forall i, (i < length ds)%nat ->
       fadd (fmul (nth i t NaN) (of_int span)) (of_int origin)
       = of_int (nth i ds 0)) /\
    (forall i, (i < length ys)%nat ->
       fadd (fmul (nth i y_scaled NaN) scale) shift = Fin (nth i ys 0%R)).
Proof.
  intros Hv Hp Hspan Hscale.
  destruct (validated_lengths df ds ys Hv) as (_ & Hys & _).
  destruct (init_data_params_validated df ds ys normalize_y Hv)
    as (lo & hi & Hp' & _).
  rewrite Hp in Hp'. injection Hp' as ->.
  simpl in Hspan, Hscale.
  assert (Hspan' : IZR (hi - lo) <> 0%R).
  { apply not_0_IZR. intros E. apply Hspan. now rewrite E. }
  assert (Hfin : exists mu sigma,
             (if normalize_y then mean (map Fin ys) else Fin 0) = Fin mu /\
             (if normalize_y then std (map Fin ys) else Fin 1) = Fin sigma).
  { destruct normalize_y; [|now eexists _, _].
    destruct (std_finite ys Hys) as [Hstd _].
    rewrite (mean_finite ys Hys), Hstd. now eexists _, _. }
  destruct Hfin as (mu & sigma & Hmu & Hsigma).
  rewrite Hmu, Hsigma in *.
  assert (Hsigma' : sigma <> 0%R) by (intros ->; now apply Hscale).
  eexists _, lo, (hi - lo), (Fin mu), (Fin sigma), _, _.
  split; [exact (normalize_validated df ds ys lo (hi - lo) (Fin mu) (Fin sigma) Hv)|].
  simpl t_start. simpl t_scale. simpl y_shift. simpl y_scale.
  repeat split.
  - rewrite getitem_setitem_other by discriminate. apply getitem_setitem_same.
  - apply getitem_setitem_same.
  - apply length_map.
  - apply length_map.
  - intros i Hi.
    rewrite (nth_map_default _ ds i 0) by exact Hi.
    unfold of_int. rewrite fdiv_fin by exact Hspan'.
    unfold fmul, fadd. f_equal. rewrite !minus_IZR in *. field. exact Hspan'.
  - intros i Hi.
    rewrite (nth_map_default _ ys i 0%R) by exact Hi.
    unfold fsub, fneg. unfold fadd at 2. rewrite fdiv_fin by exact Hsigma'.
    unfold fmul, fadd. f_equal. field. exact Hsigma'.
Qed.

Lemma raw_table_std_positive :
  exists sigma, std (map Fin (map INR (seq 0 3))) = Fin sigma /\ (0 < sigma)%R.
Proof.
  destruct (std_finite (map INR (seq 0 3))) as [Hstd _]; [discriminate|].
  eexists. split; [exact Hstd|].
  apply sqrt_lt_R0. simpl. nra.
Qed.

(** Three days carrying the values 0, 1, 2: the span is two days and the
    standard deviation is positive. *)
Lemma normalize_round_trip_witness :
  let p := mkParams (Some 0) (Some (2 * day - 0))
             (Some (mean (map Fin (map INR (seq 0 3)))))
             (Some (std (map Fin (map INR (seq 0 3))))) in
  exists df' origin span shift scale t y_scaled,
    normalize (raw_table 3) p = ret df' /\
    t_start p = Some origin /\ t_scale p = Some span /\
    y_shift p = Some shift /\ y_scale p = Some scale /\
    getitem df' "t" = ret (ColFloat t) /\
    getitem df' "y_scaled" = ret (ColFloat y_scaled) /\
    length t = length (days 3) /\
    length y_scaled = length (map INR (seq 0 3)) /\
    (forall i, (i < length (days 3))%nat ->
       fadd (fmul (nth i t NaN) (of_int span)) (of_int origin)
       = of_int (nth i (days 3) 0)) /\
    (forall i, (i < length (map INR (seq 0 3)))%nat ->
       fadd (fmul (nth i y_scaled NaN) scale) shift
       = Fin (nth i (map INR (seq 0 3)) 0%R)).
Proof.
  apply (normalize_round_trip (raw_table 3) (days 3) (map INR (seq 0 3)) true).
  - exact raw_table_validated.
  - reflexivity.
  - simpl. discriminate.
  - cbn [y_scale]. destruct raw_table_std_positive as (sigma & -> & Hpos).
    intros [= E]. lra.
Defined.

(** ** The validator establishes what the later stages assume *)

Lemma finite_floats (l : list float64) :
  any (map isinf l) = false -> any (map isnan l) = false ->
  exists ys, l = map Fin ys.
Proof.
  induction l as [|[r|s|] l IH]; simpl; try discriminate.
  - now exists [].
  - intros Hinf Hnan. destruct (IH Hinf Hnan) as (ys & ->).
    now exists (r :: ys).
Qed.

Lemma finite_values (c : column) :
  is_numeric c = true -> any (col_isinf c) = false -> any (isnull c) = false ->
  exists ys, float_values c = ret (map Fin ys).
Proof.
  destruct c as [l|l|tz l|l]; simpl; try discriminate; intros _ Hinf Hnull.
  - exists (map IZR l). now rewrite map_map.
  - destruct (finite_floats l Hinf Hnull) as (ys & ->). now exists ys.
Qed.

(** A table the validator returns is a validated table, provided the
    numeric coercion produced no missing value. *)
Lemma check_dataframe_validated (lib : Library) (df df' out : DataFrame) :
  argsort_correct (argsort lib) -> wf df ->
  check_dataframe lib df = (df', ret out) ->
  no_missing_value out ->
  exists ds ys, validated out ds ys.
Proof.
  intros Hsort Hwf H Hmiss.
  destruct (check_dataframe_output lib df df' out Hsort Hwf H)
    as (zs & y' & order & Hperm & Hds & Hzs & Hy & Hnumeric & Hinf & Hn & Hwf' &
        Hsorted & ->).
  assert (Horder : length order = length (index df))
    by (now rewrite (Permutation_length Hperm), length_seq).
  apply getitem_od_get in Hds, Hy.
  pose proof (getitem_rows_taken (range (len df)) None (columns df') order
                "y" y' Hy) as Hgety.
  pose proof (getitem_rows_taken (range (len df)) None (columns df') order
                "ds" _ Hds) as Hgetds.
  simpl in Hgetds. rewrite take_some in Hgetds
    by (rewrite Hzs; now apply in_range_of_permutation).
  destruct (finite_values (col_take y' order)) as (ys & Hvals).
  { now apply col_take_numeric. }
  { now apply col_take_isinf. }
  { now apply Hmiss. }
  exists (take 0 zs order), ys.
  split.
  { unfold wf. simpl. apply Forall_forall. intros nc Hin.
    apply in_map_iff in Hin. destruct Hin as (nc' & <- & _). simpl.
    rewrite col_take_length, range_length. unfold len. lia. }
  split; [exact Hgetds|].
  split; [now exists (col_take y' order)|].
  split; [exact Hsorted|].
  rewrite take_length. lia.
Qed.

(** * More of the code *)

(** ** The validator: rows and rejections *)

(** The table [check_dataframe] returns holds the rows of the caller's
    table after coercion, rearranged by one permutation: every column is
    read in the same order, so no row is dropped, repeated or mixed with
    another, and the rows are labelled from zero. *)
Theorem check_dataframe_rearranges_rows (lib : Library) (df df' out : DataFrame) :
  argsort_correct (argsort lib) -> wf df ->
  check_dataframe lib df = (df', ret out) ->
  exists order,
    Permutation order (seq 0 (length (index df))) /\
    columns out = map (fun nc => (fst nc, col_take (snd nc) order)) (columns df') /\
    index out = range (len df) /\
    wf out.
Proof.
  intros Hsort Hwf H.
  destruct (check_dataframe_output lib df df' out Hsort Hwf H)
    as (zs & y' & order & Hperm & _ & _ & _ & _ & _ & _ & _ & _ & ->).
  exists order. split; [exact Hperm|]. split; [reflexivity|].
  split; [reflexivity|].
  unfold wf. simpl. apply Forall_forall. intros nc Hin.
  apply in_map_iff in Hin. destruct Hin as (nc' & <- & _). simpl.
  rewrite col_take_length, range_length.
  rewrite (Permutation_length Hperm), length_seq. unfold len. lia.
Qed.

(** The table with integer dates: the two rows come back swapped. *)
Lemma check_dataframe_rearranges_rows_witness :
  let df' := fst (check_dataframe sample_library int_dates_table) in
  let out := mkDataFrame [0; 1] None
               [("ds", ColDatetime None [Some 0; Some day]);
                ("y", ColFloat [Fin 2; Fin 1])] in
  exists order,
    Permutation order (seq 0 (length (index int_dates_table))) /\
    columns out = map (fun nc => (fst nc, col_take (snd nc) order)) (columns df') /\
    index out = range (len int_dates_table) /\
    wf out.
Proof.
  apply (check_dataframe_rearranges_rows sample_library int_dates_table).
  - exact insertion_argsort_correct.
  - repeat constructor.
  - reflexivity.
Defined.

Lemma setitem_same (df : DataFrame) (name : string) (c : column) :
  getitem df name = ret c -> setitem df name c = df.
Proof.
  intros H. apply getitem_od_get in H. unfold setitem.
  rewrite (od_set_same _ _ _ H). now destruct df.
Qed.

Lemma check_dataframe_schema_error (lib : Library) (df : DataFrame) :
  len df = 0 \/ contains df "ds" = false \/ contains df "y" = false ->
  exists msg, check_dataframe lib df = (df, raise (ValueError msg)).
Proof.
  intros H.
  unfold check_dataframe, mbind, this, when, mraise, mret, lift, assign, set_index_name.
  destruct (Z.eqb_spec (len df) 0) as [_|Hlen]; [now eexists|].
  destruct (contains df "ds"), (contains df "y"); simpl;
    try (now eexists).
  destruct H as [H|[H|H]]; congruence.
Qed.

(** A table without rows, or without the column [ds] or the column [y],
    is rejected with a [ValueError] before anything is assigned: the
    caller's table is as it was. *)
Theorem check_dataframe_rejects_schema (lib : Library) (df : DataFrame) :
  len df = 0 \/ contains df "ds" = false \/ contains df "y" = false ->
  exists msg, check_dataframe lib df = (df, raise (ValueError msg)).
Proof. apply check_dataframe_schema_error. Qed.

(** A table of future dates, which has no column [y]. *)
Lemma check_dataframe_rejects_schema_witness :
  exists msg,
    check_dataframe sample_library (future_table 3)
    = (future_table 3, raise (ValueError msg)).
Proof.
  apply (check_dataframe_rejects_schema sample_library (future_table 3)).
  right. right. reflexivity.
Defined.

(** A table whose value column is a float column holding a NaN or an
    infinity is rejected with a [ValueError], and the caller's table is as
    it was. *)
Theorem check_dataframe_rejects_nonfinite (lib : Library) (df : DataFrame)
  (l : list float64) :
  getitem df "y" = ret (ColFloat l) ->
  any (map isnan l) = true \/ any (map isinf l) = true ->
  exists msg, check_dataframe lib df = (df, raise (ValueError msg)).
Proof.
  intros Hy Hbad.
  destruct (Z.eq_dec (len df) 0) as [Hlen|Hlen];
    [apply check_dataframe_schema_error; tauto|].
  destruct (contains df "ds") eqn:Hds;
    [|apply check_dataframe_schema_error; tauto].
  unfold check_dataframe, mbind, this, when, mraise, mret, lift, assign, set_index_name.
  apply Z.eqb_neq in Hlen. rewrite Hlen, Hds, (getitem_contains _ _ _ Hy).
  cbn [negb orb]. unfold ret in Hy. rewrite Hy. cbv beta iota.
  destruct (len (mask_rows df (notnull (ColFloat l))) <? 2); [now eexists|].
  cbv beta iota. cbn [isnull].
  destruct (any (map isnan l)) eqn:Hnan; [now eexists|].
  cbv beta iota. unfold to_numeric, ret. cbv beta iota.
  rewrite (setitem_same df "y" (ColFloat l) Hy). cbn [col_isinf].
  destruct Hbad as [Hbad|Hbad]; [discriminate|].
  rewrite Hbad. now eexists.
Qed.

(** Three rows, the second value an infinity. *)
Lemma check_dataframe_rejects_nonfinite_witness :
  let df := mkDataFrame [0; 1; 2] None
              [("ds", ColDatetime None [Some 0; Some day; Some (2 * day)]);
               ("y", ColFloat [Fin 1; Inf false; Fin 2])] in
  exists msg, check_dataframe sample_library df = (df, raise (ValueError msg)).
Proof.
  apply (check_dataframe_rejects_nonfinite sample_library _
           [Fin 1; Inf false; Fin 2]).
  - reflexivity.
  - right. reflexivity.
Defined.

(** ** What the validator never touches *)

Lemma keeps_mret {A : Type} (P : DataFrame -> Prop) (a : A) : keeps P (mret a).
Proof. now intros s. Qed.

Lemma keeps_mraise {A : Type} (P : DataFrame -> Prop) (e : exn) :
  keeps P (@mraise A e).
Proof. now intros s. Qed.

Lemma keeps_lift {A : Type} (P : DataFrame -> Prop) (r : result A) :
  keeps P (lift r).
Proof. now intros s. Qed.

Lemma keeps_this (P : DataFrame -> Prop) : keeps P this.
Proof. now intros s. Qed.

Lemma keeps_mbind {A B : Type} (P : DataFrame -> Prop) (m : Mut A)
  (k : A -> Mut B) :
  keeps P m -> (forall a, keeps P (k a)) -> keeps P (mbind m k).
Proof.
  intros Hm Hk s Hs. unfold mbind.
  specialize (Hm s Hs).
  destruct (m s) as [s' [e|a]]; simpl in *; [exact Hm|].
  now apply Hk.
Qed.

Lemma keeps_when (P : DataFrame -> Prop) (c : bool) (body : Mut unit) :
  keeps P body -> keeps P (when c body).
Proof. intros H. unfold when. destruct c; [exact H|apply keeps_mret]. Qed.

Lemma keeps_assign (df : DataFrame) (name : string) (c : column) :
  name = "y" \/ name = "ds" -> keeps (same_rows df) (assign name c).
Proof.
  intros Hname s [Hidx Hcols]. unfold assign, same_rows. simpl.
  split; [exact Hidx|].
  intros n Hy Hds. rewrite od_get_set_other; [now apply Hcols|].
  destruct Hname; congruence.
Qed.

Lemma keeps_set_index_name (df : DataFrame) (n : option string) :
  keeps (same_rows df) (set_index_name n).
Proof. now intros s [Hidx Hcols]. Qed.

Lemma check_dataframe_keeps_rows (lib : Library) (df : DataFrame) :
  keeps (same_rows df) (check_dataframe lib).
Proof.
  unfold check_dataframe.
  repeat first
    [ apply keeps_mbind; [|intros ?]
    | apply keeps_when
    | apply keeps_this
    | apply keeps_mraise
    | apply keeps_mret
    | apply keeps_lift
    | apply keeps_set_index_name
    | apply keeps_assign; tauto ].
Qed.

(** Whatever table [check_dataframe] is given and whether it accepts or
    rejects it, the caller's table afterwards has the row labels it had
    and, under every name but [y] and [ds], the column it had. *)
Theorem check_dataframe_never_touches (lib : Library) (df : DataFrame) :
  same_rows df (fst (check_dataframe lib df)).
Proof.
  apply check_dataframe_keeps_rows. split; [reflexivity|]. auto.
Qed.

(** ** Windows that slide *)

Lemma firstn_plus {A : Type} (n m : nat) (x : list A) :
  firstn (n + m) x = (firstn n x ++ firstn m (skipn n x))%list.
Proof.
  revert x. induction n as [|n IH]; intros x; simpl; [reflexivity|].
  destruct x as [|a x]; simpl.
  - now rewrite firstn_nil.
  - now rewrite IH.
Qed.

Lemma window_app {A : Type} (x : list A) (a n m : nat) :
  (window x a n ++ window x (a + n) m)%list = window x a (n + m).
Proof.
  unfold window. rewrite firstn_plus, skipn_skipn.
  now rewrite (Nat.add_comm n a).
Qed.

Lemma window_tl {A : Type} (x : list A) (a n : nat) :
  tl (window x a (S n)) = window x (S a) n.
Proof.
  unfold window.
  replace (skipn (S a) x) with (tl (skipn a x)).
  - destruct (skipn a x); simpl; [now rewrite firstn_nil|reflexivity].
  - revert x. induction a as [|a IH]; intros [|b x]; simpl; trivial.
Qed.

Lemma window_firstn {A : Type} (x : list A) (a n m : nat) :
  (n <= m)%nat -> firstn n (window x a m) = window x a n.
Proof.
  intros H. unfold window. rewrite firstn_firstn. now rewrite Nat.min_l.
Qed.

(** With lags and targets, each sample is one run of the series: its lag
    vector followed by its target vector is the run of [y_scaled] at
    positions [[i, i + n_lags + n_forecasts)]; and the lag vector of the
    next sample is this sample's lag vector moved on by one row, ending
    in this sample's first target. *)
Theorem tabularize_windows_slide (uninit : nat -> nat -> float64)
  (df : DataFrame) (sc : option season_config)
  (feats : list (string * list (list float64)))
  (n_lags n_forecasts : Z) (series t : list float64) :
  wf df ->
  getitem df "y_scaled" = ret (ColFloat series) ->
  getitem df "t" = ret (ColFloat t) ->
  season_features df sc feats ->
  0 < n_lags -> 1 <= n_forecasts ->
  1 <= len df - n_lags + 1 - n_forecasts ->
  let n_samples := Z.to_nat (len df - n_lags + 1 - n_forecasts) in
  exists inp targets lg,
    tabularize_univariate_datetime uninit df sc n_lags n_forecasts false
    = ret (inp, targets) /\
    lags inp = Some lg /\
    (forall i, (i < n_samples)%nat ->
       (nth i lg [] ++ nth i targets [])%list
       = window series i (Z.to_nat n_lags + Z.to_nat n_forecasts)) /\
    (forall i, (i + 1 < n_samples)%nat ->
       nth (i + 1) lg []
       = (tl (nth i lg []) ++ firstn 1 (nth i targets []))%list).
Proof.
  intros Hwf Hy Ht Hs Hl Hf Hn n_samples.
  pose proof (wf_float_length _ _ _ Hwf Hy) as Hly.
  eexists _, _, _. split.
  { exact (tabularize_lagged uninit df sc feats n_lags n_forecasts false
             series t Hy Ht Hs Hl). }
  split; [reflexivity|].
  assert (Hlags : strided series (Z.to_nat 0) (Z.to_nat n_lags) n_samples
                    (map (fun i => slice series i (i + n_lags))
                       (range (len df - n_lags + 1 - n_forecasts)))).
  { apply strided_slices; try lia. intros i Hi. reflexivity. }
  assert (Htargets : strided series (Z.to_nat n_lags) (Z.to_nat n_forecasts)
                       n_samples
                       (map (fun i => slice series (i + n_lags)
                                        (i + n_lags + n_forecasts))
                          (range (len df - n_lags + 1 - n_forecasts)))).
  { apply strided_slices; try lia. intros i Hi. f_equal; lia. }
  destruct Hlags as [_ Hlags]. destruct Htargets as [_ Htargets].
  change (Z.to_nat 0) with 0%nat in Hlags.
  cbn [lags fst snd].
  split.
  - intros i Hi.
    destruct (Hlags i Hi) as [-> _]. destruct (Htargets i Hi) as [-> _].
    rewrite Nat.add_0_l, (Nat.add_comm (Z.to_nat n_lags) i). apply window_app.
  - intros i Hi.
    destruct (Hlags (i + 1)%nat Hi) as [-> _].
    destruct (Hlags i ltac:(lia)) as [-> _].
    destruct (Htargets i ltac:(lia)) as [-> _].
    rewrite !Nat.add_0_l. rewrite window_firstn by lia.
    destruct (Z.to_nat n_lags) as [|L] eqn:EL; [lia|].
    rewrite window_tl.
    replace (S L + i)%nat with (S i + L)%nat by lia.
    rewrite window_app.
    f_equal; lia.
Qed.

(** The example of the specification: ten rows, three lags, one step. *)
Lemma tabularize_windows_slide_witness :
  let series := map (fun i => Fin (INR i)) (seq 0 10) in
  exists inp targets lg,
    tabularize_univariate_datetime zeros (normalized_table 10) None 3 1 false
    = ret (inp, targets) /\
    lags inp = Some lg /\
    (forall i, (i < 7)%nat ->
       (nth i lg [] ++ nth i targets [])%list = window series i (3 + 1)) /\
    (forall i, (i + 1 < 7)%nat ->
       nth (i + 1) lg []
       = (tl (nth i lg []) ++ firstn 1 (nth i targets []))%list).
Proof.
  apply (tabularize_windows_slide zeros (normalized_table 10) None [] 3 1
           (map (fun i => Fin (INR i)) (seq 0 10))
           (map (fun i => Fin (INR i / INR 9)) (seq 0 10))).
  - repeat constructor.
  - reflexivity.
  - reflexivity.
  - reflexivity.
  - lia.
  - lia.
  - unfold len. simpl. lia.
Defined.

(** ** Which seasonalities are computed *)

Lemma od_set_new_key {V : Type} (d : list (string * V)) (k : string) (v : V) :
  ~ In k (map fst d) -> map fst (od_set d k v) = (map fst d ++ [k])%list.
Proof.
  induction d as [|[k' v'] d IH]; simpl; intros H; [reflexivity|].
  destruct (String.eqb_spec k k') as [->|Hne]; [tauto|].
  simpl. f_equal. apply IH. tauto.
Qed.

Lemma active_names_incl (items : list (string * period_cfg)) (name : string) :
  In name (active_names items) -> In name (map fst items).
Proof.
  unfold active_names. intros H. apply in_map_iff in H.
  destruct H as (np & <- & Hin). apply filter_In in Hin.
  apply in_map. tauto.
Qed.

Lemma seasonal_features_loop_keys (l : list nanos)
  (items : list (string * period_cfg))
  (acc : list (string * list (list float64))) :
  NoDup (map fst items) ->
  (forall name, In name (map fst items) -> ~ In name (map fst acc)) ->
  exists feats,
    seasonal_features_loop (ColDatetime None l) "fourier" items acc = ret feats /\
    map fst feats = (map fst acc ++ active_names items)%list.
Proof.
  revert acc. induction items as [|[n p] rest IH]; intros acc Hnd Hfresh; simpl.
  - exists acc. split; [reflexivity|]. unfold active_names. simpl.
    now rewrite app_nil_r.
  - inversion Hnd as [|? ? Hn Hrest]; subst.
    unfold active_names. simpl.
    destruct (Z.gtb_spec (resolution p) 0) as [Hpos|Hle].
    + destruct (fourier_series_entries l (period p) (resolution p))
        as (M & -> & _); [lia|]. simpl.
      destruct (IH (od_set acc n M)) as (feats & -> & Hkeys); trivial.
      * intros name Hin. rewrite od_set_new_key by (apply Hfresh; now left).
        intros Hin'. apply in_app_or in Hin'. destruct Hin' as [Hin'|[<-|[]]].
        -- apply (Hfresh name); [now right|exact Hin'].
        -- contradiction.
      * exists feats. split; [reflexivity|]. rewrite Hkeys.
        rewrite od_set_new_key by (apply Hfresh; now left).
        now rewrite <- app_assoc.
    + apply IH; trivial. intros name Hin. apply Hfresh. now right.
Qed.

Lemma seasonal_features_loop_unsupported (dates : column) (ty : string)
  (items : list (string * period_cfg))
  (acc : list (string * list (list float64))) :
  String.eqb ty "fourier" = false ->
  seasonal_features_loop dates ty items acc =
  if existsb (fun np => resolution (snd np) >? 0) items
  then raise NotImplementedError else ret acc.
Proof.
  intros Hty. induction items as [|[n p] rest IH]; simpl; [reflexivity|].
  destruct (resolution p >? 0); simpl; [|exact IH].
  now rewrite Hty.
Qed.

(** For the fourier type and timestamps without timezone, the featurizer
    returns one feature matrix per period of positive resolution, under
    the period's name and in the order of the configuration; a period of
    resolution zero (or less) is left out, it is no error. *)
Theorem seasonal_features_names (l : list nanos) (cfg : season_config) :
  type cfg = "fourier" ->
  NoDup (map fst (periods cfg)) ->
  exists feats,
    seasonal_features_from_dates (ColDatetime None l) cfg = ret feats /\
    map fst feats
    = map fst (filter (fun np => resolution (snd np) >? 0) (periods cfg)).
Proof.
  intros Hty Hnd. unfold seasonal_features_from_dates. rewrite Hty.
  destruct (seasonal_features_loop_keys l (periods cfg) [] Hnd)
    as (feats & Hfeats & Hkeys); [now intros name _|].
  now exists feats.
Qed.

(** A configuration with a weekly period of order 3 and a yearly period
    that is switched off. *)
Lemma seasonal_features_names_witness :
  let cfg := mkSeason [("yearly", mkPeriod (Fin (36525 / 100)) 0);
                       ("weekly", mkPeriod (Fin 7) 3)] "fourier" in
  exists feats,
    seasonal_features_from_dates (ColDatetime None (map Some (days 7))) cfg
    = ret feats /\
    map fst feats
    = map fst (filter (fun np => resolution (snd np) >? 0) (periods cfg)).
Proof.
  apply (seasonal_features_names (map Some (days 7))
           (mkSeason [("yearly", mkPeriod (Fin (36525 / 100)) 0);
                      ("weekly", mkPeriod (Fin 7) 3)] "fourier")).
  - reflexivity.
  - repeat constructor; simpl; intuition discriminate.
Defined.

(** For any other type than fourier the featurizer raises
    [NotImplementedError] exactly when some period has a positive
    resolution; with every period switched off it returns no feature and
    never looks at the type, nor at the dates. *)
Theorem seasonal_features_unsupported_type (dates : column)
  (cfg : season_config) :
  String.eqb (type cfg) "fourier" = false ->
  seasonal_features_from_dates dates cfg =
  if existsb (fun np => resolution (snd np) >? 0) (periods cfg)
  then raise NotImplementedError else ret [].
Proof.
  intros Hty. unfold seasonal_features_from_dates.
  now apply seasonal_features_loop_unsupported.
Qed.

Lemma seasonal_features_unsupported_type_witness :
  seasonal_features_from_dates (ColDatetime None (map Some (days 7)))
    (mkSeason [("weekly", mkPeriod (Fin 7) 3)] "spline")
  = (if existsb (fun np => resolution (snd np) >? 0)
          [("weekly", mkPeriod (Fin 7) 3)]
     then raise NotImplementedError else ret []).
Proof.
  apply (seasonal_features_unsupported_type
           (ColDatetime None (map Some (days 7)))
           (mkSeason [("weekly", mkPeriod (Fin 7) 3)] "spline")).
  reflexivity.
Defined.

(** ** The seasonal features repeat with the period *)

Lemma sin_period_Z (x : R) (k : Z) : sin (x + 2 * IZR k * PI) = sin x.
Proof.
  destruct (Z_le_gt_dec 0 k) as [Hk|Hk].
  - rewrite <- (Z2Nat.id k Hk), <- INR_IZR_INZ. apply sin_period.
  - rewrite <- (sin_period (x + 2 * IZR k * PI) (Z.to_nat (- k))).
    f_equal. rewrite INR_IZR_INZ, Z2Nat.id by lia.
    rewrite opp_IZR. ring.
Qed.

Lemma cos_period_Z (x : R) (k : Z) : cos (x + 2 * IZR k * PI) = cos x.
Proof.
  destruct (Z_le_gt_dec 0 k) as [Hk|Hk].
  - rewrite <- (Z2Nat.id k Hk), <- INR_IZR_INZ. apply cos_period.
  - rewrite <- (cos_period (x + 2 * IZR k * PI) (Z.to_nat (- k))).
    f_equal. rewrite INR_IZR_INZ, Z2Nat.id by lia.
    rewrite opp_IZR. ring.
Qed.

Lemma harmonic_angle_shift (q : R) (k ns shift m : Z) :
  q <> 0%R ->
  t_days shift = (IZR m * q)%R ->
  harmonic_angle k (ns + shift) q
  = (harmonic_angle k ns q + 2 * IZR (k * m) * PI)%R.
Proof.
  intros Hq Hshift. unfold harmonic_angle.
  replace (t_days (ns + shift)) with (t_days ns + t_days shift)%R
    by (unfold t_days; rewrite plus_IZR; field).
  rewrite Hshift, mult_IZR. field. exact Hq.
Qed.

(** With exact arithmetic on finite values, the Fourier features have the
    period they are built for: moving every timestamp by a whole number
    of periods (seven days, for a period of 7) leaves the feature matrix
    as it is, for every order. *)
Theorem fourier_series_periodic (l : list Z) (q : R) (order shift m : Z) :
  q <> 0%R ->
  t_days shift = (IZR m * q)%R ->
  fourier_series (ColDatetime None (map (fun d => Some (d + shift)) l))
    (Fin q) order
  = fourier_series (ColDatetime None (map Some l)) (Fin q) order.
Proof.
  intros Hq Hshift.
  destruct (Z_lt_le_dec 0 order) as [Ho|Ho].
  - rewrite !fourier_series_eval by exact Ho.
    rewrite !length_map.
    rewrite (flat_map_ext
               (fun i => [map (fun d => fsin (code_angle (Fin q) i d))
                            (map (fun d => Some (d + shift)) l);
                          map (fun d => fcos (code_angle (Fin q) i d))
                            (map (fun d => Some (d + shift)) l)])
               (fun i => [map (fun d => fsin (code_angle (Fin q) i d))
                            (map Some l);
                          map (fun d => fcos (code_angle (Fin q) i d))
                            (map Some l)])); [reflexivity|].
    intros i. rewrite !map_map.
    f_equal; [|f_equal]; apply map_ext; intros d;
      rewrite !code_angle_harmonic by exact Hq;
      rewrite (harmonic_angle_shift q (i + 1) d shift m Hq Hshift);
      unfold fsin, fcos; f_equal.
    + apply sin_period_Z.
    + apply cos_period_Z.
  - unfold fourier_series. cbn [naive_datetimes bind ret].
    now rewrite (range_nonpos order Ho).
Qed.

(** The weekly features of a week of days are those of the week after. *)
Lemma fourier_series_periodic_witness :
  fourier_series (ColDatetime None (map (fun d => Some (d + 7 * day)) (days 7)))
    (Fin 7) 3
  = fourier_series (ColDatetime None (map Some (days 7))) (Fin 7) 3.
Proof.
  apply (fourier_series_periodic (days 7) 7 3 (7 * day) 1).
  - lra.
  - unfold t_days, day. simpl. lra.
Defined.

(** ** The dataset of samples *)

Lemma tensor_index_inside {A : Type} (data : list A) (index : Z) (d : A) :
  - Z.of_nat (length data) <= index < Z.of_nat (length data) ->
  tensor_index data index
  = inr (nth (Z.to_nat (if index <? 0 then index + Z.of_nat (length data)
                        else index)) data d).
Proof.
  intros H. unfold tensor_index.
  set (k := Z.to_nat _).
  assert (Hk : (k < length data)%nat)
    by (subst k; destruct (Z.ltb_spec index 0); lia).
  destruct (nth_error data k) eqn:E.
  - apply (nth_error_nth _ _ d) in E. rewrite E.
    destruct (Z.ltb_spec index (- Z.of_nat (length data))); [lia|].
    destruct (Z.leb_spec (Z.of_nat (length data)) index); [lia|]. reflexivity.
  - apply nth_error_None in E. lia.
Qed.

Lemma tensor_index_outside {A : Type} (data : list A) (index : Z) :
  index < - Z.of_nat (length data) \/ Z.of_nat (length data) <= index ->
  tensor_index data index = inl (IndexError index (Z.of_nat (length data))).
Proof.
  intros H. unfold tensor_index. destruct (nth_error _ _); [|reflexivity].
  destruct (Z.ltb_spec index (- Z.of_nat (length data)));
    destruct (Z.leb_spec (Z.of_nat (length data)) index);
    simpl; try reflexivity; lia.
Qed.

(** The row an index in range stands for. *)
Lemma seasonalities_index_inside
  (d : list (string * list (list (list float64)))) (index : Z) (n : nat) :
  Forall (fun nw => length (snd nw) = n) d ->
  - Z.of_nat n <= index < Z.of_nat n ->
  seasonalities_index d index
  = inr (map (fun nw =>
                (fst nw,
                 nth (Z.to_nat (if index <? 0 then index + Z.of_nat n
                                else index)) (snd nw) [])) d).
Proof.
  intros Hd Hi. induction Hd as [|[name pf] rest Hpf Hrest IH]; [reflexivity|].
  simpl in Hpf |- *.
  rewrite (tensor_index_inside pf index []) by (rewrite Hpf; exact Hi).
  simpl. rewrite IH. simpl. now rewrite Hpf.
Qed.

Lemma getitem_inside (self : TimeDataset) (n : nat) (index : Z) :
  first_axis self n ->
  - Z.of_nat n <= index < Z.of_nat n ->
  let k := Z.to_nat (if index <? 0 then index + Z.of_nat n else index) in
  __getitem__ self index
  = inr (mkSample (nth k (time (self_inputs self)) [])
           (option_map (fun lg => nth k lg []) (lags (self_inputs self)))
           (option_map (map (fun nw => (fst nw, nth k (snd nw) [])))
              (seasonalities (self_inputs self))),
         nth k (self_targets self) []).
Proof.
  intros (Ht & Hl & Hs & Htg) Hi k. unfold __getitem__.
  rewrite (tensor_index_inside _ index []) by (rewrite Ht; exact Hi).
  rewrite Ht. fold k. simpl.
  destruct (lags (self_inputs self)) as [lg|] eqn:Elg.
  - specialize (Hl lg eq_refl).
    rewrite (tensor_index_inside lg index []) by (rewrite Hl; exact Hi).
    rewrite Hl. fold k. simpl.
    destruct (seasonalities (self_inputs self)) as [S|] eqn:ES.
    + rewrite (seasonalities_index_inside S index n (Hs S eq_refl) Hi).
      fold k. simpl.
      rewrite (tensor_index_inside _ index []) by (rewrite Htg; exact Hi).
      rewrite Htg. fold k. reflexivity.
    + simpl.
      rewrite (tensor_index_inside _ index []) by (rewrite Htg; exact Hi).
      rewrite Htg. fold k. reflexivity.
  - simpl.
    destruct (seasonalities (self_inputs self)) as [S|] eqn:ES.
    + rewrite (seasonalities_index_inside S index n (Hs S eq_refl) Hi).
      fold k. simpl.
      rewrite (tensor_index_inside _ index []) by (rewrite Htg; exact Hi).
      rewrite Htg. fold k. reflexivity.
    + simpl.
      rewrite (tensor_index_inside _ index []) by (rewrite Htg; exact Hi).
      rewrite Htg. fold k. reflexivity.
Qed.

Lemma getitem_outside (self : TimeDataset) (n : nat) (index : Z) :
  first_axis self n ->
  index < - Z.of_nat n \/ Z.of_nat n <= index ->
  __getitem__ self index = inl (IndexError index (Z.of_nat n)).
Proof.
  intros (Ht & _) Hi. unfold __getitem__.
  rewrite tensor_index_outside by (rewrite Ht; exact Hi).
  now rewrite Ht.
Qed.

Lemma len_index (df : DataFrame) : Z.to_nat (len df) = length (index df).
Proof. unfold len. lia. Qed.

(** Every array the tabularizer returns has the first axis of [time]. *)
Lemma tabularize_first_axis (uninit : nat -> nat -> float64) (df : DataFrame)
  (sc : option season_config) (n_lags n_forecasts : Z) (predict_mode : bool)
  (inp : inputs) (tg : list (list float64)) :
  wf df ->
  tabularize_univariate_datetime uninit df sc n_lags n_forecasts predict_mode
  = ret (inp, tg) ->
  (forall lg, lags inp = Some lg -> length lg = length (time inp)) /\
  (forall S, seasonalities inp = Some S ->
             Forall (fun nw => length (snd nw) = length (time inp)) S) /\
  length tg = length (time inp).
Proof.
  intros Hwf. unfold tabularize_univariate_datetime.
  destruct (getitem df "y_scaled") as [e|cy] eqn:Hy; simpl; [discriminate|].
  destruct (float_values cy) as [e|series] eqn:Hseries; simpl; [discriminate|].
  destruct (getitem df "t") as [e|ct] eqn:Ht; simpl; [discriminate|].
  destruct (float_values ct) as [e|t] eqn:Htv; simpl; [discriminate|].
  assert (Hlt : length t = length (index df)).
  { rewrite (float_values_length _ _ Htv). now apply (wf_getitem df "t"). }
  destruct (Z.eqb_spec n_lags 0) as [->|Hne].
  - destruct (Z.eqb_spec n_forecasts 1) as [->|Hnf]; simpl; [|discriminate].
    destruct sc as [cfg|]; simpl.
    + destruct (getitem df "ds") as [e|ds] eqn:Hds; simpl; [discriminate|].
      destruct (seasonal_features_from_dates ds cfg) as [e|feats] eqn:Hf;
        simpl; [discriminate|].
      intros [= <- <-]. cbn [time lags seasonalities].
      rewrite expand_dims_length.
      split; [discriminate|]. split.
      * intros S [= <-]. apply Forall_map. simpl.
        apply seasonal_features_loop_rows in Hf; [|constructor].
        eapply Forall_impl; [|exact Hf]. simpl. intros nf Hnf.
        rewrite expand_dims_length, Hnf, Hlt.
        now apply (wf_getitem df "ds").
      * destruct predict_mode.
        -- now rewrite empty_like_length, expand_dims_length.
        -- rewrite length_map, range_length, Hlt, <- len_index. f_equal. lia.
    + intros [= <- <-]. cbn [time lags seasonalities].
      rewrite expand_dims_length.
      split; [discriminate|]. split; [discriminate|].
      destruct predict_mode.
      * now rewrite empty_like_length, expand_dims_length.
      * rewrite length_map, range_length, Hlt, <- len_index. f_equal. lia.
  - simpl.
    destruct sc as [cfg|]; simpl.
    + destruct (getitem df "ds") as [e|ds] eqn:Hds; simpl; [discriminate|].
      destruct (seasonal_features_from_dates ds cfg) as [e|feats] eqn:Hf;
        simpl; [discriminate|].
      intros [= <- <-]. cbn [time lags seasonalities].
      unfold _stride_time_features_for_forecasts.
      rewrite length_map, range_length.
      split; [|split].
      * destruct (n_lags >? 0); [|discriminate].
        intros lg [= <-]. now rewrite length_map, range_length.
      * intros S [= <-]. apply Forall_map. simpl.
        apply Forall_forall. intros nf _.
        now rewrite length_map, range_length.
      * destruct predict_mode.
        -- now rewrite empty_like_length, length_map, range_length.
        -- now rewrite length_map, range_length.
    + intros [= <- <-]. cbn [time lags seasonalities].
      unfold _stride_time_features_for_forecasts.
      rewrite length_map, range_length.
      split; [|split; [discriminate|]].
      * destruct (n_lags >? 0); [|discriminate].
        intros lg [= <-]. now rewrite length_map, range_length.
      * destruct predict_mode.
        -- now rewrite empty_like_length, length_map, range_length.
        -- now rewrite length_map, range_length.
Qed.

Lemma from_numpy_length (float32 : float64 -> float64)
  (data out : list (list float64)) :
  from_numpy float32 data = ret out -> length out = length data.
Proof.
  unfold from_numpy. destruct (rectangular data); [|discriminate].
  intros [= <-]. apply length_map.
Qed.

Lemma seasonalities_tensors_length (float32 : float64 -> float64)
  (items out : list (string * list (list (list float64)))) (n : nat) :
  Forall (fun nw => length (snd nw) = n) items ->
  seasonalities_tensors float32 items = ret out ->
  Forall (fun nw => length (snd nw) = n) out.
Proof.
  intros Hitems. revert out.
  induction Hitems as [|[name pf] rest Hpf Hrest IH]; intros out; simpl.
  - intros [= <-]. constructor.
  - unfold from_numpy_3d.
    destruct (rectangular pf && rectangular (concat pf)); simpl; [|discriminate].
    destruct (seasonalities_tensors float32 rest) as [e|xs]; simpl; [discriminate|].
    intros [= <-]. constructor; [|now apply IH].
    simpl in Hpf |- *. now rewrite length_map.
Qed.

(** A dataset the constructor returns has one first axis, of the length
    it reports. *)
Lemma init_first_axis (float32 : float64 -> float64)
  (uninit : nat -> nat -> float64) (df : DataFrame)
  (sc : option season_config) (n_lags n_forecasts : Z) (predict_mode : bool)
  (self : TimeDataset) :
  wf df ->
  __init__ float32 uninit df sc n_lags n_forecasts predict_mode = ret self ->
  exists n, __len__ self = Z.of_nat n /\ first_axis self n.
Proof.
  intros Hwf. unfold __init__.
  destruct (tabularize_univariate_datetime uninit df sc n_lags n_forecasts
              predict_mode) as [e|[inp tg]] eqn:Htab; simpl; [discriminate|].
  destruct (tabularize_first_axis _ _ _ _ _ _ _ _ Hwf Htab) as (Hl & Hs & Htg).
  unfold init_after_tabularized.
  destruct (from_numpy float32 (time inp)) as [e|time'] eqn:Ht; simpl;
    [discriminate|].
  apply from_numpy_length in Ht.
  destruct (lags inp) as [lg|] eqn:Elg.
  - destruct (from_numpy float32 lg) as [e|lg'] eqn:Hlg; simpl; [discriminate|].
    apply from_numpy_length in Hlg. rewrite (Hl lg eq_refl) in Hlg.
    destruct (seasonalities inp) as [S|] eqn:ES.
    + destruct (seasonalities_tensors float32 S) as [e|S'] eqn:HS; simpl;
        [discriminate|].
      apply (seasonalities_tensors_length _ _ _ _ (Hs S eq_refl)) in HS.
      destruct (from_numpy float32 tg) as [e|tg'] eqn:Htg'; simpl;
        [discriminate|].
      apply from_numpy_length in Htg'. rewrite Htg in Htg'.
      intros [= <-]. exists (length (time inp)).
      split; [reflexivity|]. unfold first_axis. simpl.
      split; [exact Ht|]. split; [now intros ? [= <-]|].
      split; [now intros ? [= <-]|exact Htg'].
    + simpl.
      destruct (from_numpy float32 tg) as [e|tg'] eqn:Htg'; simpl;
        [discriminate|].
      apply from_numpy_length in Htg'. rewrite Htg in Htg'.
      intros [= <-]. exists (length (time inp)).
      split; [reflexivity|]. unfold first_axis. simpl.
      split; [exact Ht|]. split; [now intros ? [= <-]|].
      split; [discriminate|exact Htg'].
  - simpl.
    destruct (seasonalities inp) as [S|] eqn:ES.
    + destruct (seasonalities_tensors float32 S) as [e|S'] eqn:HS; simpl;
        [discriminate|].
      apply (seasonalities_tensors_length _ _ _ _ (Hs S eq_refl)) in HS.
      destruct (from_numpy float32 tg) as [e|tg'] eqn:Htg'; simpl;
        [discriminate|].
      apply from_numpy_length in Htg'. rewrite Htg in Htg'.
      intros [= <-]. exists (length (time inp)).
      split; [reflexivity|]. unfold first_axis. simpl.
      split; [exact Ht|]. split; [discriminate|].
      split; [now intros ? [= <-]|exact Htg'].
    + simpl.
      destruct (from_numpy float32 tg) as [e|tg'] eqn:Htg'; simpl;
        [discriminate|].
      apply from_numpy_length in Htg'. rewrite Htg in Htg'.
      intros [= <-]. exists (length (time inp)).
      split; [reflexivity|]. unfold first_axis. simpl.
      split; [exact Ht|]. split; [discriminate|].
      split; [discriminate|exact Htg'].
Qed.

(** Whatever table and configuration a dataset was built from, its
    arrays agree on the first axis: every index from [-len(dataset)] to
    [len(dataset) - 1] yields a sample, a negative one the sample counted
    from the end, and every other index raises [IndexError]. *)
Theorem dataset_index_range (float32 : float64 -> float64)
  (uninit : nat -> nat -> float64) (df : DataFrame)
  (sc : option season_config) (n_lags n_forecasts : Z) (predict_mode : bool)
  (self : TimeDataset) :
  wf df ->
  __init__ float32 uninit df sc n_lags n_forecasts predict_mode = ret self ->
  0 <= __len__ self /\
  forall index,
    (- __len__ self <= index < __len__ self ->
     exists item,
       __getitem__ self index = inr item /\
       __getitem__ self (if index <? 0 then index + __len__ self else index)
       = inr item) /\
    (index < - __len__ self \/ __len__ self <= index ->
     __getitem__ self index = inl (IndexError index (__len__ self))).
Proof.
  intros Hwf Hinit.
  destruct (init_first_axis _ _ _ _ _ _ _ _ Hwf Hinit) as (n & Hlen & Hax).
  rewrite Hlen. split; [lia|]. intros index. split.
  - intros Hi. eexists. split.
    + apply (getitem_inside self n index Hax Hi).
    + rewrite (getitem_inside self n _ Hax)
        by (destruct (Z.ltb_spec index 0); lia).
      cbv zeta.
      replace (Z.to_nat
                 (if (if index <? 0 then index + Z.of_nat n else index) <? 0
                  then (if index <? 0 then index + Z.of_nat n else index)
                       + Z.of_nat n
                  else if index <? 0 then index + Z.of_nat n else index))
        with (Z.to_nat (if index <? 0 then index + Z.of_nat n else index));
        [reflexivity|].
      destruct (Z.ltb_spec index 0) as [Hneg|Hpos].
      * destruct (Z.ltb_spec (index + Z.of_nat n) 0); [lia|reflexivity].
      * destruct (Z.ltb_spec index 0); [lia|reflexivity].
  - apply (getitem_outside self n index Hax).
Qed.

(** The dataset of seven samples of a table of ten days, with three lags
    and one forecast step. *)
Lemma dataset_index_range_witness :
  let self := match __init__ (fun x => x) zeros (normalized_table 10)
                      (Some weekly) 3 1 false with
              | inr s => s
              | inl _ => mkTimeDataset 0 (mkInputs [] None None) []
              end in
  __len__ self = 7 /\
  forall index,
    (- __len__ self <= index < __len__ self ->
     exists item,
       __getitem__ self index = inr item /\
       __getitem__ self (if index <? 0 then index + __len__ self else index)
       = inr item) /\
    (index < - __len__ self \/ __len__ self <= index ->
     __getitem__ self index = inl (IndexError index (__len__ self))).
Proof.
  split; [reflexivity|].
  apply (dataset_index_range (fun x => x) zeros (normalized_table 10)
           (Some weekly) 3 1 false).
  - repeat constructor.
  - reflexivity.
Defined.

(** ** The samples of the dataset *)

Lemma rectangular_const {A : Type} (a : list (list A)) (c : nat) :
  (forall r, In r a -> length r = c) -> rectangular a = true.
Proof.
  destruct a as [|r rest]; [reflexivity|]. intros H. simpl.
  apply forallb_forall. intros r' Hr'. apply Nat.eqb_eq.
  rewrite (H r' (or_intror Hr')), (H r (or_introl eq_refl)). reflexivity.
Qed.

Lemma strided_rectangular {A : Type} (x : list A) (off width count : nat)
  (W : list (list A)) :
  strided x off width count W -> rectangular W = true.
Proof.
  intros [Hlen HW]. apply (rectangular_const W width).
  intros r Hr. apply (In_nth _ _ []) in Hr. destruct Hr as (i & Hi & <-).
  apply HW. lia.
Qed.

Lemma In_window {A : Type} (x : list A) (a n : nat) (v : A) :
  In v (window x a n) -> In v x.
Proof.
  unfold window. intros H.
  rewrite <- (firstn_skipn a x). apply in_or_app. right.
  rewrite <- (firstn_skipn n (skipn a x)). apply in_or_app. now left.
Qed.

Lemma strided_rows {A : Type} (P : A -> Prop) (x : list A)
  (off width count : nat) (W : list (list A)) :
  strided x off width count W ->
  (forall v, In v x -> P v) ->
  forall v, In v (concat W) -> P v.
Proof.
  intros [Hlen HW] Hx v Hv. apply in_concat in Hv.
  destruct Hv as (w & Hw & Hv).
  apply (In_nth _ _ []) in Hw. destruct Hw as (i & Hi & <-).
  destruct (HW i ltac:(lia)) as [Hwin _]. rewrite Hwin in Hv.
  apply Hx. now apply In_window in Hv.
Qed.

Lemma nth_map_rows {A B : Type} (f : A -> B) (W : list (list A)) (i : nat) :
  nth i (map (map f) W) [] = map f (nth i W []).
Proof. apply (map_nth (map f) W [] i). Qed.

(** The rows of a feature matrix have one length. *)
Lemma fourier_series_rect (dates : column) (p : float64) (order : Z)
  (M : list (list float64)) :
  fourier_series dates p order = ret M ->
  exists c, forall r, In r M -> length r = c.
Proof.
  unfold fourier_series.
  destruct (naive_datetimes dates) as [e|l]; simpl; [discriminate|].
  unfold column_stack.
  match goal with
  | |- match ?cols with _ => _ end = _ -> _ => set (C := cols)
  end.
  destruct C as [|c rest] eqn:EC; [discriminate|].
  intros [= <-]. exists (length (c :: rest)).
  intros r Hr. apply in_map_iff in Hr. destruct Hr as (k & <- & _).
  apply (length_map (fun col => nth k col NaN) (c :: rest)).
Qed.

Lemma seasonal_features_loop_rect (dates : column) (ty : string)
  (items : list (string * period_cfg))
  (acc feats : list (string * list (list float64))) :
  Forall (fun nf => exists c, forall r, In r (snd nf) -> length r = c) acc ->
  seasonal_features_loop dates ty items acc = ret feats ->
  Forall (fun nf => exists c, forall r, In r (snd nf) -> length r = c) feats.
Proof.
  revert acc. induction items as [|[name p] rest IH]; intros acc Hacc; simpl.
  - now intros [= <-].
  - destruct (resolution p >? 0); [|now apply IH].
    destruct (String.eqb ty "fourier"); simpl; [|discriminate].
    destruct (fourier_series dates (period p) (resolution p)) as [e|M] eqn:HM;
      simpl; [discriminate|].
    apply IH. apply od_set_Forall; trivial.
    simpl. now apply fourier_series_rect in HM.
Qed.

Lemma season_features_rect (df : DataFrame) (sc : option season_config)
  (feats : list (string * list (list float64))) :
  season_features df sc feats ->
  Forall (fun nf => exists c, forall r, In r (snd nf) -> length r = c) feats.
Proof.
  destruct sc as [cfg|]; simpl.
  - intros (ds & _ & Hfeats).
    now apply seasonal_features_loop_rect in Hfeats; [|constructor].
  - intros ->. constructor.
Qed.

(** The tensors of the strided seasonalities. *)
Lemma seasonalities_tensors_strided (float32 : float64 -> float64)
  (feats : list (string * list (list float64))) (n_lags n_forecasts count : Z) :
  0 <= n_lags -> 0 <= n_forecasts ->
  Forall (fun nf => 1 <= count ->
                    n_lags + count - 1 + n_forecasts <= Z.of_nat (length (snd nf)))
    feats ->
  Forall (fun nf => exists c, forall r, In r (snd nf) -> length r = c) feats ->
  seasonalities_tensors float32
    (map (fun nf => (fst nf,
                     _stride_time_features_for_forecasts
                       n_lags n_forecasts count (snd nf))) feats)
  = ret (map (fun nf => (fst nf,
                         map (map (map float32))
                           (_stride_time_features_for_forecasts
                              n_lags n_forecasts count (snd nf)))) feats).
Proof.
  intros Hl Hf Hfit Hrect.
  induction Hfit as [|[name M] rest HM Hrest IH]; [reflexivity|].
  inversion Hrect as [|? ? [c Hc] Hrect']; subst.
  simpl in HM, Hc |- *.
  assert (Hs : strided M (Z.to_nat n_lags) (Z.to_nat n_forecasts)
                 (Z.to_nat count)
                 (_stride_time_features_for_forecasts n_lags n_forecasts count M))
    by (apply strided_slices; trivial).
  unfold from_numpy_3d.
  rewrite (strided_rectangular _ _ _ _ _ Hs).
  rewrite (rectangular_const _ c
             (strided_rows (fun r => length r = c) _ _ _ _ _ Hs Hc)).
  simpl. rewrite (IH Hrect'). reflexivity.
Qed.

Lemma from_numpy_strided {A : Type} (float32 : float64 -> float64)
  (x : list float64) (off width count : nat) (W : list (list float64)) :
  strided x off width count W ->
  from_numpy float32 W = ret (map (map float32) W).
Proof.
  intros Hs. unfold from_numpy.
  now rewrite (strided_rectangular _ _ _ _ _ Hs).
Qed.

Lemma strided_row {A B : Type} (f : A -> B) (x : list A)
  (off width count i : nat) (W : list (list A)) :
  strided x off width count W -> (i < count)%nat ->
  nth i (map (map f) W) [] = map f (window x (off + i) width).
Proof.
  intros [_ HW] Hi. rewrite nth_map_rows.
  now destruct (HW i Hi) as [-> _].
Qed.

(** With lags, the constructor returns a dataset of
    [max(0, len(df) - n_lags + 1 - n_forecasts)] samples, and sample [i]
    holds, rounded to single precision, the windows the tabularizer cut:
    [n_forecasts] steps of [t] and of every seasonal feature from row
    [n_lags + i], the [n_lags] values of [y_scaled] from row [i] and, as
    targets, the [n_forecasts] values after them (in predict mode, what
    the memory held). *)
Theorem dataset_samples (float32 : float64 -> float64)
  (uninit : nat -> nat -> float64) (df : DataFrame)
  (sc : option season_config) (feats : list (string * list (list float64)))
  (n_lags n_forecasts : Z) (predict_mode : bool) (series t : list float64) :
  wf df ->
  getitem df "y_scaled" = ret (ColFloat series) ->
  getitem df "t" = ret (ColFloat t) ->
  season_features df sc feats ->
  0 < n_lags -> 0 <= n_forecasts ->
  let n := len df - n_lags + 1 - n_forecasts in
  let L := Z.to_nat n_lags in
  let F := Z.to_nat n_forecasts in
  exists self,
    __init__ float32 uninit df sc n_lags n_forecasts predict_mode = ret self /\
    __len__ self = Z.max 0 n /\
    forall i, (i < Z.to_nat n)%nat ->
      __getitem__ self (Z.of_nat i)
      = inr (mkSample
               (map float32 (window t (L + i) F))
               (Some (map float32 (window series i L)))
               (match sc with
                | Some _ =>
                    Some (map (fun nf =>
                                 (fst nf,
                                  map (map float32) (window (snd nf) (L + i) F)))
                            feats)
                | None => None
                end),
             map float32
               (if predict_mode then map (uninit i) (seq 0 F)
                else window series (L + i) F)).
Proof.
  intros Hwf Hy Ht Hs Hl Hf n L F.
  pose proof (wf_float_length df "y_scaled" series Hwf Hy) as Hlen_y.
  pose proof (wf_float_length df "t" t Hwf Ht) as Hlen_t.
  pose proof (season_features_rows df sc feats Hwf Hs) as Hrows.
  pose proof (season_features_rect df sc feats Hs) as Hrect.
  assert (Htime : strided t L F (Z.to_nat n)
                    (_stride_time_features_for_forecasts n_lags n_forecasts n t)).
  { apply strided_slices; try lia. reflexivity. }
  assert (Hlags : strided series 0 L (Z.to_nat n)
                    (map (fun i => slice series i (i + n_lags)) (range n))).
  { apply (strided_slices (fun i => slice series i (i + n_lags)) series 0 n_lags n);
      try lia. reflexivity. }
  assert (Htg : strided series L F (Z.to_nat n)
                  (map (fun i => slice series (i + n_lags) (i + n_lags + n_forecasts))
                     (range n))).
  { apply (strided_slices
             (fun i => slice series (i + n_lags) (i + n_lags + n_forecasts))
             series n_lags n_forecasts n); try lia.
    intros i _. now rewrite (Z.add_comm i n_lags). }
  assert (Hfit : Forall (fun nf => 1 <= n ->
                           n_lags + n - 1 + n_forecasts
                           <= Z.of_nat (length (snd nf))) feats).
  { eapply Forall_impl; [|exact Hrows]. simpl. intros nf ->. lia. }
  assert (Hempty : from_numpy float32
                     (empty_like uninit
                        (_stride_time_features_for_forecasts
                           n_lags n_forecasts n t))
                   = ret (map (map float32)
                            (empty_like uninit
                               (_stride_time_features_for_forecasts
                                  n_lags n_forecasts n t)))).
  { unfold from_numpy. rewrite (rectangular_const _ F); [reflexivity|].
    intros r Hr. apply (In_nth _ _ []) in Hr. destruct Hr as (i & Hi & <-).
    rewrite empty_like_length in Hi.
    rewrite empty_like_nth by exact Hi.
    rewrite length_map, length_seq.
    destruct Htime as [Hc Hw]. apply Hw. lia. }
  unfold __init__.
  rewrite (tabularize_lagged uninit df sc feats n_lags n_forecasts predict_mode
             series t Hy Ht Hs Hl).
  fold n. cbn [bind ret fst snd]. unfold init_after_tabularized.
  cbn [time lags seasonalities].
  rewrite (from_numpy_strided (A:=unit) float32 _ _ _ _ _ Htime).
  cbn [bind ret].
  rewrite (from_numpy_strided (A:=unit) float32 _ _ _ _ _ Hlags).
  cbn [bind ret].
  assert (Hseasrow : forall i, (i < Z.to_nat n)%nat ->
            map (fun x : string * list (list float64) =>
                   (fst x,
                    nth i (map (map (map float32))
                             (_stride_time_features_for_forecasts
                                n_lags n_forecasts n (snd x))) []))
              feats
            = map (fun nf => (fst nf,
                              map (map float32) (window (snd nf) (L + i) F)))
                feats).
  { intros i Hi. apply map_ext_in. intros nf Hnf. f_equal.
    rewrite Forall_forall in Hfit.
    apply (strided_row (map float32) (snd nf) L F (Z.to_nat n) i); [|exact Hi].
    apply strided_slices; try lia; [reflexivity|]. now apply Hfit. }
  destruct sc as [cfg|].
  - rewrite seasonalities_tensors_strided by (trivial; lia).
    cbn [bind ret].
    destruct predict_mode.
    + rewrite Hempty. cbn [bind ret]. eexists. split; [reflexivity|].
      split.
      * unfold __len__. cbn [self_length].
        destruct Htime as [-> _]. lia.
      * intros i Hi.
        rewrite (getitem_inside _ (Z.to_nat n) (Z.of_nat i)).
        -- cbv zeta. cbn [self_inputs self_targets time lags seasonalities option_map].
           destruct (Z.ltb_spec (Z.of_nat i) 0); [lia|].
           rewrite Nat2Z.id.
           rewrite (strided_row float32 _ _ _ _ i _ Htime Hi).
           rewrite (strided_row float32 _ _ _ _ i _ Hlags Hi).
           rewrite nth_map_rows, map_map. cbn [fst snd].
           rewrite (Hseasrow i Hi).
           rewrite empty_like_nth by (destruct Htime as [-> _]; exact Hi).
           destruct Htime as [_ Hw]. destruct (Hw i Hi) as [_ ->].
           reflexivity.
        -- destruct Htime as [Hc1 _]; destruct Hlags as [Hc2 _];
             destruct Htg as [Hc3 _].
           unfold first_axis.
           cbn [self_inputs self_targets time lags seasonalities].
           split; [now rewrite length_map|].
           split; [try discriminate; intros ? [= <-]; now rewrite length_map|].
           split; [|now rewrite length_map, ?empty_like_length].
           intros S [= <-]. apply Forall_map, Forall_forall.
           intros nf _. cbn [snd].
           unfold _stride_time_features_for_forecasts.
           now rewrite !length_map, range_length.
        -- lia.
    + rewrite (from_numpy_strided (A:=unit) float32 _ _ _ _ _ Htg).
      cbn [bind ret]. eexists. split; [reflexivity|].
      split.
      * unfold __len__. cbn [self_length].
        destruct Htime as [-> _]. lia.
      * intros i Hi.
        rewrite (getitem_inside _ (Z.to_nat n) (Z.of_nat i)).
        -- cbv zeta. cbn [self_inputs self_targets time lags seasonalities option_map].
           destruct (Z.ltb_spec (Z.of_nat i) 0); [lia|].
           rewrite Nat2Z.id.
           rewrite (strided_row float32 _ _ _ _ i _ Htime Hi).
           rewrite (strided_row float32 _ _ _ _ i _ Hlags Hi).
           rewrite (strided_row float32 _ _ _ _ i _ Htg Hi).
           rewrite map_map. cbn [fst snd].
           rewrite (Hseasrow i Hi).
           reflexivity.
        -- destruct Htime as [Hc1 _]; destruct Hlags as [Hc2 _];
             destruct Htg as [Hc3 _].
           unfold first_axis.
           cbn [self_inputs self_targets time lags seasonalities].
           split; [now rewrite length_map|].
           split; [try discriminate; intros ? [= <-]; now rewrite length_map|].
           split; [|now rewrite length_map, ?empty_like_length].
           intros S [= <-]. apply Forall_map, Forall_forall.
           intros nf _. cbn [snd].
           unfold _stride_time_features_for_forecasts.
           now rewrite !length_map, range_length.
        -- lia.
  - cbn [bind ret].
    destruct predict_mode.
    + rewrite Hempty. cbn [bind ret]. eexists. split; [reflexivity|].
      split.
      * unfold __len__. cbn [self_length].
        destruct Htime as [-> _]. lia.
      * intros i Hi.
        rewrite (getitem_inside _ (Z.to_nat n) (Z.of_nat i)).
        -- cbv zeta. cbn [self_inputs self_targets time lags seasonalities option_map].
           destruct (Z.ltb_spec (Z.of_nat i) 0); [lia|].
           rewrite Nat2Z.id.
           rewrite (strided_row float32 _ _ _ _ i _ Htime Hi).
           rewrite (strided_row float32 _ _ _ _ i _ Hlags Hi).
           rewrite nth_map_rows.
           rewrite empty_like_nth by (destruct Htime as [-> _]; exact Hi).
           destruct Htime as [_ Hw]. destruct (Hw i Hi) as [_ ->].
           reflexivity.
        -- destruct Htime as [Hc1 _]; destruct Hlags as [Hc2 _];
             destruct Htg as [Hc3 _].
           unfold first_axis.
           cbn [self_inputs self_targets time lags seasonalities].
           split; [now rewrite length_map|].
           split; [try discriminate; intros ? [= <-]; now rewrite length_map|].
           split; [|now rewrite length_map, ?empty_like_length].
           discriminate.
        -- lia.
    + rewrite (from_numpy_strided (A:=unit) float32 _ _ _ _ _ Htg).
      cbn [bind ret]. eexists. split; [reflexivity|].
      split.
      * unfold __len__. cbn [self_length].
        destruct Htime as [-> _]. lia.
      * intros i Hi.
        rewrite (getitem_inside _ (Z.to_nat n) (Z.of_nat i)).
        -- cbv zeta. cbn [self_inputs self_targets time lags seasonalities option_map].
           destruct (Z.ltb_spec (Z.of_nat i) 0); [lia|].
           rewrite Nat2Z.id.
           rewrite (strided_row float32 _ _ _ _ i _ Htime Hi).
           rewrite (strided_row float32 _ _ _ _ i _ Hlags Hi).
           rewrite (strided_row float32 _ _ _ _ i _ Htg Hi).
           reflexivity.
        -- destruct Htime as [Hc1 _]; destruct Hlags as [Hc2 _];
             destruct Htg as [Hc3 _].
           unfold first_axis.
           cbn [self_inputs self_targets time lags seasonalities].
           split; [now rewrite length_map|].
           split; [try discriminate; intros ? [= <-]; now rewrite length_map|].
           split; [|now rewrite length_map, ?empty_like_length].
           discriminate.
        -- lia.
Qed.

(** Ten days with weekly seasonality, three lags and one forecast step:
    seven samples. *)
Lemma dataset_samples_witness :
  let df := normalized_table 10 in
  let feats := match seasonal_features_from_dates
                       (ColDatetime None (map Some (days 10))) weekly with
               | inr f => f
               | inl _ => []
               end in
  let series := map (fun i => Fin (INR i)) (seq 0 10) in
  let t := map (fun i => Fin (INR i / INR 9)) (seq 0 10) in
  exists self,
    __init__ (fun x => x) zeros df (Some weekly) 3 1 false = ret self /\
    __len__ self = Z.max 0 (len df - 3 + 1 - 1) /\
    forall i, (i < Z.to_nat (len df - 3 + 1 - 1))%nat ->
      __getitem__ self (Z.of_nat i)
      = inr (mkSample
               (map (fun x => x) (window t (Z.to_nat 3 + i) (Z.to_nat 1)))
               (Some (map (fun x => x) (window series i (Z.to_nat 3))))
               (Some (map (fun nf =>
                             (fst nf,
                              map (map (fun x => x))
                                (window (snd nf) (Z.to_nat 3 + i) (Z.to_nat 1))))
                        feats)),
             map (fun x => x) (window series (Z.to_nat 3 + i) (Z.to_nat 1))).
Proof.
  apply (dataset_samples (fun x => x) zeros (normalized_table 10) (Some weekly)
           (match seasonal_features_from_dates
                    (ColDatetime None (map Some (days 10))) weekly with
            | inr f => f
            | inl _ => []
            end)
           3 1 false
           (map (fun i => Fin (INR i)) (seq 0 10))
           (map (fun i => Fin (INR i / INR 9)) (seq 0 10))).
  - repeat constructor.
  - reflexivity.
  - reflexivity.
  - eexists. split; reflexivity.
  - lia.
  - lia.
Defined.

(** ** The dates to forecast *)

Lemma filter_all {A : Type} (f : A -> bool) (l : list A) :
  Forall (fun a => f a = true) l -> filter f l = l.
Proof.
  induction 1 as [|a l Ha _ IH]; simpl; [reflexivity|].
  now rewrite Ha, IH.
Qed.

Lemma Sorted_firstn {A : Type} (R : A -> A -> Prop) (l : list A) (n : nat) :
  Sorted R l -> Sorted R (firstn n l).
Proof.
  revert n. induction l as [|a l IH]; intros n H.
  - now rewrite firstn_nil.
  - destruct n as [|n]; simpl; [constructor|].
    apply Sorted_inv in H. destruct H as [Hl Hhd].
    constructor; [now apply IH|].
    destruct l as [|b l]; [now rewrite firstn_nil|].
    destruct n; simpl; constructor.
    now apply HdRel_inv in Hhd.
Qed.

(** Of dates in strictly ascending order from [start] on, only the first
    can be [start]. *)
Lemma filter_after_start (start : Z) (l : list Z) :
  strictly_increasing l -> Forall (fun d => start <= d) l ->
  Forall (fun d => start < d) (filter (fun d => start <? d) l) /\
  strictly_increasing (filter (fun d => start <? d) l) /\
  (length l - 1 <= length (filter (fun d => (start <? d)%Z) l))%nat.
Proof.
  intros Hs Hge. destruct l as [|a rest].
  - simpl. repeat split; constructor.
  - pose proof (strictly_increasing_strong _ Hs) as Hstrong.
    apply StronglySorted_inv in Hstrong. destruct Hstrong as [_ Hrest].
    inversion Hge as [|? ? Ha _]; subst.
    assert (Hall : Forall (fun d => start < d) rest).
    { eapply Forall_impl; [|exact Hrest]. simpl. intros d Hd. lia. }
    assert (Hfilter : filter (fun d => start <? d) rest = rest).
    { apply filter_all. eapply Forall_impl; [|exact Hall].
      simpl. intros d Hd. now apply Z.ltb_lt. }
    simpl. rewrite Hfilter.
    destruct (Z.ltb_spec start a) as [Hlt|Hnlt].
    + repeat split; [now constructor|exact Hs|simpl; lia].
    + repeat split; [exact Hall| |lia].
      now apply Sorted_inv in Hs.
Qed.

(** [make_future_df] on a table the validator accepts, when [freq] moves
    forward in time and [pd.date_range] accepts it: the result has
    exactly [periods] rows labelled from zero, its dates are in strictly
    ascending order and all later than every date of the validated
    table, and its column [y] holds [None] in every row. *)
Theorem make_future_df_rows (lib : Library)
  (date_range : Z -> Z -> string -> result (list Z))
  (df df' out : DataFrame) (periods : Z) (freq : string) :
  argsort_correct (argsort lib) -> wf df ->
  check_dataframe lib df = (df', ret out) ->
  date_range_forward date_range freq ->
  (forall start, exists l, date_range start (periods + 1) freq = ret l) ->
  0 <= periods ->
  exists hist dates,
    getitem out "ds" = ret (ColDatetime None (map Some hist)) /\
    make_future_df lib date_range df periods freq
    = ret (mkDataFrame (range periods) None
             [("ds", ColDatetime None (map Some dates));
              ("y", ColObject (map (fun _ => PyNone) dates))]) /\
    length dates = Z.to_nat periods /\
    strictly_increasing dates /\
    forall h d, In h hist -> In d dates -> h < d.
Proof.
  intros Hsort Hwf Hcheck Hfwd Hruns Hp.
  destruct (check_dataframe_output lib df df' out Hsort Hwf Hcheck)
    as (zs & y' & order & Hperm & Hds & Hzs & _ & _ & _ & Hrows & _ & _ & Hout).
  pose proof (in_range_of_permutation _ _ Hperm) as Horder.
  rewrite <- Hzs in Horder.
  assert (Hhist : getitem out "ds"
                  = ret (ColDatetime None (map Some (take 0 zs order)))).
  { rewrite Hout. apply getitem_od_get in Hds.
    rewrite (getitem_rows_taken _ _ _ order "ds" _ Hds).
    simpl. now rewrite take_some. }
  set (hist := take 0 zs order) in *.
  assert (Hne : hist <> []).
  { intros E. apply (f_equal (@length Z)) in E.
    unfold hist in E. rewrite take_length in E.
    rewrite (Permutation_length Hperm), length_seq in E. simpl in E. lia. }
  destruct (Hsort (map Some hist)) as [Hperm2 _].
  rewrite length_map in Hperm2.
  pose proof (in_range_of_permutation _ _ Hperm2) as Horder2.
  set (order2 := argsort lib (map Some hist)) in *.
  assert (Hsorted : sort_series lib (map Some hist)
                    = map Some (take 0 hist order2)).
  { unfold sort_series. fold order2. now apply take_some. }
  assert (Hperm3 : Permutation (take 0 hist order2) hist)
    by now apply take_permutation.
  assert (Hne3 : take 0 hist order2 <> []).
  { intros E. rewrite E in Hperm3. apply Permutation_nil in Hperm3.
    contradiction. }
  destruct (ts_max_spec _ Hne3) as (last_date & Hmax & _ & Hlast).
  destruct (Hruns last_date) as (l & Hl).
  destruct (Hfwd _ _ _ Hl) as (Hlen & Hinc & Hge).
  destruct (filter_after_start last_date l Hinc Hge) as (Hafter & Hinc' & Hlen').
  set (later := filter (fun d => last_date <? d) l) in *.
  exists hist, (firstn (Z.to_nat periods) later).
  assert (Hcount : length (firstn (Z.to_nat periods) later) = Z.to_nat periods).
  { rewrite length_firstn. lia. }
  split; [exact Hhist|]. split; [|split; [exact Hcount|split]].
  - unfold make_future_df. rewrite Hcheck. cbn [snd bind ret].
    rewrite Hhist. cbn [bind ret to_datetime datetimes].
    unfold to_datetime. cbn [bind ret datetimes].
    rewrite Hsorted, Hmax. rewrite Hl. cbn [bind ret].
    fold later. rewrite slice_to_firstn by exact Hp.
    unfold reset_index, setitem, len. cbn [index columns od_set].
    rewrite Hcount, (Z2Nat.id periods Hp), range_length, (Z2Nat.id periods Hp).
    reflexivity.
  - now apply Sorted_firstn.
  - intros h d Hh Hd.
    assert (Hd' : In d later).
    { rewrite <- (firstn_skipn (Z.to_nat periods) later).
      apply in_or_app. now left. }
    rewrite Forall_forall in Hafter. specialize (Hafter d Hd').
    apply (Permutation_in _ (Permutation_sym Hperm3)) in Hh.
    specialize (Hlast h Hh). lia.
Qed.

Lemma steps_increasing (start step : Z) (a n : nat) :
  0 < step ->
  Sorted Z.lt (map (fun i => start + i * step) (map Z.of_nat (seq a n))).
Proof.
  intros Hstep. revert a. induction n as [|n IH]; intros a; cbn [map seq].
  - constructor.
  - constructor; [apply IH|].
    destruct n; cbn [map seq]; constructor.
    rewrite Nat2Z.inj_succ, Z.mul_succ_l. lia.
Qed.

Lemma steps_from_start (start step : Z) (n : Z) :
  0 < step ->
  Forall (fun d => start <= d) (map (fun i => start + i * step) (range n)).
Proof.
  intros Hstep. apply Forall_forall. intros d Hd.
  apply in_map_iff in Hd. destruct Hd as (i & <- & Hi).
  unfold range in Hi. apply in_map_iff in Hi. destruct Hi as (k & <- & _).
  nia.
Qed.

(** The stand-in for [pd.date_range] keeps the contract, for every
    frequency it knows. *)
Lemma sample_date_range_forward (freq : string) :
  date_range_forward sample_date_range freq.
Proof.
  intros start periods l. unfold sample_date_range.
  destruct (periods <? 0); [discriminate|].
  destruct (String.eqb freq "D").
  - intros [= <-]. rewrite length_map, range_length.
    split; [reflexivity|]. split.
    + apply steps_increasing. reflexivity.
    + apply steps_from_start. reflexivity.
  - destruct (String.eqb freq "H"); [|discriminate].
    intros [= <-]. rewrite length_map, range_length.
    split; [reflexivity|]. split.
    + apply steps_increasing. reflexivity.
    + apply steps_from_start. reflexivity.
Qed.

(** Three days to forecast after a table of two days given as integers. *)
Lemma make_future_df_rows_witness :
  let out := mkDataFrame [0; 1] None
               [("ds", ColDatetime None [Some 0; Some day]);
                ("y", ColFloat [Fin 2; Fin 1])] in
  exists hist dates,
    getitem out "ds" = ret (ColDatetime None (map Some hist)) /\
    make_future_df sample_library sample_date_range int_dates_table 3 "D"
    = ret (mkDataFrame (range 3) None
             [("ds", ColDatetime None (map Some dates));
              ("y", ColObject (map (fun _ => PyNone) dates))]) /\
    length dates = Z.to_nat 3 /\
    strictly_increasing dates /\
    forall h d, In h hist -> In d dates -> h < d.
Proof.
  apply (make_future_df_rows sample_library sample_date_range int_dates_table
           (fst (check_dataframe sample_library int_dates_table))).
  - exact insertion_argsort_correct.
  - repeat constructor.
  - reflexivity.
  - apply sample_date_range_forward.
  - intros start. eexists. reflexivity.
  - lia.
Defined.

(** ** Splitting without overlap *)







(** ** Time on the unit interval *)

Lemma unit_fraction (x s : R) :
  (0 <= x <= s)%R -> (0 < s)%R -> (0 <= x / s <= 1)%R.
Proof.
  intros Hx Hs. pose proof (Rinv_0_lt_compat s Hs) as Hinv.
  unfold Rdiv. split.
  - apply Rmult_le_pos; lra.
  - replace 1%R with (s * / s)%R by (field; lra).
    apply Rmult_le_compat_r; lra.
Qed.

Lemma fraction_monotone (x y s : R) :
  (x <= y)%R -> (0 < s)%R -> (x / s <= y / s)%R.
Proof.
  intros Hxy Hs. pose proof (Rinv_0_lt_compat s Hs) as Hinv.
  unfold Rdiv. apply Rmult_le_compat_r; lra.
Qed.

Lemma nondecreasing_nth (zs : list Z) (i j : nat) :
  nondecreasing zs -> (i <= j < length zs)%nat -> nth i zs 0 <= nth j zs 0.
Proof.
  intros Hs. apply nondecreasing_strong in Hs.
  revert i j. induction Hs as [|a zs Hs IH Hall]; intros i j Hij.
  - simpl in Hij. lia.
  - destruct i as [|i], j as [|j]; simpl in *; try lia.
    + rewrite Forall_forall in Hall. apply Hall. apply nth_In. lia.
    + apply IH. lia.
Qed.

(** On a validated table whose timestamps are not all the same, the
    column [t] that [normalize] adds from the estimated scaling values
    runs from 0 in the first row to 1 in the last, never decreases, and
    so stays within the unit interval. *)
Theorem normalize_unit_interval (df : DataFrame) (ds : list Z) (ys : list R)
  (normalize_y : bool) (p : data_params) :
  validated df ds ys ->
  init_data_params df normalize_y None = ret p ->
  t_scale p <> Some 0 ->
  exists df' t,
    normalize df p = ret df' /\
    getitem df' "t" = ret (ColFloat (map Fin t)) /\
    length t = length ds /\
    nth 0 t 0%R = 0%R /\
    nth (length ds - 1) t 0%R = 1%R /\
    (forall i j, (i <= j < length ds)%nat -> (nth i t 0 <= nth j t 0)%R) /\
    Forall (fun x => (0 <= x <= 1)%R) t.
Proof.
  intros Hv Hp Hspan.
  destruct (validated_lengths df ds ys Hv) as (Hlen & Hys & Hds).
  pose proof Hv as (_ & _ & _ & Hsorted & Htwo).
  destruct (init_data_params_validated df ds ys normalize_y Hv)
    as (lo & hi & Hinit & Hlo_in & Hlo & Hhi_in & Hhi).
  rewrite Hinit in Hp. injection Hp as <-. cbn [t_scale] in Hspan.
  assert (Hpos : lo < hi).
  { specialize (Hlo hi Hhi_in).
    destruct (Z.eq_dec lo hi) as [->|Hne]; [|lia].
    exfalso. apply Hspan. now rewrite Z.sub_diag. }
  assert (Hpos' : (0 < IZR (hi - lo))%R) by (apply IZR_lt; lia).
  assert (Hfirst : nth 0 ds 0 = lo).
  { pose proof (nondecreasing_nth ds 0 0 Hsorted ltac:(lia)) as _.
    assert (Hin : In (nth 0 ds 0) ds) by (apply nth_In; lia).
    specialize (Hlo _ Hin).
    apply (In_nth _ _ 0) in Hlo_in. destruct Hlo_in as (k & Hk & Ek).
    pose proof (nondecreasing_nth ds 0 k Hsorted ltac:(lia)). lia. }
  assert (Hlast : nth (length ds - 1) ds 0 = hi).
  { assert (Hin : In (nth (length ds - 1) ds 0) ds) by (apply nth_In; lia).
    specialize (Hhi _ Hin).
    apply (In_nth _ _ 0) in Hhi_in. destruct Hhi_in as (k & Hk & Ek).
    pose proof (nondecreasing_nth ds k (length ds - 1) Hsorted ltac:(lia)). lia. }
  set (frac := fun d => (IZR (d - lo) / IZR (hi - lo))%R).
  eexists _, (map frac ds).
  split; [apply (normalize_validated df ds ys lo (hi - lo) _ _ Hv)|].
  split.
  { rewrite getitem_setitem_other by discriminate.
    rewrite getitem_setitem_same. do 2 f_equal.
    rewrite map_map. apply map_ext. intros d.
    unfold of_int, frac. apply fdiv_fin. lra. }
  split; [apply length_map|].
  split.
  { rewrite (nth_map_default frac ds 0 0) by lia.
    rewrite Hfirst. unfold frac. rewrite Z.sub_diag. lra. }
  split.
  { rewrite (nth_map_default frac ds _ 0) by lia.
    rewrite Hlast. unfold frac. field. lra. }
  split.
  - intros i j Hij.
    rewrite (nth_map_default frac ds i 0), (nth_map_default frac ds j 0) by lia.
    unfold frac. apply fraction_monotone; [|exact Hpos'].
    apply IZR_le. pose proof (nondecreasing_nth ds i j Hsorted Hij). lia.
  - apply Forall_forall. intros x Hx. apply in_map_iff in Hx.
    destruct Hx as (d & <- & Hd). unfold frac.
    apply unit_fraction; [|exact Hpos'].
    specialize (Hlo d Hd). specialize (Hhi d Hd).
    split; apply IZR_le; lia.
Qed.

Lemma normalize_unit_interval_witness :
  let p := mkParams (Some 0) (Some (2 * day - 0))
             (Some (mean (map Fin (map INR (seq 0 3)))))
             (Some (std (map Fin (map INR (seq 0 3))))) in
  exists df' t,
    normalize (raw_table 3) p = ret df' /\
    getitem df' "t" = ret (ColFloat (map Fin t)) /\
    length t = length (days 3) /\
    nth 0 t 0%R = 0%R /\
    nth (length (days 3) - 1) t 0%R = 1%R /\
    (forall i j, (i <= j < length (days 3))%nat ->
                 (nth i t 0 <= nth j t 0)%R) /\
    Forall (fun x => (0 <= x <= 1)%R) t.
Proof.
  apply (normalize_unit_interval (raw_table 3) (days 3) (map INR (seq 0 3)) true).
  - exact raw_table_validated.
  - reflexivity.
  - simpl. discriminate.
Defined.

(** ** Timestamps that are all the same *)

Lemma fdiv_zero_zero : fdiv (Fin 0) (Fin 0) = NaN.
Proof.
  unfold fdiv, Rzero. destruct (Req_dec_T 0 0) as [_|H]; [reflexivity|].
  now contradiction H.
Qed.

(** A validated table may hold one timestamp in every row.  The time
    span the estimator returns is then zero, and the column [t] that
    [normalize] adds holds NaN in every row: zero over zero, with no
    exception. *)
Theorem normalize_zero_span (df : DataFrame) (ds : list Z) (ys : list R)
  (normalize_y : bool) (p : data_params) :
  validated df ds ys ->
  init_data_params df normalize_y None = ret p ->
  t_scale p = Some 0 ->
  exists df',
    normalize df p = ret df' /\
    getitem df' "t" = ret (ColFloat (map (fun _ => NaN) ds)).
Proof.
  intros Hv Hp Hspan.
  destruct (init_data_params_validated df ds ys normalize_y Hv)
    as (lo & hi & Hinit & Hlo_in & Hlo & Hhi_in & Hhi).
  rewrite Hinit in Hp. injection Hp as <-. cbn [t_scale] in Hspan.
  injection Hspan as Hspan.
  eexists.
  split; [apply (normalize_validated df ds ys lo (hi - lo) _ _ Hv)|].
  rewrite getitem_setitem_other by discriminate.
  rewrite getitem_setitem_same. do 2 f_equal.
  apply map_ext_in. intros d Hd.
  specialize (Hlo d Hd). specialize (Hhi d Hd).
  replace (d - lo) with 0 by lia. rewrite Hspan.
  apply fdiv_zero_zero.
Qed.

(** Two rows at one timestamp. *)
Lemma normalize_zero_span_witness :
  exists df',
    normalize ties_table (mkParams (Some 0) (Some 0) (Some (Fin 0)) (Some (Fin 1)))
    = ret df' /\
    getitem df' "t" = ret (ColFloat (map (fun _ => NaN) [0; 0])).
Proof.
  apply (normalize_zero_span ties_table [0; 0] [1; 2]%R false).
  - split; [repeat constructor|].
    split; [reflexivity|].
    split; [eexists; split; reflexivity|].
    split; [repeat constructor; lia|simpl; lia].
  - reflexivity.
  - reflexivity.
Defined.

(** ** Standard scores *)

Lemma Rsum_centered (l : list R) (mu s : R) :
  s <> 0%R ->
  Rsum (map (fun y => ((y - mu) / s)%R) l)
  = ((Rsum l - INR (length l) * mu) / s)%R.
Proof.
  intros Hs. induction l as [|a l IH].
  - simpl. field. exact Hs.
  - cbn [map Rsum fold_right length]. unfold Rsum in IH. rewrite IH.
    rewrite S_INR. field. exact Hs.
Qed.

Lemma Rsum_squares_scaled (l : list R) (mu s : R) :
  s <> 0%R ->
  Rsum (map (fun v => (v * v)%R) (map (fun y => ((y - mu) / s)%R) l))
  = (Rsum (map (fun y => (y - mu) * (y - mu)) l) / (s * s))%R.
Proof.
  intros Hs. induction l as [|a l IH].
  - simpl. field. exact Hs.
  - cbn [map Rsum fold_right]. unfold Rsum in IH. rewrite IH.
    field. exact Hs.
Qed.

(** With exact arithmetic, [normalize] with the values estimated under
    [normalize_y] turns the column [y] of a validated table into standard
    scores: [y_scaled] has mean zero and its squares add up to the number
    of rows (variance one), provided the values are not all the same. *)
Theorem normalize_standard_score (df : DataFrame) (ds : list Z) (ys : list R)
  (p : data_params) :
  validated df ds ys ->
  init_data_params df true None = ret p ->
  y_scale p <> Some (Fin 0) ->
  exists df' z,
    normalize df p = ret df' /\
    getitem df' "y_scaled" = ret (ColFloat (map Fin z)) /\
    length z = length ys /\
    Rsum z = 0%R /\
    Rsum (map (fun v => (v * v)%R) z) = INR (length ys).
Proof.
  intros Hv Hp Hscale.
  destruct (validated_lengths df ds ys Hv) as (Hlen & Hys & Hds).
  destruct (init_data_params_validated df ds ys true Hv)
    as (lo & hi & Hinit & _).
  rewrite Hinit in Hp. injection Hp as <-. cbn [y_scale] in Hscale.
  destruct (std_finite ys Hys) as [Hstd Hvar].
  rewrite Hstd in Hscale.
  set (n := INR (length ys)) in *.
  set (mu := (Rsum ys / n)%R) in *.
  set (var := (Rsum (map (fun y => ((y - mu) * (y - mu))%R) ys) / n)%R) in *.
  assert (Hn : (0 < n)%R).
  { unfold n. apply lt_0_INR. destruct ys; [contradiction|simpl; lia]. }
  assert (Hsigma : sqrt var <> 0%R) by (intros E; apply Hscale; now rewrite E).
  assert (Hsq : (sqrt var * sqrt var = var)%R) by now apply sqrt_sqrt.
  exists (setitem
            (setitem df "t"
               (ColFloat (map (fun d => fdiv (of_int (d - lo)) (of_int (hi - lo))) ds)))
            "y_scaled"
            (ColFloat (map (fun y => fdiv (fsub (Fin y) (mean (map Fin ys)))
                                       (std (map Fin ys))) ys))),
         (map (fun y => ((y - mu) / sqrt var)%R) ys).
  split; [apply (normalize_validated df ds ys lo (hi - lo) _ _ Hv)|].
  split.
  { rewrite getitem_setitem_same. do 2 f_equal.
    rewrite map_map. apply map_ext. intros y.
    rewrite (mean_finite ys Hys), Hstd. fold n. fold mu.
    unfold fsub, fneg, fadd. rewrite fdiv_fin by exact Hsigma.
    f_equal. }
  split; [apply length_map|].
  split.
  - rewrite Rsum_centered by exact Hsigma. fold n.
    unfold mu. field. split; first [exact Hsigma|lra].
  - rewrite Rsum_squares_scaled by exact Hsigma. rewrite Hsq.
    assert (Hvar' : var <> 0%R) by (intros E; apply Hsigma; rewrite E; apply sqrt_0).
    unfold var in *. fold n. field. split; [lra|].
    intros E. apply Hvar'. rewrite E. unfold Rdiv. apply Rmult_0_l.
Qed.

Lemma normalize_standard_score_witness :
  let p := mkParams (Some 0) (Some (2 * day - 0))
             (Some (mean (map Fin (map INR (seq 0 3)))))
             (Some (std (map Fin (map INR (seq 0 3))))) in
  exists df' z,
    normalize (raw_table 3) p = ret df' /\
    getitem df' "y_scaled" = ret (ColFloat (map Fin z)) /\
    length z = length (map INR (seq 0 3)) /\
    Rsum z = 0%R /\
    Rsum (map (fun v => (v * v)%R) z) = INR (length (map INR (seq 0 3))).
Proof.
  apply (normalize_standard_score (raw_table 3) (days 3) (map INR (seq 0 3))).
  - exact raw_table_validated.
  - reflexivity.
  - cbn [y_scale]. destruct raw_table_std_positive as (sigma & -> & Hpos).
    intros [= E]. lra.
Defined.

(** ** Samples of the training and the validation table *)

Lemma window_of_head {A : Type} (x : list A) (k a n : nat) :
  (a + n <= k)%nat -> window (firstn k x) a n = window x a n.
Proof.
  intros H. unfold window.
  rewrite skipn_firstn_comm, firstn_firstn.
  f_equal. lia.
Qed.

Lemma window_of_tail {A : Type} (x : list A) (k a n : nat) :
  window (skipn k x) a n = window x (k + a) n.
Proof.
  unfold window. rewrite skipn_skipn. now rewrite (Nat.add_comm a k).
Qed.

Lemma seq_from (a k : nat) : seq a k = map (fun i => (a + i)%nat) (seq 0 k).
Proof.
  revert a. induction k as [|k IH]; intros a; simpl; [reflexivity|].
  rewrite Nat.add_0_r. f_equal.
  rewrite (IH (S a)), (IH 1%nat), map_map.
  apply map_ext. intros i. lia.
Qed.

Lemma firstn_of_seq (k a n : nat) :
  (k <= n)%nat -> firstn k (seq a n) = seq a k.
Proof.
  revert a n. induction k as [|k IH]; intros a n H; [reflexivity|].
  destruct n as [|n]; [lia|]. simpl. f_equal. apply IH. lia.
Qed.

Lemma firstn_map_range {A : Type} (f : Z -> A) (c n : Z) :
  c <= n -> firstn (Z.to_nat c) (map f (range n)) = map f (range c).
Proof.
  intros H. unfold range. rewrite !firstn_map, firstn_of_seq by lia.
  reflexivity.
Qed.

Lemma skipn_map_range {A : Type} (f : Z -> A) (m n : Z) :
  0 <= m ->
  skipn (Z.to_nat m) (map f (range n)) = map (fun i => f (m + i)) (range (n - m)).
Proof.
  intros H. unfold range. rewrite !skipn_map, skipn_seq.
  rewrite seq_from, !map_map.
  replace (Z.to_nat n - Z.to_nat m)%nat with (Z.to_nat (n - m)) by lia.
  apply map_ext. intros i. f_equal. lia.
Qed.

Lemma slice_of_head {A : Type} (x : list A) (k : nat) (a b : Z) :
  0 <= a <= b -> b <= Z.of_nat k -> slice (firstn k x) a b = slice x a b.
Proof.
  intros Hab Hb. rewrite !slice_window by lia.
  apply window_of_head. lia.
Qed.

Lemma slice_of_tail {A : Type} (x : list A) (k : nat) (a b : Z) :
  0 <= a <= b ->
  slice (skipn k x) a b = slice x (Z.of_nat k + a) (Z.of_nat k + b).
Proof.
  intros Hab. rewrite !slice_window by lia.
  rewrite window_of_tail. f_equal; lia.
Qed.

Lemma in_range (n i : Z) : In i (range n) -> 0 <= i < n.
Proof.
  unfold range. intros H. apply in_map_iff in H.
  destruct H as (k & <- & Hk). apply in_seq in Hk. lia.
Qed.

Lemma getitem_rows (df : DataFrame) (idx : list Z) (nm : option string)
  (f : column -> column) (name : string) (c : column) :
  getitem df name = ret c ->
  getitem (reset_index
             (mkDataFrame idx nm
                (map (fun nc => (fst nc, f (snd nc))) (columns df)))) name
  = ret (f c).
Proof.
  intros H. apply getitem_od_get in H. unfold getitem, reset_index.
  cbn [columns]. now rewrite od_get_map, H.
Qed.

(** [split_df] with [inputs_overbleed] takes no sample apart.  When the
    windows fit the table and the fraction lies in [[0, 1]], and with
    [n_train = n_samples - floor(x)] for the product [x] of [n_samples]
    and [valid_p] in double precision, the samples of the validation
    table are the samples of the whole table from number [n_train] on,
    and the samples of the training table are its first
    [n_train + 1 - n_forecasts]: the [n_forecasts - 1] samples in
    between, whose targets reach into the validation rows, are in
    neither. *)
Theorem split_df_keeps_samples (fl : Float64) (uninit : nat -> nat -> float64)
  (df : DataFrame) (n_lags n_forecasts : Z) (p : R) (series t : list float64) :
  float64_correct fl ->
  wf df ->
  getitem df "y_scaled" = ret (ColFloat series) ->
  getitem df "t" = ret (ColFloat t) ->
  0 < n_lags -> 1 <= n_forecasts ->
  0 <= len df - n_lags + 1 - n_forecasts <= 2 ^ 53 ->
  (0 <= p <= 1)%R ->
  let n_samples := len df - n_lags + 1 - n_forecasts in
  exists x df_train df_val inp tg inp_train tg_train inp_val tg_val,
    round fl (IZR n_samples * p) = Fin x /\
    let n_train := n_samples - Int_part x in
    let head := Z.to_nat (n_train + 1 - n_forecasts) in
    let rest := Z.to_nat n_train in
    split_df fl df n_lags n_forecasts (Fin p) true = ret (df_train, df_val) /\
    tabularize_univariate_datetime uninit df None n_lags n_forecasts false
    = ret (inp, tg) /\
    tabularize_univariate_datetime uninit df_train None n_lags n_forecasts false
    = ret (inp_train, tg_train) /\
    tabularize_univariate_datetime uninit df_val None n_lags n_forecasts false
    = ret (inp_val, tg_val) /\
    time inp_train = firstn head (time inp) /\
    lags inp_train = option_map (firstn head) (lags inp) /\
    tg_train = firstn head tg /\
    time inp_val = skipn rest (time inp) /\
    lags inp_val = option_map (skipn rest) (lags inp) /\
    tg_val = skipn rest tg.
Proof.
  intros Hfl Hwf Hy Ht Hl Hf Hn Hp n_samples.
  destruct (float_product fl n_samples p Hfl Hn Hp)
    as (x & Hconv & Hx & Hx0 & _ & Hk).
  exists x.
  set (n_train := n_samples - Int_part x).
  set (head := Z.to_nat (n_train + 1 - n_forecasts)).
  set (rest := Z.to_nat n_train).
  assert (Ht0 : 0 <= n_train <= n_samples) by (unfold n_train; lia).
  pose proof (wf_float_length df "y_scaled" series Hwf Hy) as Hlen_y.
  pose proof (wf_float_length df "t" t Hwf Ht) as Hlen_t.
  unfold split_df. fold n_samples. rewrite Hconv. cbn [bind ret].
  unfold fmul64, int. rewrite Hx. rewrite trunc_nonneg by exact Hx0.
  cbn [bind ret]. fold n_train.
  replace (n_train + n_lags - n_lags) with n_train by lia.
  rewrite iloc_to_rows by lia.
  rewrite iloc_from_rows by lia.
  set (a := Z.to_nat (n_train + n_lags)).
  fold rest.
  set (df_train := reset_index (mkDataFrame (firstn a (index df)) _ _)).
  set (df_val := reset_index (mkDataFrame (skipn rest (index df)) _ _)).
  assert (Hlen_train : len df_train = n_train + n_lags).
  { unfold df_train, reset_index, len. cbn [index].
    rewrite range_length, Nat2Z.id, length_firstn.
    unfold n_samples, a in *. unfold len in *. lia. }
  assert (Hlen_val : len df_val = len df - n_train).
  { unfold df_val, reset_index, len. cbn [index].
    rewrite range_length, Nat2Z.id, length_skipn.
    unfold n_samples, rest in *. unfold len in *. lia. }
  pose proof (getitem_rows df (firstn a (index df)) (index_name df)
                (col_map (fun A l => firstn a l)) _ _ Hy) as Hy_train.
  pose proof (getitem_rows df (firstn a (index df)) (index_name df)
                (col_map (fun A l => firstn a l)) _ _ Ht) as Ht_train.
  pose proof (getitem_rows df (skipn rest (index df)) (index_name df)
                (col_map (fun A l => skipn rest l)) _ _ Hy) as Hy_val.
  pose proof (getitem_rows df (skipn rest (index df)) (index_name df)
                (col_map (fun A l => skipn rest l)) _ _ Ht) as Ht_val.
  cbn [col_map] in Hy_train, Ht_train, Hy_val, Ht_val.
  fold df_train in Hy_train, Ht_train. fold df_val in Hy_val, Ht_val.
  exists df_train, df_val.
  rewrite (tabularize_lagged uninit df None [] n_lags n_forecasts false
             series t Hy Ht eq_refl Hl).
  rewrite (tabularize_lagged uninit df_train None [] n_lags n_forecasts false
             _ _ Hy_train Ht_train eq_refl Hl).
  rewrite (tabularize_lagged uninit df_val None [] n_lags n_forecasts false
             _ _ Hy_val Ht_val eq_refl Hl).
  rewrite Hlen_train, Hlen_val. fold n_samples.
  replace (n_train + n_lags - n_lags + 1 - n_forecasts)
    with (n_train + 1 - n_forecasts) by lia.
  replace (len df - n_train - n_lags + 1 - n_forecasts)
    with (n_samples - n_train) by (unfold n_samples; lia).
  eexists _, _, _, _, _, _.
  split; [reflexivity|].
  split; [reflexivity|]. split; [reflexivity|].
  split; [reflexivity|]. split; [reflexivity|].
  cbn [time lags option_map]. unfold _stride_time_features_for_forecasts.
  unfold head. rewrite !firstn_map_range by lia.
  unfold rest. rewrite !skipn_map_range by lia.
  assert (Ha : Z.of_nat a = n_train + n_lags) by (unfold a; lia).
  assert (Hrest : Z.of_nat (Z.to_nat n_train) = n_train) by lia.
  split; [|split; [|split; [|split; [|split]]]].
  - apply map_ext_in. intros i Hi. apply in_range in Hi.
    apply slice_of_head; lia.
  - f_equal. apply map_ext_in. intros i Hi. apply in_range in Hi.
    apply slice_of_head; lia.
  - apply map_ext_in. intros i Hi. apply in_range in Hi.
    apply slice_of_head; lia.
  - apply map_ext_in. intros i Hi. apply in_range in Hi.
    rewrite slice_of_tail by lia. rewrite Hrest. f_equal; lia.
  - f_equal. apply map_ext_in. intros i Hi. apply in_range in Hi.
    rewrite slice_of_tail by lia. rewrite Hrest. f_equal; lia.
  - apply map_ext_in. intros i Hi. apply in_range in Hi.
    rewrite slice_of_tail by lia. rewrite Hrest. f_equal; lia.
Qed.

(** Ten rows, three lags, one forecast step, a quarter held out. *)
Lemma split_df_keeps_samples_witness :
  let df := normalized_table 10 in
  let n_samples := len df - 3 + 1 - 1 in
  exists x df_train df_val inp tg inp_train tg_train inp_val tg_val,
    round sample_float64 (IZR n_samples * (1 / 4)) = Fin x /\
    let n_train := n_samples - Int_part x in
    split_df sample_float64 df 3 1 (Fin (1 / 4)) true = ret (df_train, df_val) /\
    tabularize_univariate_datetime zeros df None 3 1 false = ret (inp, tg) /\
    tabularize_univariate_datetime zeros df_train None 3 1 false
    = ret (inp_train, tg_train) /\
    tabularize_univariate_datetime zeros df_val None 3 1 false
    = ret (inp_val, tg_val) /\
    time inp_train = firstn (Z.to_nat (n_train + 1 - 1)) (time inp) /\
    lags inp_train = option_map (firstn (Z.to_nat (n_train + 1 - 1))) (lags inp) /\
    tg_train = firstn (Z.to_nat (n_train + 1 - 1)) tg /\
    time inp_val = skipn (Z.to_nat n_train) (time inp) /\
    lags inp_val = option_map (skipn (Z.to_nat n_train)) (lags inp) /\
    tg_val = skipn (Z.to_nat n_train) tg.
Proof.
  apply (split_df_keeps_samples sample_float64 zeros (normalized_table 10)
           3 1 (1 / 4)
           (map (fun i => Fin (INR i)) (seq 0 10))
           (map (fun i => Fin (INR i / INR 9)) (seq 0 10))).
  - exact sample_float64_correct.
  - repeat constructor.
  - reflexivity.
  - reflexivity.
  - lia.
  - lia.
  - unfold len. simpl. lia.
  - lra.
Defined.

(** ** A table with a timezone *)

(** A table whose timestamps carry a timezone is rejected with a
    [ValueError], but only after the values were checked and coerced: the
    caller's table then holds the numeric column [y], although nothing is
    returned. *)
Theorem check_dataframe_rejects_timezone (lib : Library) (df : DataFrame)
  (y y' : column) (tz : string) (l : list nanos) :
  getitem df "y" = ret y ->
  getitem df "ds" = ret (ColDatetime (Some tz) l) ->
  len df <> 0 ->
  2 <= len (mask_rows df (notnull y)) ->
  any (isnull y) = false ->
  to_numeric lib y = ret y' ->
  any (col_isinf y') = false ->
  any (map is_none l) = false ->
  check_dataframe lib df
  = (setitem df "y" y',
     raise (ValueError "Column ds has timezone specified, which is not supported. Remove timezone.")).
Proof.
  intros Hy Hds Hlen Hhist Hnull Hnum Hinf Hdsnull.
  unfold ret in *.
  unfold check_dataframe, mbind, this, when, mraise, mret, lift, assign, set_index_name.
  apply Z.eqb_neq in Hlen. rewrite Hlen.
  rewrite (getitem_contains _ _ _ Hy), (getitem_contains _ _ _ Hds).
  cbn [negb orb]. rewrite Hy. cbv beta iota.
  apply Z.ltb_ge in Hhist. rewrite Hhist, Hnull, Hnum. cbv beta iota.
  rewrite Hinf, Hds. cbv beta iota. cbn [isnull is_int64]. rewrite Hdsnull.
  cbv beta iota.
  rewrite getitem_setitem_other by discriminate.
  rewrite Hds. cbn [bind ret]. unfold to_datetime, ret. cbv beta iota.
  cbn [dt_tz is_none negb]. unfold ret. cbv beta iota.
  rewrite (setitem_same (setitem df "y" y') "ds" (ColDatetime (Some tz) l)).
  - reflexivity.
  - rewrite getitem_setitem_other by discriminate. exact Hds.
Qed.

(** Two rows stamped in UTC, their values Python integers. *)
Lemma check_dataframe_rejects_timezone_witness :
  let df := mkDataFrame [0; 1] None
              [("ds", ColDatetime (Some "UTC") [Some 0; Some day]);
               ("y", ColObject [PyInt 1; PyInt 2])] in
  check_dataframe sample_library df
  = (setitem df "y" (ColFloat [of_int 1; of_int 2]),
     raise (ValueError "Column ds has timezone specified, which is not supported. Remove timezone.")).
Proof.
  apply (check_dataframe_rejects_timezone sample_library _
           (ColObject [PyInt 1; PyInt 2]) (ColFloat [of_int 1; of_int 2])
           "UTC" [Some 0; Some day]).
  - reflexivity.
  - reflexivity.
  - discriminate.
  - unfold len. simpl. lia.
  - reflexivity.
  - reflexivity.
  - reflexivity.
  - reflexivity.
Defined.
